(** * NoLine Smart Queue: admission, billing and exit verification

    A shallow embedding of the queue core of the NoLine back end and the
    properties its specification states.  The source files embedded here:
    - models/Customer.js (src/unnamed/part_000): the customer documents and
      their schema, [markAsBilled], [markAsVerified], [getNextQueueNumber],
      [getStatistics], the active-queue query;
    - models/Queue.js: the queue slots, [complete], [getPosition],
      [getActiveQueue], [getNextToServe];
    - utils/qrCodeGenerator.js: [generateQRCode], [decodeQRData];
    - utils/customerIdGenerator.js: [generateCustomerId],
      [isValidCustomerId], [extractCustomerNumber],
      [generateBatchCustomerIds];
    - controllers/verificationController.js (src/unnamed/part_002):
      [verifyQRCode], [bulkVerifyQRCodes];
    - controllers/billingController.js: [completeBilling], [undoBilling];
    - utils/queueManager.js and the controllers gathered in that file:
      [calculateQueuePosition], [getEstimatedWaitTime],
      [validateQueueIntegrity], [getNextCustomerToServe], [resetQueue],
      [getCurrentQueue], [getQueuePosition], [getNextCustomer],
      [deleteCustomer], [registerCustomer], [getCustomerById].

    Conventions of the embedding.
    - A MongoDB collection is the list of its documents in natural order;
      the index of a document in the list plays the role of its [_id].
    - [findOne] is [list_find]; [save] rewrites the modified paths of the
      document stored under the same [_id].
    - A [Date] is a number of milliseconds ([Time := Z]); every call of
      [new Date()] is a parameter of the function that makes it.
    - Queue numbers held by the store are integers ([Z], in the range where
      JavaScript numbers are exact); numbers that arrive in a scanned
      payload are arbitrary JSON numbers ([Q]).  Where a property depends
      on the arithmetic of numbers that a caller or the configuration
      supplies, it is stated for the integers JavaScript adds and prints
      exactly ([safe_integer], up to [MAX_SAFE_INTEGER]).
    - Strings are ASCII text, so that the length of a string is its number
      of characters and [trim] strips ASCII white space; a property that
      depends on either says so of the strings it takes ([ascii_text]).
    - [JSON.parse], [JSON.stringify] and [QRCode.toDataURL] belong to the
      runtime, not to the repository: the handlers are parameterised by
      them.  [Module JSONText] gives a reference reader and printer, on
      which the closed instances at the end are computed.
    - An [async] handler is given twice: as one function from request to
      response, for a request that runs with no other in between, and as a
      machine that takes one step per [await], for requests that overlap
      ([verifyQRCode] and [registerCustomer]).
    - The database always answers: the [catch] blocks that turn a rejected
      database call into status 500 are not modelled, so nothing is stated
      here about what a 500 answer of [verifyQRCode] leaves behind, nor
      about a 500 answer of [registerCustomer] other than the one the
      schema causes.  What [Model.create] rejects by itself, a document
      the schema refuses or a key a unique index holds already, is
      modelled.
    - The Mongoose-managed [createdAt]/[updatedAt] stamps are not stored:
      documents are created by appending, so a collection lists them in
      the order of [createdAt].
    - Averages and rounded figures (floating point) are left out:
      [getAverageWaitTime], the billing and verification statistics, the
      dashboard, pagination. *)

From Stdlib Require Import ZArith QArith Qcanon String Ascii List Lia Bool Sorted.
From Stdlib Require Import DecimalString DecimalFacts DecimalPos.
From stdpp Require Import base option list strings sorting relations.
Import ListNotations.

Local Open Scope string_scope.
Local Open Scope Z_scope.

(** ** Data model *)

Definition Time := Z.

(** [status] enum of models/Customer.js. *)
Inductive Status := WAITING | BILLED | VERIFIED.

(** [status] enum of models/Queue.js. *)
Inductive QueueStatus := ACTIVE | COMPLETED.

#[global] Instance Status_eq_dec : EqDecision Status.
Proof. solve_decision. Defined.

#[global] Instance QueueStatus_eq_dec : EqDecision QueueStatus.
Proof. solve_decision. Defined.

(** *** JSON values, as [JSON.parse] returns them *)

#[warnings="-register-all"]
Inductive json :=
| JNull
| JBool (b : bool)
| JNum (q : Q)
| JStr (s : string)
| JArr (items : list json)
| JObj (fields : list (string * json)).

(** What JavaScript throws inside [decodeQRData]. *)
Inductive Thrown :=
| SyntaxError
| TypeError
| Error (msg : string).

Definition Result (A : Type) : Type := A + Thrown.

Definition ret {A} (a : A) : Result A := inl a.
Definition throw {A} (e : Thrown) : Result A := inr e.
Definition bind {A B} (m : Result A) (k : A -> Result B) : Result B :=
  match m with
  | inl a => k a
  | inr e => inr e
  end.

Notation "'let!' x ':=' m 'in' k" := (bind m (fun x => k))
  (at level 10, x name, m at level 100, k at level 200).

(** [try { body } catch (error) { throw new Error(msg) }] *)
Definition try_catch_rethrow {A} (body : Result A) (msg : string) : Result A :=
  match body with
  | inl a => inl a
  | inr _ => inr (Error msg)
  end.

(** Own property of a parsed object; for a repeated key [JSON.parse] keeps
    the last value. *)
Definition own_property (key : string) (fields : list (string * json)) : option json :=
  fold_left (fun acc kv => if String.eqb (fst kv) key then Some (snd kv) else acc)
            fields None.

(** [v.key] for a value [v] that came out of [JSON.parse]: [None] is
    [undefined]; reading a property of [null] throws. *)
Definition get_property (v : json) (key : string) : Result (option json) :=
  match v with
  | JNull => throw TypeError
  | JObj fields => ret (own_property key fields)
  | _ => ret None
  end.

(** JavaScript truthiness, [!!v]. *)
Definition truthy (v : option json) : bool :=
  match v with
  | None => false
  | Some JNull => false
  | Some (JBool b) => b
  | Some (JNum q) => negb (Qeq_bool q 0)
  | Some (JStr s) => negb (String.eqb s "")
  | Some (JArr _) => true
  | Some (JObj _) => true
  end.

(** *** The regular expression [/^SM-\d+$/] *)

Definition is_digit (c : ascii) : bool :=
  let n := nat_of_ascii c in (48 <=? n)%nat && (n <=? 57)%nat.

Fixpoint all_digits (s : string) : bool :=
  match s with
  | EmptyString => true
  | String c s' => is_digit c && all_digits s'
  end.

Definition customerId_format (s : string) : bool :=
  match s with
  | String "S" (String "M" (String "-" rest)) =>
      negb (String.eqb rest "") && all_digits rest
  | _ => false
  end.

(** [v.match(/^SM-\d+$/)]: only strings have [match]; the result is kept
    as "matched or null". *)
Definition match_customerId (v : option json) : Result bool :=
  match v with
  | Some (JStr s) => ret (customerId_format s)
  | _ => throw TypeError
  end.

(** [typeof v !== 'number' || v < 1] *)
Definition not_number_or_below_one (v : option json) : bool :=
  match v with
  | Some (JNum q) => if Qlt_le_dec q 1 then true else false
  | _ => true
  end.

(** [n !== v] for a stored number [n] and a decoded value [v]. *)
Definition strict_neq_number (n : Z) (v : option json) : bool :=
  match v with
  | Some (JNum q) => negb (Qeq_bool (inject_Z n) q)
  | _ => true
  end.

(** *** The regular expression [/^\d{10}$/] and [String.prototype.trim] *)

Definition phone_format (s : string) : bool :=
  (String.length s =? 10)%nat && all_digits s.

(** White space of ASCII text: space, tab, line feed, vertical tab, form
    feed, carriage return. *)
Definition is_space (c : ascii) : bool :=
  let n := nat_of_ascii c in (n =? 32)%nat || ((9 <=? n)%nat && (n <=? 13)%nat).

Fixpoint trim_start (l : list ascii) : list ascii :=
  match l with
  | c :: l' => if is_space c then trim_start l' else l
  | [] => []
  end.

(** [s.trim()] for ASCII text [s] ([ascii_text]), where the white space
    JavaScript strips is the six characters of [is_space]. *)
Definition trim (s : string) : string :=
  string_of_list_ascii (rev (trim_start (rev (trim_start (list_ascii_of_string s))))).

(** What a rejected [Model.create] carries: a [ValidationError], or error
    code 11000 from a unique index. *)
Inductive CreateError := ValidationError | DuplicateKey.

(** ** models/Customer.js *)

Module Customer.

(** A document of the [customers] collection. *)
Record doc := mk {
  customerId : string;
  name : string;
  phone : string;
  cartTotal : Q;
  queueNumber : Z;
  qrCode : string;
  status : Status;
  billedAt : option Time;
  verifiedAt : option Time
}.

Abbreviation collection := (list doc).

Definition set_status (s : Status) (d : doc) : doc :=
  mk (customerId d) (name d) (phone d) (cartTotal d) (queueNumber d)
     (qrCode d) s (billedAt d) (verifiedAt d).

Definition set_billedAt (t : option Time) (d : doc) : doc :=
  mk (customerId d) (name d) (phone d) (cartTotal d) (queueNumber d)
     (qrCode d) (status d) t (verifiedAt d).

Definition set_verifiedAt (t : option Time) (d : doc) : doc :=
  mk (customerId d) (name d) (phone d) (cartTotal d) (queueNumber d)
     (qrCode d) (status d) (billedAt d) t.

(** [Customer.findOne({ customerId })]: the first document with that
    identifier, together with its place in the collection. *)
Definition findOne (id : string) (c : collection) : option (nat * doc) :=
  list_find (fun d => customerId d = id) c.

(** [Customer.findOne({ customerId: v })] for a decoded value [v]: only a
    string can equal a stored identifier. *)
Definition findOne_value (v : option json) (c : collection) : option (nat * doc) :=
  match v with
  | Some (JStr id) => findOne id c
  | _ => None
  end.

(** [this.status = 'BILLED'; this.billedAt = new Date()] *)
Definition markAsBilled (now : Time) (d : doc) : doc :=
  set_billedAt (Some now) (set_status BILLED d).

(** [this.status = 'VERIFIED'; this.verifiedAt = new Date()] *)
Definition markAsVerified (now : Time) (d : doc) : doc :=
  set_verifiedAt (Some now) (set_status VERIFIED d).

(** [this.save()] after [markAsBilled]: the modified paths [status] and
    [billedAt] of the in-memory document [d] are written to the document
    stored under [_id = i]. *)
Definition save_billed (i : nat) (d : doc) (c : collection) : collection :=
  alter (fun stored => set_billedAt (billedAt d) (set_status (status d) stored)) i c.

(** [this.save()] after [markAsVerified]: paths [status], [verifiedAt]. *)
Definition save_verified (i : nat) (d : doc) (c : collection) : collection :=
  alter (fun stored => set_verifiedAt (verifiedAt d) (set_status (status d) stored)) i c.

(** [this.findOne().sort({ queueNumber: -1 })]: a document whose queue
    number is greatest (the earliest one among equals), [None] for the
    empty collection. *)
Fixpoint findOne_sort_queueNumber_desc (c : collection) : option doc :=
  match c with
  | [] => None
  | d :: c' =>
      match findOne_sort_queueNumber_desc c' with
      | None => Some d
      | Some m => if queueNumber m <=? queueNumber d then Some d else Some m
      end
  end.

(** [customerSchema.statics.getNextQueueNumber]:
    [return lastCustomer ? lastCustomer.queueNumber + 1 : 1]. *)
Definition getNextQueueNumber (c : collection) : Z :=
  match findOne_sort_queueNumber_desc c with
  | Some lastCustomer => queueNumber lastCustomer + 1
  | None => 1
  end.

(** The filter [{ status: { $in: ['WAITING', 'BILLED'] } }]. *)
Definition in_waiting_or_billed (d : doc) : bool :=
  match status d with
  | WAITING | BILLED => true
  | VERIFIED => false
  end.

(** [Customer.countDocuments({ status: { $in: ['WAITING', 'BILLED'] },
    queueNumber: { $lt: n } })] *)
Definition countDocuments_active_lt (n : Z) (c : collection) : Z :=
  Z.of_nat
    (length (filter (fun d => in_waiting_or_billed d && (queueNumber d <? n))%bool c)).

(** [Customer.create(d)] under the unique index on [customerId]: the
    document is appended, or the insert fails with error code 11000. *)
Definition create (d : doc) (c : collection) : option collection :=
  match findOne (customerId d) c with
  | Some _ => None
  | None => Some (c ++ [d])%list
  end.

(** The setter of the schema: [name: { trim: true }]. *)
Definition cast (d : doc) : doc :=
  mk (customerId d) (trim (name d)) (phone d) (cartTotal d) (queueNumber d)
     (qrCode d) (status d) (billedAt d) (verifiedAt d).

(** The validators of the schema: [customerId] required and matching
    [/^SM-\d+$/]; [name] required, 2 to 100 characters; [phone] matching
    [/^\d{10}$/]; [cartTotal] at least 0; [queueNumber] at least 1;
    [qrCode] required. *)
Definition validate (d : doc) : bool :=
  customerId_format (customerId d)
  && (2 <=? String.length (name d))%nat && (String.length (name d) <=? 100)%nat
  && phone_format (phone d)
  && Qle_bool 0 (cartTotal d)
  && (1 <=? queueNumber d)
  && negb (String.eqb (qrCode d) "").

(** [Customer.create(d)] with the schema applied: the document is cast
    and validated, then inserted under the unique index.  The result is
    the stored document and the collection after the insert. *)
Definition create_validated (d : doc) (c : collection) : (doc * collection) + CreateError :=
  let d := cast d in
  if negb (validate d) then inr ValidationError
  else
    match create d c with
    | Some c' => inl (d, c')
    | None => inr DuplicateKey
    end.

(** [Customer.findOneAndDelete({ customerId })] *)
Definition findOneAndDelete (id : string) (c : collection) : option doc * collection :=
  match findOne id c with
  | Some (i, d) => (Some d, delete i c)
  | None => (None, c)
  end.

(** The order of [.sort({ queueNumber: 1 })]. *)
Definition queueNumber_le (a b : doc) : Prop := queueNumber a <= queueNumber b.

#[global] Instance entry_order_dec a b : Decision (queueNumber_le a b).
Proof. unfold queueNumber_le. apply _. Defined.

(** [.sort({ queueNumber: 1 })]: ascending queue numbers.  MongoDB leaves
    the order among equal keys open; [merge_sort] fixes one. *)
Definition sort_queueNumber_asc (c : collection) : collection :=
  merge_sort queueNumber_le c.

(** [this.countDocuments({ status: s })] *)
Definition countDocuments_status (s : Status) (c : collection) : Z :=
  Z.of_nat (length (filter (fun d => status d = s) c)).

(** The object [getStatistics] returns. *)
Record Statistics := mkStatistics {
  waiting : Z;
  billed : Z;
  verified : Z;
  total : Z;
  activeQueue : Z
}.

(** [customerSchema.statics.getStatistics] *)
Definition getStatistics (c : collection) : Statistics :=
  let waiting := countDocuments_status WAITING c in
  let billed := countDocuments_status BILLED c in
  let verified := countDocuments_status VERIFIED c in
  let total := Z.of_nat (length c) in
  mkStatistics waiting billed verified total (waiting + billed).

(** What [.select('customerId name phone queueNumber cartTotal status')]
    keeps of a document. *)
Record listed := mkListed {
  l_customerId : string;
  l_name : string;
  l_phone : string;
  l_queueNumber : Z;
  l_cartTotal : Q;
  l_status : Status
}.

Definition select_listed (d : doc) : listed :=
  mkListed (customerId d) (name d) (phone d) (queueNumber d) (cartTotal d) (status d).

(** [Customer.find({ status: { $in: ['WAITING', 'BILLED'] } })
      .sort({ queueNumber: 1 })], the query behind [getActiveQueue] and
    [getCurrentQueue]. *)
Definition find_active_sorted (c : collection) : collection :=
  sort_queueNumber_asc (filter (fun d => in_waiting_or_billed d = true) c).

(** [Customer.findOne({ status: 'WAITING' }).sort({ queueNumber: 1 })] *)
Definition findOne_waiting_sorted (c : collection) : option doc :=
  head (sort_queueNumber_asc (filter (fun d => status d = WAITING) c)).

End Customer.

(** ** models/Queue.js *)

Module Queue.

(** A document of the [queues] collection. *)
Record doc := mk {
  queueNumber : Z;
  customerId : string;
  status : QueueStatus;
  enteredAt : Time;
  completedAt : option Time
}.

Abbreviation collection := (list doc).

(** [Queue.findOne({ customerId, status: 'ACTIVE' })] *)
Definition findOne_active (id : string) (c : collection) : option (nat * doc) :=
  list_find (fun d => customerId d = id /\ status d = ACTIVE) c.

(** [this.status = 'COMPLETED'; this.completedAt = new Date()] *)
Definition complete (now : Time) (d : doc) : doc :=
  mk (queueNumber d) (customerId d) COMPLETED (enteredAt d) (Some now).

(** [this.save()] after [complete]: paths [status], [completedAt]. *)
Definition save_completed (i : nat) (d : doc) (c : collection) : collection :=
  alter (fun stored =>
           mk (queueNumber stored) (customerId stored) (status d)
              (enteredAt stored) (completedAt d)) i c.

(** [queueSchema.statics.getPosition]:
    [countDocuments({ status: 'ACTIVE', queueNumber: { $lt: n } }) + 1]. *)
Definition getPosition (n : Z) (c : collection) : Z :=
  Z.of_nat
    (length (filter (fun d => bool_decide (status d = ACTIVE) && (queueNumber d <? n))%bool
                    c))
  + 1.

(** The order of [.sort({ queueNumber: 1 })]. *)
Definition queueNumber_le (a b : doc) : Prop := queueNumber a <= queueNumber b.

#[global] Instance slot_order_dec a b : Decision (queueNumber_le a b).
Proof. unfold queueNumber_le. apply _. Defined.

(** [.sort({ queueNumber: 1 })] *)
Definition sort_queueNumber_asc (c : collection) : collection :=
  merge_sort queueNumber_le c.

(** [queueSchema.statics.getActiveQueue]:
    [find({ status: 'ACTIVE' }).sort({ queueNumber: 1 })]. *)
Definition getActiveQueue (c : collection) : collection :=
  sort_queueNumber_asc (filter (fun d => status d = ACTIVE) c).

(** [queueSchema.statics.getNextToServe]:
    [findOne({ status: 'ACTIVE' }).sort({ queueNumber: 1 })], the first
    document of the sorted result. *)
Definition getNextToServe (c : collection) : option doc :=
  head (getActiveQueue c).

(** [Queue.create(d)] under the unique index on [queueNumber]: appended,
    or refused with error code 11000. *)
Definition create (d : doc) (c : collection) : option collection :=
  match list_find (fun stored => queueNumber stored = queueNumber d) c with
  | Some _ => None
  | None => Some (c ++ [d])%list
  end.

(** The validators of the schema: [queueNumber] at least 1, [customerId]
    required. *)
Definition validate (d : doc) : bool :=
  (1 <=? queueNumber d) && negb (String.eqb (customerId d) "").

(** [Queue.create(d)] with the schema applied. *)
Definition create_validated (d : doc) (c : collection) : collection + CreateError :=
  if negb (validate d) then inr ValidationError
  else
    match create d c with
    | Some c' => inl c'
    | None => inr DuplicateKey
    end.

(** [Queue.deleteOne({ customerId })]: the first slot of that customer. *)
Definition deleteOne (id : string) (c : collection) : collection :=
  match list_find (fun d => customerId d = id) c with
  | Some (i, _) => delete i c
  | None => c
  end.

End Queue.

(** The two collections of the database. *)
Record World := mkWorld {
  customers : Customer.collection;
  queues : Queue.collection
}.

(** ** A reference reader and printer for JSON text

    The handlers take [JSON.parse] and [JSON.stringify] as parameters.  The
    functions of this module stand in for them where a closed example has to
    run: a recursive-descent reader for JSON text (objects, arrays, strings
    with the two-character escapes and [\u00XX], decimal numbers with
    fraction and exponent, [true], [false], [null], white space) and a
    printer in the layout of [JSON.stringify]. *)

Module JSONText.

Definition is_ws (c : ascii) : bool :=
  let n := nat_of_ascii c in
  ((n =? 32) || (n =? 9) || (n =? 10) || (n =? 13))%nat.

Fixpoint skip_ws (l : list ascii) : list ascii :=
  match l with
  | c :: l' => if is_ws c then skip_ws l' else l
  | [] => []
  end.

(** The decimal digit [c] put in front of the numeral [d]. *)
Definition cons_digit (c : ascii) (d : Decimal.uint) : Decimal.uint :=
  match c with
  | "0"%char => Decimal.D0 d
  | "1"%char => Decimal.D1 d
  | "2"%char => Decimal.D2 d
  | "3"%char => Decimal.D3 d
  | "4"%char => Decimal.D4 d
  | "5"%char => Decimal.D5 d
  | "6"%char => Decimal.D6 d
  | "7"%char => Decimal.D7 d
  | "8"%char => Decimal.D8 d
  | "9"%char => Decimal.D9 d
  | _ => d
  end.

(** The digits at the head of [l], as a decimal numeral, and the rest of
    the text. *)
Fixpoint read_digits (l : list ascii) : Decimal.uint * list ascii :=
  match l with
  | c :: l' =>
      if is_digit c then
        let '(d, rest) := read_digits l' in (cons_digit c d, rest)
      else (Decimal.Nil, l)
  | [] => (Decimal.Nil, [])
  end.

Definition read_sign (l : list ascii) : bool * list ascii :=
  match l with
  | "-"%char :: l' => (true, l')
  | _ => (false, l)
  end.

(** [int]: a single [0], or digits that do not start with [0]. *)
Definition read_int (l : list ascii) : option (Z * list ascii) :=
  let '(d, rest) := read_digits l in
  if Decimal.uint_eq_dec (Decimal.unorm d) d then Some (Z.of_uint d, rest) else None.

(** [frac]: the fraction as a numerator and the number of its digits. *)
Definition read_frac (l : list ascii) : option (Z * nat * list ascii) :=
  match l with
  | "."%char :: l' =>
      match read_digits l' with
      | (Decimal.Nil, _) => None
      | (d, rest) => Some (Z.of_uint d, Decimal.nb_digits d, rest)
      end
  | _ => Some (0, O, l)
  end.

Definition read_exp (l : list ascii) : option (Z * list ascii) :=
  match l with
  | ("e" | "E")%char :: l' =>
      let '(neg, l1) :=
        match l' with
        | "+"%char :: l2 => (false, l2)
        | "-"%char :: l2 => (true, l2)
        | _ => (false, l')
        end in
      match read_digits l1 with
      | (Decimal.Nil, _) => None
      | (d, rest) => Some (if neg then - Z.of_uint d else Z.of_uint d, rest)
      end
  | _ => Some (0, l)
  end.

Definition scale10 (q : Q) (e : Z) : Q :=
  if 0 <=? e then Qred (q * inject_Z (10 ^ e))
  else Qred (q / inject_Z (10 ^ (- e))).

Definition read_number (l : list ascii) : option (Q * list ascii) :=
  let '(neg, l0) := read_sign l in
  match read_int l0 with
  | None => None
  | Some (i, l1) =>
      match read_frac l1 with
      | None => None
      | Some (f, k, l2) =>
          match read_exp l2 with
          | None => None
          | Some (e, l3) =>
              let m := Qred (inject_Z i + Qmake f (Pos.of_nat (Nat.pow 10 k))) in
              let v := scale10 m e in
              Some (if neg then Qred (- v) else v, l3)
          end
      end
  end.

Definition hex_value (c : ascii) : option nat :=
  let n := nat_of_ascii c in
  if ((48 <=? n) && (n <=? 57))%nat then Some (n - 48)%nat
  else if ((65 <=? n) && (n <=? 70))%nat then Some (n - 55)%nat
  else if ((97 <=? n) && (n <=? 102))%nat then Some (n - 87)%nat
  else None.

Definition dquote : ascii := ascii_of_nat 34.

Definition unescape (c : ascii) : option ascii :=
  if Ascii.eqb c dquote then Some dquote
  else match c with
       | "\"%char => Some "\"%char
       | "/"%char => Some "/"%char
       | "b"%char => Some (ascii_of_nat 8)
       | "f"%char => Some (ascii_of_nat 12)
       | "n"%char => Some (ascii_of_nat 10)
       | "r"%char => Some (ascii_of_nat 13)
       | "t"%char => Some (ascii_of_nat 9)
       | _ => None
       end.

Definition cons_char (c : ascii) (r : option (string * list ascii)) :=
  match r with
  | Some (s, rest) => Some (String c s, rest)
  | None => None
  end.

(** The characters of a string literal after its opening quote. *)
Fixpoint read_string (l : list ascii) : option (string * list ascii) :=
  match l with
  | [] => None
  | c :: rest =>
      if Ascii.eqb c dquote then Some (EmptyString, rest)
      else if Ascii.eqb c "\"%char then
        match rest with
        | "u"%char :: "0"%char :: "0"%char :: h1 :: h2 :: rest' =>
            match hex_value h1, hex_value h2 with
            | Some a, Some b => cons_char (ascii_of_nat (16 * a + b)) (read_string rest')
            | _, _ => None
            end
        | e :: rest' =>
            match unescape e with
            | Some ch => cons_char ch (read_string rest')
            | None => None
            end
        | [] => None
        end
      else if (nat_of_ascii c <? 32)%nat then None
      else cons_char c (read_string rest)
  end.

Fixpoint read_value (fuel : nat) (l : list ascii) : option (json * list ascii) :=
  match fuel with
  | O => None
  | S fuel' =>
      match skip_ws l with
      | "n"%char :: "u"%char :: "l"%char :: "l"%char :: rest => Some (JNull, rest)
      | "t"%char :: "r"%char :: "u"%char :: "e"%char :: rest => Some (JBool true, rest)
      | "f"%char :: "a"%char :: "l"%char :: "s"%char :: "e"%char :: rest =>
          Some (JBool false, rest)
      | "["%char :: rest =>
          match skip_ws rest with
          | "]"%char :: rest' => Some (JArr [], rest')
          | _ => match read_elements fuel' rest with
                 | Some (vs, rest') => Some (JArr vs, rest')
                 | None => None
                 end
          end
      | "{"%char :: rest =>
          match skip_ws rest with
          | "}"%char :: rest' => Some (JObj [], rest')
          | _ => match read_members fuel' rest with
                 | Some (kvs, rest') => Some (JObj kvs, rest')
                 | None => None
                 end
          end
      | c :: rest =>
          if Ascii.eqb c dquote then
            match read_string rest with
            | Some (s, rest') => Some (JStr s, rest')
            | None => None
            end
          else
            match read_number (c :: rest) with
            | Some (q, rest') => Some (JNum q, rest')
            | None => None
            end
      | [] => None
      end
  end
with read_elements (fuel : nat) (l : list ascii) : option (list json * list ascii) :=
  match fuel with
  | O => None
  | S fuel' =>
      match read_value fuel' l with
      | None => None
      | Some (v, rest) =>
          match skip_ws rest with
          | ","%char :: rest' =>
              match read_elements fuel' rest' with
              | Some (vs, rest'') => Some (v :: vs, rest'')
              | None => None
              end
          | "]"%char :: rest' => Some ([v], rest')
          | _ => None
          end
      end
  end
with read_members (fuel : nat) (l : list ascii) : option (list (string * json) * list ascii) :=
  match fuel with
  | O => None
  | S fuel' =>
      match skip_ws l with
      | c :: l1 =>
          if negb (Ascii.eqb c dquote) then None
          else
            match read_string l1 with
            | None => None
            | Some (k, l2) =>
                match skip_ws l2 with
                | ":"%char :: l3 =>
                    match read_value fuel' l3 with
                    | None => None
                    | Some (v, rest) =>
                        match skip_ws rest with
                        | ","%char :: rest' =>
                            match read_members fuel' rest' with
                            | Some (kvs, rest'') => Some ((k, v) :: kvs, rest'')
                            | None => None
                            end
                        | "}"%char :: rest' => Some ([(k, v)], rest')
                        | _ => None
                        end
                    end
                | _ => None
                end
            end
      | [] => None
      end
  end.

(** The reader: one value, white space around it, nothing else. *)
Definition parse (s : string) : option json :=
  let l := list_ascii_of_string s in
  match read_value (2 * length l + 2) l with
  | Some (v, rest) =>
      match skip_ws rest with
      | [] => Some v
      | _ => None
      end
  | None => None
  end.

Definition hex_digit (n : nat) : ascii :=
  if (n <? 10)%nat then ascii_of_nat (48 + n) else ascii_of_nat (87 + n).

Definition escape_char (c : ascii) : string :=
  let n := nat_of_ascii c in
  if (n =? 34)%nat then String "\"%char (String dquote "")
  else if (n =? 92)%nat then "\\"
  else if (n =? 8)%nat then "\b"
  else if (n =? 12)%nat then "\f"
  else if (n =? 10)%nat then "\n"
  else if (n =? 13)%nat then "\r"
  else if (n =? 9)%nat then "\t"
  else if (n <? 32)%nat then
    "\u00" ++ String (hex_digit (n / 16)) (String (hex_digit (n mod 16)) "")
  else String c "".

Fixpoint escape (s : string) : string :=
  match s with
  | EmptyString => ""
  | String c s' => escape_char c ++ escape s'
  end.

Definition print_string (s : string) : string :=
  String dquote (escape s ++ String dquote "").

Definition print_Z (z : Z) : string := NilZero.string_of_int (Z.to_int z).

(** At most [n] digits of the decimal expansion of [r / d], [0 <= r < d]. *)
Fixpoint frac_digits (n : nat) (r d : Z) : string :=
  match n with
  | O => ""
  | S n' =>
      if r =? 0 then ""
      else String (ascii_of_nat (48 + Z.to_nat (10 * r / d))) (frac_digits n' (10 * r mod d) d)
  end.

Definition print_number (q : Q) : string :=
  let n := Qnum q in
  let d := Z.pos (Qden q) in
  if d =? 1 then print_Z n
  else (if n <? 0 then "-" else "")
       ++ print_Z (Z.abs n / d) ++ "." ++ frac_digits 17 (Z.abs n mod d) d.

Definition join_with_commas (parts : list string) : string :=
  match parts with
  | [] => ""
  | p :: ps => fold_left (fun acc x => acc ++ "," ++ x) ps p
  end.

(** The printer: the text of [JSON.stringify(v)]. *)
Fixpoint stringify (v : json) : string :=
  match v with
  | JNull => "null"
  | JBool true => "true"
  | JBool false => "false"
  | JNum q => print_number q
  | JStr s => print_string s
  | JArr items => "[" ++ join_with_commas (map stringify items) ++ "]"
  | JObj fields =>
      "{" ++ join_with_commas
               (map (fun kv => print_string (fst kv) ++ ":" ++ stringify (snd kv)) fields)
          ++ "}"
  end.

(** Text that does not go on with a digit. *)
Definition no_digit_ahead (rest : list ascii) : Prop :=
  match rest with
  | c :: _ => is_digit c = false
  | [] => True
  end.

(** Text that does not go on as a number: no digit, no fraction, no
    exponent. *)
Definition number_ends (rest : list ascii) : Prop :=
  match rest with
  | c :: _ => is_digit c = false /\ c <> "."%char /\ c <> "e"%char /\ c <> "E"%char
  | [] => True
  end.

End JSONText.

(** ** HTTP responses

    Each record lists the fields the controllers put in [res.json]; a field
    that a response does not carry is [None]. *)

Inductive Verification := FAILED | SUCCESS | ERROR.

Inductive Reason := INVALID_QR | DATA_MISMATCH | DUPLICATE_SCAN | NOT_BILLED.

(** The [data] object of a verification response. *)
Inductive VerifyData :=
| PreviousVerification (customerId name : string) (previousVerification : option Time)
| VerifiedCustomer (customerId name phone : string) (queueNumber : Z) (cartTotal : Q)
                   (status : Status) (billedAt verifiedAt : option Time).

Record VerifyResponse := mkVerifyResponse {
  v_code : Z;
  v_success : bool;
  v_message : string;
  v_error : option string;
  v_verification : option Verification;
  v_reason : option Reason;
  v_verifiedAt : option (option Time);
  v_currentStatus : option Status;
  v_data : option VerifyData
}.

(** The [data] object of a billing response. *)
Record BillingData := mkBillingData {
  bd_customerId : string;
  bd_name : string;
  bd_queueNumber : Z;
  bd_status : Status;
  bd_billedAt : option Time
}.

Record BillingResponse := mkBillingResponse {
  b_code : Z;
  b_success : bool;
  b_message : string;
  b_currentStatus : option Status;
  b_data : option BillingData
}.

(** The [data] object of a queue-position response; [position: null] is
    [NotRanked]. *)
Inductive PositionData :=
| NotRanked (customerId : string) (status : Status)
| Ranked (customerId name : string) (queueNumber position : Z) (status : Status)
         (customersAhead : Z).

Record PositionResponse := mkPositionResponse {
  p_code : Z;
  p_success : bool;
  p_message : option string;
  p_data : option PositionData
}.

(** [error.message].  Only [Error] reaches a response: [decodeQRData] lets
    no other exception out. *)
Definition message_of (e : Thrown) : string :=
  match e with
  | SyntaxError => "Unexpected token in JSON"
  | TypeError => "Cannot read properties"
  | Error msg => msg
  end.

(** The fields a registration stores beside the queue number. *)
Record Registration := mkRegistration {
  r_customerId : string;
  r_name : string;
  r_phone : string;
  r_cartTotal : Q;
  r_qrCode : string
}.

(** Operations on the [customers] collection that change which queue
    numbers it holds. *)
Inductive StoreOp :=
| OpRegister (r : Registration)
| OpDelete (customerId : string)
| OpReset.

(** ** The handlers *)

Section Handlers.

Variable JSON_parse : string -> option json.
Variable JSON_stringify : json -> string.
Variable QRCode_toDataURL : string -> option string.

(** *** utils/qrCodeGenerator.js *)

(** The object given to [JSON.stringify] in [generateQRCode]; [timestamp]
    is [new Date().toISOString()]. *)
Definition qrPayloadObject (customerId : string) (queueNumber : Z) (timestamp : string) : json :=
  JObj [("customerId", JStr customerId);
        ("queueNumber", JNum (inject_Z queueNumber));
        ("timestamp", JStr timestamp)].

(** [qrPayload], the text a QR code carries. *)
Definition qrPayload (customerId : string) (queueNumber : Z) (timestamp : string) : string :=
  JSON_stringify (qrPayloadObject customerId queueNumber timestamp).

(** [generateQRCode(data)]: the payload rendered as a data URL. *)
Definition generateQRCode (customerId : string) (queueNumber : Z) (timestamp : string)
  : Result string :=
  try_catch_rethrow
    (match QRCode_toDataURL (qrPayload customerId queueNumber timestamp) with
     | Some qrCodeDataURL => ret qrCodeDataURL
     | None => throw (Error "QRCode.toDataURL")
     end)
    "Failed to generate QR code".

(** The body of the [try] block of [decodeQRData]. *)
Definition decodeQRData_try (qrData : string) : Result json :=
  let! parsedData := match JSON_parse qrData with
                     | Some v => ret v
                     | None => throw SyntaxError
                     end in
  let! customerId := get_property parsedData "customerId" in
  if negb (truthy customerId) then throw (Error "Invalid QR code: Missing required fields")
  else
    let! queueNumber := get_property parsedData "queueNumber" in
    if negb (truthy queueNumber) then throw (Error "Invalid QR code: Missing required fields")
    else
      let! matched := match_customerId customerId in
      if negb matched then throw (Error "Invalid customer ID format")
      else if not_number_or_below_one queueNumber then throw (Error "Invalid queue number")
      else ret parsedData.

(** [decodeQRData(qrData)]: whatever the body throws is logged and replaced
    by one error. *)
Definition decodeQRData (qrData : string) : Result json :=
  try_catch_rethrow (decodeQRData_try qrData) "Invalid QR code format".

(** *** controllers/verificationController.js *)

Definition res_qr_required : VerifyResponse :=
  mkVerifyResponse 400 false "QR code data is required" None None None None None None.

Definition res_invalid_format (error : Thrown) : VerifyResponse :=
  mkVerifyResponse 400 false "Invalid QR code format" (Some (message_of error))
                   None None None None None.

Definition res_not_found : VerifyResponse :=
  mkVerifyResponse 404 false "Customer not found" None (Some FAILED) (Some INVALID_QR)
                   None None None.

Definition res_mismatch : VerifyResponse :=
  mkVerifyResponse 400 false "QR code data mismatch" None (Some FAILED) (Some DATA_MISMATCH)
                   None None None.

Definition res_duplicate (customer : Customer.doc) : VerifyResponse :=
  mkVerifyResponse 400 false "QR code already used" None (Some FAILED) (Some DUPLICATE_SCAN)
                   (Some (Customer.verifiedAt customer)) None
                   (Some (PreviousVerification (Customer.customerId customer)
                                               (Customer.name customer)
                                               (Customer.verifiedAt customer))).

Definition res_not_billed (customer : Customer.doc) : VerifyResponse :=
  mkVerifyResponse 400 false "Customer has not been billed yet" None (Some FAILED)
                   (Some NOT_BILLED) None (Some (Customer.status customer)) None.

Definition res_verified (customer : Customer.doc) : VerifyResponse :=
  mkVerifyResponse 200 true "Verification successful" None (Some SUCCESS) None None None
                   (Some (VerifiedCustomer (Customer.customerId customer)
                                           (Customer.name customer)
                                           (Customer.phone customer)
                                           (Customer.queueNumber customer)
                                           (Customer.cartTotal customer)
                                           (Customer.status customer)
                                           (Customer.billedAt customer)
                                           (Customer.verifiedAt customer))).

(** The outer [catch]: status 500. *)
Definition res_error (error : Thrown) : VerifyResponse :=
  mkVerifyResponse 500 false "Verification failed" (Some (message_of error)) (Some ERROR)
                   None None None None.

(** [!qrData] for the [qrData] field of the request body ([None]: absent). *)
Definition qrData_missing (qrData : option string) : bool :=
  match qrData with
  | None => true
  | Some s => String.eqb s ""
  end.

(** Steps 3 to 5 of [verifyQRCode], on the document [findOne] returned:
    the response that ends the request, or [None] when the customer is to
    be marked as verified. *)
Definition verify_checks (customer : Customer.doc) (queueNumber : option json)
  : option VerifyResponse :=
  if strict_neq_number (Customer.queueNumber customer) queueNumber then Some res_mismatch
  else if bool_decide (Customer.status customer = VERIFIED) then Some (res_duplicate customer)
  else if negb (bool_decide (Customer.status customer = BILLED)) then
         Some (res_not_billed customer)
  else None.

(** [verifyQRCode] run from the request to the response with no other
    request in between.  [t_verified] is the clock read by
    [markAsVerified], [t_completed] the clock read by [complete]. *)
Definition verifyQRCode (w : World) (qrData : option string) (t_verified t_completed : Time)
  : VerifyResponse * World :=
  if qrData_missing qrData then (res_qr_required, w)
  else
    match decodeQRData (default "" qrData) with
    | inr error => (res_invalid_format error, w)
    | inl decodedData =>
        match (let! customerId := get_property decodedData "customerId" in
               let! queueNumber := get_property decodedData "queueNumber" in
               ret (customerId, queueNumber)) with
        | inr error => (res_error error, w)
        | inl (customerId, queueNumber) =>
            match Customer.findOne_value customerId (customers w) with
            | None => (res_not_found, w)
            | Some (i, customer) =>
                match verify_checks customer queueNumber with
                | Some response => (response, w)
                | None =>
                    let customer := Customer.markAsVerified t_verified customer in
                    let w := mkWorld (Customer.save_verified i customer (customers w))
                                     (queues w) in
                    match Queue.findOne_active (Customer.customerId customer) (queues w) with
                    | Some (j, queueEntry) =>
                        let queueEntry := Queue.complete t_completed queueEntry in
                        (res_verified customer,
                         mkWorld (customers w)
                                 (Queue.save_completed j queueEntry (queues w)))
                    | None => (res_verified customer, w)
                    end
                end
            end
        end
    end.

(** *** [verifyQRCode] between its [await]s

    A request in flight is what it waits for.  One step of a request is
    the database operation it awaits together with the synchronous code
    that runs on the result, up to the next [await]; [now] is the clock
    that code reads.  Other requests may take steps in between. *)

Inductive VerifyRequest :=
| Received (qrData : option string)
| AwaitCustomerFindOne (customerId queueNumber : option json)
| AwaitCustomerSave (i : nat) (customer : Customer.doc)
| AwaitQueueFindOne (customer : Customer.doc)
| AwaitQueueSave (customer : Customer.doc) (j : nat) (queueEntry : Queue.doc)
| Responded (response : VerifyResponse).

Definition verify_step (now : Time) (w : World) (r : VerifyRequest) : World * VerifyRequest :=
  match r with
  | Received qrData =>
      if qrData_missing qrData then (w, Responded res_qr_required)
      else
        match decodeQRData (default "" qrData) with
        | inr error => (w, Responded (res_invalid_format error))
        | inl decodedData =>
            match (let! customerId := get_property decodedData "customerId" in
                   let! queueNumber := get_property decodedData "queueNumber" in
                   ret (customerId, queueNumber)) with
            | inr error => (w, Responded (res_error error))
            | inl (customerId, queueNumber) =>
                (w, AwaitCustomerFindOne customerId queueNumber)
            end
        end
  | AwaitCustomerFindOne customerId queueNumber =>
      match Customer.findOne_value customerId (customers w) with
      | None => (w, Responded res_not_found)
      | Some (i, customer) =>
          match verify_checks customer queueNumber with
          | Some response => (w, Responded response)
          | None => (w, AwaitCustomerSave i (Customer.markAsVerified now customer))
          end
      end
  | AwaitCustomerSave i customer =>
      (mkWorld (Customer.save_verified i customer (customers w)) (queues w),
       AwaitQueueFindOne customer)
  | AwaitQueueFindOne customer =>
      match Queue.findOne_active (Customer.customerId customer) (queues w) with
      | Some (j, queueEntry) => (w, AwaitQueueSave customer j (Queue.complete now queueEntry))
      | None => (w, Responded (res_verified customer))
      end
  | AwaitQueueSave customer j queueEntry =>
      (mkWorld (customers w) (Queue.save_completed j queueEntry (queues w)),
       Responded (res_verified customer))
  | Responded response => (w, Responded response)
  end.

(** The database and the requests in flight. *)
Definition System : Type := World * list VerifyRequest.

(** The request numbered [k] takes its next step at clock [now]. *)
Definition system_step (s : System) (ev : nat * Time) : System :=
  match snd s !! fst ev with
  | Some r =>
      let '(w, r') := verify_step (snd ev) (fst s) r in
      (w, <[fst ev := r']> (snd s))
  | None => s
  end.

(** A schedule: which request runs next, and the clock it reads. *)
Definition run (schedule : list (nat * Time)) (s : System) : System :=
  fold_left system_step schedule s.

(** The response of request [k], once it has one. *)
Definition response_of (s : System) (k : nat) : option VerifyResponse :=
  match snd s !! k with
  | Some (Responded response) => Some response
  | _ => None
  end.

(** One request run alone: every step of request [k] before any other. *)
Definition alone (k : nat) (t_verified t_completed : Time) : list (nat * Time) :=
  [(k, t_verified); (k, t_verified); (k, t_verified); (k, t_completed); (k, t_completed)].

(** Every one of the requests [0 .. n-1] takes one step, in order, at
    clock [t]. *)
Definition round (n : nat) (t : Time) : list (nat * Time) :=
  map (fun k => (k, t)) (seq 0 n).

(** [n] requests that overlap completely: each takes its first step, then
    each its second, and so on to the fifth. *)
Definition in_lockstep (n : nat) (t1 t2 t3 t4 t5 : Time) : list (nat * Time) :=
  (round n t1 ++ round n t2 ++ round n t3 ++ round n t4 ++ round n t5)%list.

(** *** controllers/billingController.js *)

Definition billing_data (customer : Customer.doc) : BillingData :=
  mkBillingData (Customer.customerId customer) (Customer.name customer)
                (Customer.queueNumber customer) (Customer.status customer)
                (Customer.billedAt customer).

(** [completeBilling]; [now] is the clock read by [markAsBilled]. *)
Definition completeBilling (w : World) (customerId : string) (now : Time)
  : BillingResponse * World :=
  match Customer.findOne customerId (customers w) with
  | None => (mkBillingResponse 404 false "Customer not found" None None, w)
  | Some (i, customer) =>
      if bool_decide (Customer.status customer = VERIFIED) then
        (mkBillingResponse 400 false "Customer has already been verified and exited"
                           (Some (Customer.status customer)) None, w)
      else if bool_decide (Customer.status customer = BILLED) then
        (mkBillingResponse 200 true "Customer is already billed" None
                           (Some (billing_data customer)), w)
      else
        let customer := Customer.markAsBilled now customer in
        (mkBillingResponse 200 true "Billing completed successfully" None
                           (Some (billing_data customer)),
         mkWorld (Customer.save_billed i customer (customers w)) (queues w))
  end.

(** *** controllers/queueController.js *)

(** [getQueuePosition] *)
Definition getQueuePosition (w : World) (customerId : string) : PositionResponse :=
  match Customer.findOne customerId (customers w) with
  | None => mkPositionResponse 404 false (Some "Customer not found") None
  | Some (_, customer) =>
      if bool_decide (Customer.status customer = VERIFIED) then
        mkPositionResponse 200 true (Some "Customer has already been verified")
                           (Some (NotRanked (Customer.customerId customer) VERIFIED))
      else
        let customersAhead :=
          Customer.countDocuments_active_lt (Customer.queueNumber customer) (customers w) in
        let position := customersAhead + 1 in
        mkPositionResponse 200 true None
                           (Some (Ranked (Customer.customerId customer)
                                         (Customer.name customer)
                                         (Customer.queueNumber customer)
                                         position
                                         (Customer.status customer)
                                         customersAhead))
  end.

End Handlers.

(** *** Registration and removal, as far as queue numbers go *)

(** The steps of [registerCustomer] that concern the queue number:
    [const queueNumber = await Customer.getNextQueueNumber()] and
    [Customer.create({ ..., queueNumber, status: 'WAITING' })].  The other
    fields of the new document (the identifier from [generateCustomerId],
    the QR code from [generateQRCode], the validated request body) are
    taken as given.  The result is the number handed out and the collection
    after the insert, [None] when the insert is refused. *)
Definition register (r : Registration) (c : Customer.collection)
  : option (Z * Customer.collection) :=
  let queueNumber := Customer.getNextQueueNumber c in
  match Customer.create
          (Customer.mk (r_customerId r) (r_name r) (r_phone r) (r_cartTotal r) queueNumber
                       (r_qrCode r) WAITING None None) c with
  | Some c' => Some (queueNumber, c')
  | None => None
  end.

(** The queue numbers handed out, in order, while a list of operations runs:
    [registerCustomer], [deleteCustomer] ([findOneAndDelete]) and
    [resetQueue] ([deleteMany({})]). *)
Fixpoint issued (ops : list StoreOp) (c : Customer.collection) : list Z :=
  match ops with
  | [] => []
  | OpRegister r :: ops' =>
      match register r c with
      | Some (n, c') => n :: issued ops' c'
      | None => issued ops' c
      end
  | OpDelete id :: ops' => issued ops' (snd (Customer.findOneAndDelete id c))
  | OpReset :: ops' => issued ops' []
  end.

(** ** The other handlers *)

(** [Number.MAX_SAFE_INTEGER], 2^53 - 1. *)
Definition MAX_SAFE_INTEGER : Z := 9007199254740991.

(** [Number.isSafeInteger]: the integers on which JavaScript's [+],
    [parseInt] and [toString] are those of [Z].  Beyond them a double
    rounds (2^53 + 1 is 2^53), and from 1e21 [toString] prints an
    exponent. *)
Definition safe_integer (n : Z) : bool :=
  (- MAX_SAFE_INTEGER <=? n) && (n <=? MAX_SAFE_INTEGER).

(** [Number.prototype.toString] on a safe integer. *)
Definition Number_toString (n : Z) : string := NilZero.string_of_int (Z.to_int n).

(** A status as the string the database holds. *)
Definition Status_toString (s : Status) : string :=
  match s with
  | WAITING => "WAITING"
  | BILLED => "BILLED"
  | VERIFIED => "VERIFIED"
  end.

(** *** utils/customerIdGenerator.js *)

(** [s.padStart(targetLength, '0')] *)
Definition padStart_zero (targetLength : nat) (s : string) : string :=
  string_of_list_ascii (replicate (targetLength - String.length s) "0"%char) ++ s.

(** [parseInt(s)] for a string of decimal digits, as [(\d+)] captures it:
    the digits read from the left. *)
Definition parseInt_digits (s : string) : Z :=
  fold_left (fun n c => n * 10 + (Z.of_nat (nat_of_ascii c) - 48)) (list_ascii_of_string s) 0.

(** [customerId.match(/^SM-(\d+)$/)]: the captured group, [None] for
    [null]. *)
Definition match_SM_digits (customerId : string) : option string :=
  match customerId with
  | String "S" (String "M" (String "-" rest)) =>
      if negb (String.eqb rest "") && all_digits rest then Some rest else None
  | _ => None
  end.

(** [extractCustomerNumber] *)
Definition extractCustomerNumber (customerId : string) : option Z :=
  parseInt_digits <$> match_SM_digits customerId.

(** A letter or a digit: a character that stands for itself in a regular
    expression. *)
Definition is_alphanumeric (c : ascii) : bool :=
  let n := nat_of_ascii c in
  ((48 <=? n) && (n <=? 57) || (65 <=? n) && (n <=? 90) || (97 <=? n) && (n <=? 122))%nat.

Definition plain_text (s : string) : bool :=
  forallb is_alphanumeric (list_ascii_of_string s).

(** What is left of [s] after the prefix [p], if [s] starts with it. *)
Fixpoint strip_prefix (p s : string) : option string :=
  match p, s with
  | EmptyString, _ => Some s
  | String a p', String b s' => if Ascii.eqb a b then strip_prefix p' s' else None
  | String _ _, EmptyString => None
  end.

Section CustomerIdGenerator.

(** [process.env.CUSTOMER_ID_PREFIX || 'SM'] and
    [parseInt(process.env.CUSTOMER_ID_START) || 1001]. *)
Variable PREFIX : string.
Variable START_NUMBER : Z.

(** [`${PREFIX}-${number.toString().padStart(4, '0')}`] *)
Definition format_customerId (number : Z) : string :=
  PREFIX ++ "-" ++ padStart_zero 4 (Number_toString number).

(** [Customer.findOne().sort({ createdAt: -1 })]: documents are created by
    appending, so the one created last is the last of the collection. *)
Definition findOne_sort_createdAt_desc (c : Customer.collection) : option Customer.doc :=
  last c.

(** [generateCustomerId].  [parseInt(match[1])] and [currentNumber + 1]
    are the number the digits spell and its successor in [Z] as long as that
    number is below [MAX_SAFE_INTEGER]; what is proved of the identifier
    through its number is stated for collections whose identifiers stay
    below it ([identifiers_safe]). *)
Definition generateCustomerId (c : Customer.collection) : string :=
  let lastCustomer := findOne_sort_createdAt_desc c in
  let nextNumber :=
    match lastCustomer with
    | Some lastCustomer =>
        if String.eqb (Customer.customerId lastCustomer) "" then START_NUMBER
        else
          match match_SM_digits (Customer.customerId lastCustomer) with
          | Some digits => parseInt_digits digits + 1
          | None => START_NUMBER
          end
    | None => START_NUMBER
    end in
  format_customerId nextNumber.

(** [isValidCustomerId]: [new RegExp(`^${PREFIX}-\d{4,}$`).test(customerId)].
    A [PREFIX] of letters and digits stands for itself in the pattern, and
    the test is whether [customerId] is [PREFIX], a hyphen and four or more
    digits.  Any other [PREFIX] may hold characters that are special in a
    regular expression; what the pattern accepts then is not modelled
    ([None]). *)
Definition isValidCustomerId (customerId : string) : option bool :=
  if plain_text PREFIX then
    Some match strip_prefix (PREFIX ++ "-") customerId with
         | Some rest => (4 <=? String.length rest)%nat && all_digits rest
         | None => false
         end
  else None.

(** [generateBatchCustomerIds(count, startFrom)]: the identifiers of
    [startFrom + i] for [i] from 0 to [count - 1].  The sums are those of
    [Z] as long as [count], [startFrom] and [startFrom + count] are safe
    integers; outside that range the loop adds doubles, and the result is
    not modelled ([None]). *)
Definition generateBatchCustomerIds (count : nat) (startFrom : Z) : option (list string) :=
  if safe_integer (Z.of_nat count) && safe_integer startFrom
     && safe_integer (startFrom + Z.of_nat count)
  then Some ((fun i => format_customerId (startFrom + Z.of_nat i)) <$> seq 0 count)
  else None.

End CustomerIdGenerator.

(** *** controllers/billingController.js: [undoBilling] *)

Record UndoResponse := mkUndoResponse {
  u_code : Z;
  u_success : bool;
  u_message : string;
  u_data : option (string * Status)
}.

(** [undoBilling]: [customer.status = 'WAITING'; customer.billedAt = null;
    await customer.save()] for a BILLED customer. *)
Definition undoBilling (w : World) (customerId : string) : UndoResponse * World :=
  match Customer.findOne customerId (customers w) with
  | None => (mkUndoResponse 404 false "Customer not found" None, w)
  | Some (i, customer) =>
      if negb (bool_decide (Customer.status customer = BILLED)) then
        (mkUndoResponse 400 false
                        ("Cannot undo billing for customer with status: "
                         ++ Status_toString (Customer.status customer)) None, w)
      else
        let customer := Customer.set_billedAt None (Customer.set_status WAITING customer) in
        (mkUndoResponse 200 true "Billing undone successfully"
                        (Some (Customer.customerId customer, Customer.status customer)),
         mkWorld (Customer.save_billed i customer (customers w)) (queues w))
  end.

(** *** utils/queueManager.js *)

(** [calculateQueuePosition]: [Queue.getPosition] behind a [try]. *)
Definition calculateQueuePosition (queueNumber : Z) (q : Queue.collection) : Z :=
  Queue.getPosition queueNumber q.

(** [getEstimatedWaitTime]: [AVG_SERVICE_TIME_MINUTES] is 3. *)
Definition getEstimatedWaitTime (position : Z) : Z :=
  if position <=? 1 then 0 else (position - 1) * 3.

(** The object [validateQueueIntegrity] returns. *)
Record IntegrityReport := mkIntegrityReport {
  isValid : bool;
  duplicates : list Z;
  gaps : list (Z * Z);
  totalCustomers : Z
}.

(** [Customer.aggregate([{ $group: { _id: '$queueNumber', count: { $sum: 1 } } },
    { $match: { count: { $gt: 1 } } }])], mapped to the [_id]s: the queue
    numbers held by more than one customer, each listed once. *)
Definition aggregate_duplicates (c : Customer.collection) : list Z :=
  let numbers := Customer.queueNumber <$> c in
  filter (fun n => (1 < count_occ Z.eq_dec numbers n)%nat) (remove_dups numbers).

(** The loop over [allQueues] from its second element on; [previous] is
    [allQueues[i - 1].queueNumber]. *)
Fixpoint gaps_after (previous : Z) (rest : list Z) : list (Z * Z) :=
  match rest with
  | [] => []
  | actual :: rest' =>
      let expected := previous + 1 in
      if bool_decide (actual <> expected) then (expected, actual) :: gaps_after actual rest'
      else gaps_after actual rest'
  end.

Definition find_gaps (allQueues : list Z) : list (Z * Z) :=
  match allQueues with
  | [] => []
  | first :: rest => gaps_after first rest
  end.

(** [validateQueueIntegrity] *)
Definition validateQueueIntegrity (c : Customer.collection) : IntegrityReport :=
  let duplicates := aggregate_duplicates c in
  let allQueues := Customer.queueNumber <$> Customer.sort_queueNumber_asc c in
  let gaps := find_gaps allQueues in
  mkIntegrityReport (bool_decide (length duplicates = 0%nat)
                     && bool_decide (length gaps = 0%nat))
                    duplicates gaps (Z.of_nat (length allQueues)).

(** [getNextCustomerToServe]: only WAITING customers are candidates. *)
Definition getNextCustomerToServe (c : Customer.collection) : option Customer.listed :=
  Customer.select_listed <$> Customer.findOne_waiting_sorted c.

(** The object [resetQueue] returns. *)
Record ResetResult := mkResetResult {
  customersDeleted : Z;
  queuesDeleted : Z;
  resetAt : Time
}.

(** [resetQueue]: [deleteMany({})] on both collections. *)
Definition resetQueue (w : World) (now : Time) : ResetResult * World :=
  (mkResetResult (Z.of_nat (length (customers w))) (Z.of_nat (length (queues w))) now,
   mkWorld [] []).

(** *** controllers/queueController.js *)

(** [getCurrentQueue]: the [queue] and [queueSize] fields of the response.
    The [statistics] and [timestamp] fields are not modelled, nor is the
    [createdAt] stamp the query selects beside the six stored fields. *)
Definition getCurrentQueue (w : World) : list Customer.listed * Z :=
  let activeQueue := Customer.select_listed <$> Customer.find_active_sorted (customers w) in
  (activeQueue, Z.of_nat (length activeQueue)).

Record NextResponse := mkNextResponse {
  n_code : Z;
  n_success : bool;
  n_message : option string;
  n_data : option Customer.listed
}.

(** [getNextCustomer] *)
Definition getNextCustomer (w : World) : NextResponse :=
  match getNextCustomerToServe (customers w) with
  | None => mkNextResponse 200 true (Some "Queue is empty") None
  | Some nextCustomer => mkNextResponse 200 true None (Some nextCustomer)
  end.

(** *** controllers/adminController.js *)

Record DeleteResponse := mkDeleteResponse {
  x_code : Z;
  x_success : bool;
  x_message : string;
  x_data : option (string * string)
}.

(** [deleteCustomer] *)
Definition deleteCustomer (w : World) (customerId : string) : DeleteResponse * World :=
  match Customer.findOneAndDelete customerId (customers w) with
  | (None, _) => (mkDeleteResponse 404 false "Customer not found" None, w)
  | (Some customer, remaining) =>
      (mkDeleteResponse 200 true "Customer deleted successfully"
                        (Some (Customer.customerId customer, Customer.name customer)),
       mkWorld remaining (Queue.deleteOne customerId (queues w)))
  end.

(** *** controllers/customerController.js: [getCustomerById] *)

(** The [data] object of [getCustomerById]; [position: null] is [None]. *)
Record CustomerDetails := mkCustomerDetails {
  cd_customerId : string;
  cd_name : string;
  cd_phone : string;
  cd_cartTotal : Q;
  cd_queueNumber : Z;
  cd_status : Status;
  cd_position : option Z;
  cd_estimatedWaitTime : string;
  cd_billedAt : option Time;
  cd_verifiedAt : option Time
}.

Record DetailsResponse := mkDetailsResponse {
  d_code : Z;
  d_success : bool;
  d_message : option string;
  d_data : option CustomerDetails
}.

(** [estimatedWaitTime ? `${estimatedWaitTime} minutes` : 'N/A'], where
    [null] and [0] are both falsy. *)
Definition estimatedWaitTime_text (estimatedWaitTime : option Z) : string :=
  match estimatedWaitTime with
  | None => "N/A"
  | Some n => if n =? 0 then "N/A" else Number_toString n ++ " minutes"
  end.

(** [getCustomerById] *)
Definition getCustomerById (w : World) (customerId : string) : DetailsResponse :=
  match Customer.findOne customerId (customers w) with
  | None => mkDetailsResponse 404 false (Some "Customer not found") None
  | Some (_, customer) =>
      let position :=
        if negb (bool_decide (Customer.status customer = VERIFIED)) then
          Some (calculateQueuePosition (Customer.queueNumber customer) (queues w))
        else None in
      let estimatedWaitTime := getEstimatedWaitTime <$> position in
      mkDetailsResponse 200 true None
        (Some (mkCustomerDetails (Customer.customerId customer) (Customer.name customer)
                                 (Customer.phone customer) (Customer.cartTotal customer)
                                 (Customer.queueNumber customer) (Customer.status customer)
                                 position (estimatedWaitTime_text estimatedWaitTime)
                                 (Customer.billedAt customer) (Customer.verifiedAt customer)))
  end.

(** *** controllers/customerController.js: [registerCustomer] *)

(** The fields of the request body [registerCustomer] reads: strings and
    a number, [None] where the body has no such field. *)
Record RegisterBody := mkRegisterBody {
  body_name : option string;
  body_phone : option string;
  body_cartTotal : option Q
}.

(** The [data] object of a 201 response. *)
Record RegisteredData := mkRegisteredData {
  rd_customerId : string;
  rd_name : string;
  rd_phone : string;
  rd_cartTotal : Q;
  rd_queueNumber : Z;
  rd_qrCode : string;
  rd_status : Status;
  rd_position : Z;
  rd_estimatedWaitTime : string
}.

Record RegisterResponse := mkRegisterResponse {
  g_code : Z;
  g_success : bool;
  g_message : string;
  g_data : option RegisteredData
}.

(** The [catch] block of [registerCustomer]. *)
Definition register_failed (error : CreateError) : RegisterResponse :=
  match error with
  | DuplicateKey => mkRegisterResponse 409 false "Customer ID conflict. Please try again." None
  | ValidationError => mkRegisterResponse 500 false "Failed to register customer" None
  end.

Section Registration.

Variable JSON_stringify : json -> string.
Variable QRCode_toDataURL : string -> option string.
Variable PREFIX : string.
Variable START_NUMBER : Z.

(** [registerCustomer]; [timestamp] is the clock [generateQRCode] reads,
    [now] the default [enteredAt] of the new slot. *)
Definition registerCustomer (w : World) (body : RegisterBody) (timestamp : string)
           (now : Time) : RegisterResponse * World :=
  let missing :=
    (mkRegisterResponse 400 false "Please provide name, phone, and cart total" None, w) in
  match body_name body, body_phone body, body_cartTotal body with
  | Some name, Some phone, Some cartTotal =>
      if String.eqb name "" || String.eqb phone "" then missing
      else if negb (phone_format phone) then
        (mkRegisterResponse 400 false "Phone number must be exactly 10 digits" None, w)
      else if negb (Qle_bool 0 cartTotal) then
        (mkRegisterResponse 400 false "Cart total cannot be negative" None, w)
      else
        let customerId := generateCustomerId PREFIX START_NUMBER (customers w) in
        let queueNumber := Customer.getNextQueueNumber (customers w) in
        match generateQRCode JSON_stringify QRCode_toDataURL customerId queueNumber
                             timestamp with
        | inr _ => (mkRegisterResponse 500 false "Failed to register customer" None, w)
        | inl qrCode =>
            match Customer.create_validated
                    (Customer.mk customerId name phone cartTotal queueNumber qrCode
                                 WAITING None None) (customers w) with
            | inr error => (register_failed error, w)
            | inl (customer, stored) =>
                match Queue.create_validated (Queue.mk queueNumber customerId ACTIVE now None)
                                             (queues w) with
                | inr error => (register_failed error, mkWorld stored (queues w))
                | inl slots =>
                    let position := calculateQueuePosition queueNumber slots in
                    let estimatedWaitTime := getEstimatedWaitTime position in
                    (mkRegisterResponse 201 true "Customer registered successfully"
                       (Some (mkRegisteredData
                                (Customer.customerId customer) (Customer.name customer)
                                (Customer.phone customer) (Customer.cartTotal customer)
                                (Customer.queueNumber customer) (Customer.qrCode customer)
                                (Customer.status customer) position
                                (Number_toString estimatedWaitTime ++ " minutes"))),
                     mkWorld stored slots)
                end
            end
        end
  | _, _, _ => missing
  end.

(** *** [registerCustomer] between its [await]s

    As for [verifyQRCode]: a request in flight is what it waits for, and
    one step of a request is the operation it awaits together with the
    synchronous code that runs on the result, up to the next [await].
    [timestamp] and [now] are the clock as that code reads it:
    [new Date().toISOString()] when [generateQRCode] is called, the default
    [enteredAt] when the slot is made.  Other requests may take steps in
    between. *)

Inductive RegisterRequest :=
| RegisterReceived (body : RegisterBody)
| AwaitGenerateCustomerId (name phone : string) (cartTotal : Q)
| AwaitGetNextQueueNumber (name phone : string) (cartTotal : Q) (customerId : string)
| AwaitGenerateQRCode (name phone : string) (cartTotal : Q) (customerId : string)
                      (queueNumber : Z) (timestamp : string)
| AwaitCustomerCreate (document : Customer.doc)
| AwaitQueueCreate (customer : Customer.doc) (slot : Queue.doc)
| AwaitCalculateQueuePosition (customer : Customer.doc) (queueNumber : Z)
| RegisterResponded (response : RegisterResponse).

Definition register_step (timestamp : string) (now : Time) (w : World) (r : RegisterRequest)
  : World * RegisterRequest :=
  match r with
  | RegisterReceived body =>
      let missing :=
        (w, RegisterResponded
              (mkRegisterResponse 400 false "Please provide name, phone, and cart total"
                                  None)) in
      match body_name body, body_phone body, body_cartTotal body with
      | Some name, Some phone, Some cartTotal =>
          if String.eqb name "" || String.eqb phone "" then missing
          else if negb (phone_format phone) then
            (w, RegisterResponded
                  (mkRegisterResponse 400 false "Phone number must be exactly 10 digits" None))
          else if negb (Qle_bool 0 cartTotal) then
            (w, RegisterResponded
                  (mkRegisterResponse 400 false "Cart total cannot be negative" None))
          else (w, AwaitGenerateCustomerId name phone cartTotal)
      | _, _, _ => missing
      end
  | AwaitGenerateCustomerId name phone cartTotal =>
      (w, AwaitGetNextQueueNumber name phone cartTotal
            (generateCustomerId PREFIX START_NUMBER (customers w)))
  | AwaitGetNextQueueNumber name phone cartTotal customerId =>
      (w, AwaitGenerateQRCode name phone cartTotal customerId
            (Customer.getNextQueueNumber (customers w)) timestamp)
  | AwaitGenerateQRCode name phone cartTotal customerId queueNumber stamp =>
      match generateQRCode JSON_stringify QRCode_toDataURL customerId queueNumber stamp with
      | inr _ =>
          (w, RegisterResponded
                (mkRegisterResponse 500 false "Failed to register customer" None))
      | inl qrCode =>
          (w, AwaitCustomerCreate
                (Customer.mk customerId name phone cartTotal queueNumber qrCode
                             WAITING None None))
      end
  | AwaitCustomerCreate document =>
      match Customer.create_validated document (customers w) with
      | inr error => (w, RegisterResponded (register_failed error))
      | inl (customer, stored) =>
          (mkWorld stored (queues w),
           AwaitQueueCreate customer
             (Queue.mk (Customer.queueNumber document) (Customer.customerId document)
                       ACTIVE now None))
      end
  | AwaitQueueCreate customer slot =>
      match Queue.create_validated slot (queues w) with
      | inr error => (w, RegisterResponded (register_failed error))
      | inl slots =>
          (mkWorld (customers w) slots,
           AwaitCalculateQueuePosition customer (Queue.queueNumber slot))
      end
  | AwaitCalculateQueuePosition customer queueNumber =>
      let position := calculateQueuePosition queueNumber (queues w) in
      let estimatedWaitTime := getEstimatedWaitTime position in
      (w, RegisterResponded
            (mkRegisterResponse 201 true "Customer registered successfully"
               (Some (mkRegisteredData
                        (Customer.customerId customer) (Customer.name customer)
                        (Customer.phone customer) (Customer.cartTotal customer)
                        (Customer.queueNumber customer) (Customer.qrCode customer)
                        (Customer.status customer) position
                        (Number_toString estimatedWaitTime ++ " minutes")))))
  | RegisterResponded response => (w, RegisterResponded response)
  end.

(** The database and the registrations in flight. *)
Definition RegisterSystem : Type := World * list RegisterRequest.

(** The registration numbered [k] takes its next step; the event carries
    the two readings of the clock. *)
Definition register_system_step (s : RegisterSystem) (ev : nat * (string * Time))
  : RegisterSystem :=
  match snd s !! fst ev with
  | Some r =>
      let '(w, r') := register_step (fst (snd ev)) (snd (snd ev)) (fst s) r in
      (w, <[fst ev := r']> (snd s))
  | None => s
  end.

(** A schedule: which registration runs next, and the clock it reads. *)
Definition register_run (schedule : list (nat * (string * Time))) (s : RegisterSystem)
  : RegisterSystem :=
  fold_left register_system_step schedule s.

(** One registration run alone: its seven steps with no other in
    between. *)
Definition registration_alone (k : nat) (timestamp : string) (now : Time)
  : list (nat * (string * Time)) :=
  replicate 7 (k, (timestamp, now)).

End Registration.

(** The queue number a caller receives: the [queueNumber] of the [data] of
    the 201 response to registration [k], once it has one. *)
Definition received (s : RegisterSystem) (k : nat) : option Z :=
  match snd s !! k with
  | Some (RegisterResponded response) => rd_queueNumber <$> g_data response
  | _ => None
  end.

(** *** controllers/verificationController.js: [bulkVerifyQRCodes] *)

Inductive BulkReason := INVALID_STATUS | NOT_FOUND.

(** One element of [results]. *)
Inductive BulkResult :=
| BulkSuccess (customerId : string)
| BulkFailed (customerId : option json) (reason : BulkReason)
| BulkError (error : string).

Record BulkResponse := mkBulkResponse {
  k_code : Z;
  k_success : bool;
  k_message : option string;
  k_data : list BulkResult;
  k_total : Z;
  k_successful : Z;
  k_failed : Z
}.

Definition is_BulkSuccess (r : BulkResult) : bool :=
  match r with BulkSuccess _ => true | _ => false end.

Definition is_BulkFailed (r : BulkResult) : bool :=
  match r with BulkFailed _ _ => true | _ => false end.

Section Bulk.

Variable JSON_parse : string -> option json.

(** The body of the loop of [bulkVerifyQRCodes] for one element; [now] is
    the clock read by [markAsVerified]. *)
Definition bulk_verify_one (now : Time) (c : Customer.collection) (qrData : string)
  : BulkResult * Customer.collection :=
  match (let! decodedData := decodeQRData JSON_parse qrData in
         get_property decodedData "customerId") with
  | inr error => (BulkError (message_of error), c)
  | inl customerId =>
      match Customer.findOne_value customerId c with
      | Some (i, customer) =>
          if bool_decide (Customer.status customer = BILLED) then
            let customer := Customer.markAsVerified now customer in
            (BulkSuccess (Customer.customerId customer),
             Customer.save_verified i customer c)
          else (BulkFailed customerId INVALID_STATUS, c)
      | None => (BulkFailed customerId NOT_FOUND, c)
      end
  end.

(** The loop from the element numbered [k] on; [clock k] is the time at
    which element [k] is handled. *)
Fixpoint bulk_verify_from (clock : nat -> Time) (k : nat) (c : Customer.collection)
         (qrDataArray : list string) : list BulkResult * Customer.collection :=
  match qrDataArray with
  | [] => ([], c)
  | qrData :: rest =>
      let '(result, c1) := bulk_verify_one (clock k) c qrData in
      let '(results, c2) := bulk_verify_from clock (S k) c1 rest in
      (result :: results, c2)
  end.

(** [bulkVerifyQRCodes]; [None] is a body whose [qrDataArray] is not an
    array. *)
Definition bulkVerifyQRCodes (w : World) (qrDataArray : option (list string))
           (clock : nat -> Time) : BulkResponse * World :=
  match qrDataArray with
  | None | Some [] =>
      (mkBulkResponse 400 false (Some "QR data array is required") [] 0 0 0, w)
  | Some qrDataArray =>
      let '(results, c) := bulk_verify_from clock 0 (customers w) qrDataArray in
      (mkBulkResponse 200 true None results
                      (Z.of_nat (length results))
                      (Z.of_nat (length (filter (fun r => is_BulkSuccess r = true) results)))
                      (Z.of_nat (length (filter (fun r => is_BulkFailed r = true) results))),
       mkWorld c (queues w))
  end.

(** *** Requests that change the status of a customer *)

Inductive Request :=
| PostBillingComplete (customerId : string) (now : Time)
| PostBillingUndo (customerId : string)
| PostVerifyQr (qrData : option string) (t_verified t_completed : Time)
| PostVerifyBulk (qrDataArray : option (list string)) (clock : nat -> Time).

(** The database after one request has been handled. *)
Definition handle (w : World) (r : Request) : World :=
  match r with
  | PostBillingComplete customerId now => snd (completeBilling w customerId now)
  | PostBillingUndo customerId => snd (undoBilling w customerId)
  | PostVerifyQr qrData t_verified t_completed =>
      snd (verifyQRCode JSON_parse w qrData t_verified t_completed)
  | PostVerifyBulk qrDataArray clock => snd (bulkVerifyQRCodes w qrDataArray clock)
  end.

(** Requests handled one after the other. *)
Definition handle_all (rs : list Request) (w : World) : World :=
  fold_left handle rs w.

End Bulk.

(** ** Vocabulary of the specification *)

(** The [customerId] of a parsed payload, when it is a string. *)
Definition identifier_of (decodedData : json) : option string :=
  match decodedData with
  | JObj fields =>
      match own_property "customerId" fields with
      | Some (JStr id) => Some id
      | _ => None
      end
  | _ => None
  end.

(** The [queueNumber] of a parsed payload, when it is a number. *)
Definition position_of (decodedData : json) : option Q :=
  match decodedData with
  | JObj fields =>
      match own_property "queueNumber" fields with
      | Some (JNum q) => Some q
      | _ => None
      end
  | _ => None
  end.

(** The identifier and the number a decoded payload carries. *)
Definition credential (decodedData : json) : option (string * Q) :=
  match identifier_of decodedData, position_of decodedData with
  | Some id, Some q => Some (id, q)
  | _, _ => None
  end.

(** A parsed payload passes the checks of [decodeQRData]: an identifier of
    the form [SM-<digits>] and a number that is at least 1. *)
Definition well_formed_credential (decodedData : json) : Prop :=
  exists id q, credential decodedData = Some (id, q)
               /\ customerId_format id = true /\ (1 <= q)%Q.

(** The one error [decodeQRData] lets out. *)
Definition invalid_qr_code_format : Thrown := Error "Invalid QR code format".

(** Status WAITING or BILLED. *)
Definition active (d : Customer.doc) : Prop :=
  Customer.status d = WAITING \/ Customer.status d = BILLED.

(** [d] is active and holds a smaller queue number than [c]. *)
Definition ahead_of (c d : Customer.doc) : Prop :=
  active d /\ Customer.queueNumber d < Customer.queueNumber c.

#[global] Instance active_dec d : Decision (active d).
Proof. unfold active. apply _. Defined.

#[global] Instance ahead_of_dec c d : Decision (ahead_of c d).
Proof. unfold ahead_of. apply _. Defined.

(** One step in the life of a customer document: billed, billing undone,
    verified. *)
Inductive transition : Customer.doc -> Customer.doc -> Prop :=
| billed_at d t :
    Customer.status d = WAITING -> transition d (Customer.markAsBilled t d)
| billing_undone d :
    Customer.status d = BILLED ->
    transition d (Customer.set_billedAt None (Customer.set_status WAITING d))
| verified_at d t :
    Customer.status d = BILLED -> transition d (Customer.markAsVerified t d).

(** The time stamps a document carries fit its status: none while
    WAITING, [billedAt] once BILLED, both once VERIFIED. *)
Definition timestamps_follow_status (d : Customer.doc) : Prop :=
  match Customer.status d with
  | WAITING => Customer.billedAt d = None /\ Customer.verifiedAt d = None
  | BILLED => Customer.billedAt d <> None /\ Customer.verifiedAt d = None
  | VERIFIED => Customer.billedAt d <> None /\ Customer.verifiedAt d <> None
  end.

(** The identifiers have the form [SM-<digits>] and their numbers grow in
    the order in which the customers were created. *)
Definition ids_in_creation_order (c : Customer.collection) : Prop :=
  exists numbers,
    extractCustomerNumber <$> (Customer.customerId <$> c) = Some <$> numbers
    /\ StronglySorted Z.lt numbers
    /\ Forall (fun n => 0 <= n) numbers.

(** The database as registrations that do not overlap leave it:
    identifiers in the order of creation, queue numbers from 1 on, and one
    slot per customer, in the same order, with the customer's identifier
    and queue number. *)
Definition kept_in_step (w : World) : Prop :=
  ids_in_creation_order (customers w)
  /\ Forall (fun d => 1 <= Customer.queueNumber d) (customers w)
  /\ Forall2 (fun d s => Queue.customerId s = Customer.customerId d
                         /\ Queue.queueNumber s = Customer.queueNumber d)
             (customers w) (queues w).

(** The slot [s] mirrors the entry [c]: same queue number, and ACTIVE
    exactly when the entry is WAITING or BILLED. *)
Definition slot_mirrors (c : Customer.doc) (s : Queue.doc) : Prop :=
  Queue.queueNumber s = Customer.queueNumber c
  /\ (Queue.status s = ACTIVE <-> active c).

(** The responses to the same payload presented once per clock reading in
    [times], each request finished before the next begins, and the database
    they leave. *)
Fixpoint scan_repeatedly (JSON_parse : string -> option json) (w : World)
         (payload : string) (times : list (Time * Time)) : list VerifyResponse * World :=
  match times with
  | [] => ([], w)
  | (t1, t2) :: times' =>
      let '(response, w1) := verifyQRCode JSON_parse w (Some payload) t1 t2 in
      let '(responses, w2) := scan_repeatedly JSON_parse w1 payload times' in
      (response :: responses, w2)
  end.

(** The specification's reading of decode errors: three different errors,
    one per cause. *)
Definition decode_errors_distinct (JSON_parse : string -> option json) : Prop :=
  exists malformedPayload invalidIdentifierFormat invalidPosition : Thrown,
    malformedPayload <> invalidIdentifierFormat
    /\ malformedPayload <> invalidPosition
    /\ invalidIdentifierFormat <> invalidPosition
    /\ forall qrData,
        (JSON_parse qrData = None ->
         decodeQRData JSON_parse qrData = inr malformedPayload)
        /\ (forall v id q,
               JSON_parse qrData = Some v ->
               identifier_of v = Some id -> customerId_format id = false ->
               position_of v = Some q -> (1 <= q)%Q ->
               decodeQRData JSON_parse qrData = inr invalidIdentifierFormat)
        /\ (forall v id q,
               JSON_parse qrData = Some v ->
               identifier_of v = Some id -> customerId_format id = true ->
               position_of v = Some q -> (q < 1)%Q ->
               decodeQRData JSON_parse qrData = inr invalidPosition).

(** The specification's reading of "do not leak whether an id exists": a
    payload that fails to decode and a payload whose identifier is not in
    the store get the same response. *)
Definition unknown_id_looks_like_decode_failure (JSON_parse : string -> option json) : Prop :=
  forall w bad good decodedData id q t1 t2,
    bad <> "" -> good <> "" ->
    (exists e, decodeQRData JSON_parse bad = inr e) ->
    decodeQRData JSON_parse good = inl decodedData ->
    credential decodedData = Some (id, q) ->
    Customer.findOne id (customers w) = None ->
    fst (verifyQRCode JSON_parse w (Some bad) t1 t2)
    = fst (verifyQRCode JSON_parse w (Some good) t1 t2).

(** What a registration in flight has read and not yet stored: the
    identifier, and the queue number once it has one. *)
Definition reads (r : RegisterRequest) : option (string * option Z) :=
  match r with
  | AwaitGetNextQueueNumber _ _ _ customerId => Some (customerId, None)
  | AwaitGenerateQRCode _ _ _ customerId queueNumber _ =>
      Some (customerId, Some queueNumber)
  | AwaitCustomerCreate document =>
      Some (Customer.customerId document, Some (Customer.queueNumber document))
  | _ => None
  end.

(** The identifier and the queue number of the customer a registration has
    stored, as the request holds them and as its 201 response reports
    them. *)
Definition registered (r : RegisterRequest) : option (string * Z) :=
  match r with
  | AwaitQueueCreate customer _ | AwaitCalculateQueuePosition customer _ =>
      Some (Customer.customerId customer, Customer.queueNumber customer)
  | RegisterResponded response =>
      (fun data => (rd_customerId data, rd_queueNumber data)) <$> g_data response
  | _ => None
  end.

(** What a registration has read and not yet stored is still current if no
    stored customer holds the identifier: the identifier is the one
    [generate] gives now, the queue number the one [getNextQueueNumber]
    gives now. *)
Definition reads_current (generate : Customer.collection -> string)
           (c : Customer.collection) (r : RegisterRequest) : Prop :=
  forall id n, reads r = Some (id, n) -> Customer.findOne id c = None ->
    id = generate c /\ forall q, n = Some q -> q = Customer.getNextQueueNumber c.

(** The customer a registration has stored is among [added]. *)
Definition stored_among (added : Customer.collection) (r : RegisterRequest) : Prop :=
  forall id n, registered r = Some (id, n) ->
    exists d, d ∈ added /\ Customer.customerId d = id /\ Customer.queueNumber d = n.

(** The state of overlapping registrations that began on the collection
    [c0]: the customers stored since then carry queue numbers that grow in
    the order of storing and exceed those of [c0]; what the requests in
    flight hold is current or stored, and no two requests have stored the
    same identifier. *)
Definition registrations_in_order (generate : Customer.collection -> string)
           (c0 : Customer.collection) (s : RegisterSystem) : Prop :=
  exists added,
    customers (fst s) = (c0 ++ added)%list
    /\ StronglySorted Z.lt (Customer.queueNumber <$> added)
    /\ (forall d x, d ∈ added -> x ∈ c0 -> Customer.queueNumber x < Customer.queueNumber d)
    /\ Forall (fun r => reads_current generate (customers (fst s)) r /\ stored_among added r)
              (snd s)
    /\ (forall j k rj rk idj nj idk nk,
          j <> k -> snd s !! j = Some rj -> snd s !! k = Some rk ->
          registered rj = Some (idj, nj) -> registered rk = Some (idk, nk) -> idj <> idk).

(** Text of ASCII characters only. *)
Definition ascii_text (s : string) : Prop :=
  Forall (fun c => (nat_of_ascii c < 128)%nat) (list_ascii_of_string s).

(** Every stored identifier [SM-<digits>] spells a number below
    [MAX_SAFE_INTEGER]: its successor is a safe integer.  *)
Definition identifiers_safe (c : Customer.collection) : Prop :=
  Forall (fun d => forall n, extractCustomerNumber (Customer.customerId d) = Some n ->
                             n < MAX_SAFE_INTEGER) c.

(** Every stored queue number is below [MAX_SAFE_INTEGER]. *)
Definition queue_numbers_safe (c : Customer.collection) : Prop :=
  Forall (fun d => Customer.queueNumber d < MAX_SAFE_INTEGER) c.

(** The specification's reading of the allocator: whatever registrations,
    deletions and resets run, the numbers handed out strictly increase. *)
Definition issued_strictly_increasing : Prop :=
  forall ops, StronglySorted Z.lt (issued ops []).

(** *** Sample data (the demo customers of the seed script) *)

Definition amit (s : Status) (billedAt verifiedAt : option Time) : Customer.doc :=
  Customer.mk "SM-1001" "Amit Verma" "9876543210" 1350 1 "data:image/png;base64,AAAA"
              s billedAt verifiedAt.

Definition neha (s : Status) (billedAt verifiedAt : option Time) : Customer.doc :=
  Customer.mk "SM-1002" "Neha Gupta" "9876543211" 2899 2 "data:image/png;base64,BBBB"
              s billedAt verifiedAt.

Definition slot (n : Z) (id : string) (s : QueueStatus) (completedAt : option Time) : Queue.doc :=
  Queue.mk n id s 0 completedAt.

(** Amit has been billed and stands at the exit; Neha is still waiting. *)
Definition world_billed : World :=
  mkWorld [amit BILLED (Some 500) None; neha WAITING None None]
          [slot 1 "SM-1001" ACTIVE None; slot 2 "SM-1002" ACTIVE None].

(** Amit has left through the exit at time 1000. *)
Definition world_verified : World :=
  mkWorld [amit VERIFIED (Some 500) (Some 1000); neha WAITING None None]
          [slot 1 "SM-1001" COMPLETED (Some 1000); slot 2 "SM-1002" ACTIVE None].

(** The text of Amit's QR code. *)
Definition amit_payload : string :=
  qrPayload JSONText.stringify "SM-1001" 1 "2026-01-24T10:30:00.000Z".

(** A well-formed QR text for an identifier that nobody holds. *)
Definition stranger_payload : string :=
  qrPayload JSONText.stringify "SM-9999" 7 "2026-01-24T11:00:00.000Z".

(** Two scans of Amit's code, each request taking one step in turn. *)
Definition two_scans_in_turn : list (nat * Time) :=
  [(0%nat, 1000); (1%nat, 1000); (0%nat, 1001); (1%nat, 1002); (0%nat, 1003);
   (1%nat, 1004); (0%nat, 1005); (1%nat, 1006); (0%nat, 1007); (1%nat, 1008)].

Definition amit_registration : Registration :=
  mkRegistration "SM-1001" "Amit Verma" "9876543210" 1350 "data:image/png;base64,AAAA".

(** Neha registers when the collection is empty again: [generateCustomerId]
    starts over at [SM-1001]. *)
Definition neha_registration : Registration :=
  mkRegistration "SM-1001" "Neha Gupta" "9876543211" 2899 "data:image/png;base64,BBBB".

(** The text of Neha's QR code. *)
Definition neha_payload : string :=
  qrPayload JSONText.stringify "SM-1002" 2 "2026-01-24T10:31:00.000Z".

(** A QR text that names Amit but carries queue number 7. *)
Definition mismatched_payload : string :=
  qrPayload JSONText.stringify "SM-1001" 7 "2026-01-24T10:30:00.000Z".

(** A stand-in for [QRCode.toDataURL]: the payload behind a data-URL
    header. *)
Definition sample_toDataURL (payload : string) : option string :=
  Some ("data:image/png;base64," ++ payload).

(** The body of Amit's registration request. *)
Definition amit_body : RegisterBody :=
  mkRegisterBody (Some "Amit Verma") (Some "9876543210") (Some 1350%Q).

(** The bodies of two more registration requests. *)
Definition rahul_body : RegisterBody :=
  mkRegisterBody (Some "Rahul Mehta") (Some "9876543212") (Some 560%Q).

Definition pooja_body : RegisterBody :=
  mkRegisterBody (Some "Pooja Singh") (Some "9876543213") (Some 4200%Q).

(** Two registrations that overlap completely: each takes its first step,
    then each its second, and so on to the seventh. *)
Definition two_registrations_in_lockstep : list (nat * (string * Time)) :=
  concat (replicate 7 [(0%nat, ("2026-01-24T10:32:00.000Z", 2000));
                       (1%nat, ("2026-01-24T10:32:00.001Z", 2001))]).

(** The database before anybody has registered. *)
Definition empty_world : World := mkWorld [] [].

(** Requests that all concern Amit: billing, undo, a scan and a bulk scan. *)
Definition requests_about_amit : list (Request) :=
  [PostBillingComplete "SM-1001" 2000; PostBillingUndo "SM-1001";
   PostVerifyQr (Some amit_payload) 3000 3005;
   PostVerifyBulk (Some [amit_payload]) (fun _ => 4000)].
Section Properties.

Variable JSON_parse : string -> option json.

Lemma customerId_format_nonempty id :
  customerId_format id = true -> String.eqb id "" = false.
Proof. destruct id; [discriminate | reflexivity]. Qed.

Lemma at_least_one_nonzero q : (1 <= q)%Q -> Qeq_bool q 0 = false.
Proof.
  intros H. destruct (Qeq_bool q 0) eqn:E; [|reflexivity].
  apply Qeq_bool_eq in E. rewrite E in H. exfalso. revert H. apply Qlt_not_le. reflexivity.
Qed.

Lemma not_number_or_below_one_false v :
  not_number_or_below_one v = false <-> exists q, v = Some (JNum q) /\ (1 <= q)%Q.
Proof.
  unfold not_number_or_below_one. split.
  - destruct v as [[]|]; try discriminate. destruct (Qlt_le_dec q 1); [discriminate|]. eauto.
  - intros (q & -> & Hq). destruct (Qlt_le_dec q 1) as [Hlt|]; [|reflexivity].
    exfalso. revert Hq. apply Qlt_not_le. exact Hlt.
Qed.

Lemma decodeQRData_error qrData e :
  decodeQRData JSON_parse qrData = inr e -> e = invalid_qr_code_format.
Proof.
  unfold decodeQRData, try_catch_rethrow.
  destruct (decodeQRData_try JSON_parse qrData); [discriminate|]. now intros [= <-].
Qed.

Lemma decodeQRData_try_ok qrData v :
  decodeQRData_try JSON_parse qrData = inl v
  <-> JSON_parse qrData = Some v /\ well_formed_credential v.
Proof.
  unfold decodeQRData_try, well_formed_credential, credential, identifier_of, position_of,
    bind, ret, throw.
  destruct (JSON_parse qrData) as [p|]; [|split; [discriminate | intros [[=] _]]].
  split.
  - destruct p; simpl; try discriminate.
    destruct (own_property "customerId" fields) as [[| | |id| |]|] eqn:Hc; simpl;
      try discriminate;
      try (destruct b; simpl; [|discriminate]);
      try (destruct (negb (Qeq_bool q 0)); simpl; [|discriminate]);
      try (destruct (truthy (own_property "queueNumber" fields)); simpl; discriminate).
    destruct (negb (String.eqb id "")); simpl; [|discriminate].
    destruct (truthy (own_property "queueNumber" fields)); simpl; [|discriminate].
    destruct (customerId_format id) eqn:Hid; simpl; [|discriminate].
    destruct (not_number_or_below_one (own_property "queueNumber" fields)) eqn:Hq;
      [discriminate|].
    apply not_number_or_below_one_false in Hq as (q & Hq & Hq1).
    intros [= <-]. split; [reflexivity|]. exists id, q. rewrite Hc, Hq. auto.
  - intros ([= ->] & id & q & Hcred & Hid & Hq).
    destruct v; try discriminate. simpl.
    destruct (own_property "customerId" fields) as [[| | |id'| |]|]; try discriminate.
    destruct (own_property "queueNumber" fields) as [[| |q'| | |]|] eqn:Hqn; try discriminate.
    injection Hcred as -> ->. simpl.
    rewrite (customerId_format_nonempty _ Hid), (at_least_one_nonzero _ Hq). simpl.
    rewrite Hid. simpl.
    destruct (Qlt_le_dec q 1) as [Hlt|]; [|reflexivity].
    exfalso. revert Hq. apply Qlt_not_le. exact Hlt.
Qed.

Lemma decodeQRData_ok qrData v :
  decodeQRData JSON_parse qrData = inl v
  <-> JSON_parse qrData = Some v /\ well_formed_credential v.
Proof.
  rewrite <- decodeQRData_try_ok. unfold decodeQRData, try_catch_rethrow.
  destruct (decodeQRData_try JSON_parse qrData); split; congruence.
Qed.

Lemma decodeQRData_fails qrData :
  (forall v, JSON_parse qrData = Some v -> ~ well_formed_credential v) ->
  decodeQRData JSON_parse qrData = inr invalid_qr_code_format.
Proof.
  intros H. destruct (decodeQRData JSON_parse qrData) as [v|e] eqn:E.
  - apply decodeQRData_ok in E as [Hp Hw]. destruct (H v Hp Hw).
  - f_equal. eapply decodeQRData_error, E.
Qed.

(** C7, as amended.  For every payload, [decodeQRData] fails when the text
    cannot be parsed, when the parsed [customerId] is not a string of the
    form [SM-<digits>], and when the parsed [queueNumber] is not a number or
    is below 1.  Every failure is the same error, "Invalid QR code format":
    the cause is logged and not reported.  A success returns the parsed
    value, which then passed all the checks.  [decodeQRData] takes the
    payload and nothing else: it has no access to the store. *)
Theorem decode_failures_share_one_error qrData :
  (JSON_parse qrData = None ->
   decodeQRData JSON_parse qrData = inr invalid_qr_code_format)
  /\ (forall v, JSON_parse qrData = Some v ->
                (forall id, identifier_of v = Some id -> customerId_format id = false) ->
                decodeQRData JSON_parse qrData = inr invalid_qr_code_format)
  /\ (forall v, JSON_parse qrData = Some v ->
                (forall q, position_of v = Some q -> (q < 1)%Q) ->
                decodeQRData JSON_parse qrData = inr invalid_qr_code_format)
  /\ (forall e, decodeQRData JSON_parse qrData = inr e -> e = invalid_qr_code_format)
  /\ (forall v, decodeQRData JSON_parse qrData = inl v ->
                JSON_parse qrData = Some v /\ well_formed_credential v).
Proof.
  repeat split.
  - intros Hp. apply decodeQRData_fails. intros v Hv. congruence.
  - intros v Hp Hid. apply decodeQRData_fails. intros v' Hv' (id & q & Hc & Hf & _).
    assert (v' = v) as -> by congruence.
    unfold credential in Hc. destruct (identifier_of v) as [id'|] eqn:E; [|discriminate].
    destruct (position_of v); [|discriminate]. injection Hc as -> _.
    rewrite (Hid id eq_refl) in Hf. discriminate.
  - intros v Hp Hq. apply decodeQRData_fails. intros v' Hv' (id & q & Hc & _ & Hge).
    assert (v' = v) as -> by congruence.
    unfold credential in Hc. destruct (identifier_of v); [|discriminate].
    destruct (position_of v) as [q'|] eqn:E; [|discriminate]. injection Hc as _ ->.
    specialize (Hq q eq_refl). revert Hge. apply Qlt_not_le. exact Hq.
  - apply decodeQRData_error.
  - apply decodeQRData_ok; assumption.
  - apply decodeQRData_ok in H. apply H.
Qed.

(** C6.  For every identifier [id] of the form [SM-<digits>], every integer
    [pos >= 1] and every timestamp, decoding the payload that
    [generateQRCode] builds from them returns the object that was encoded:
    its [customerId] is [id], its [queueNumber] is [pos], its [timestamp] is
    the timestamp, and it has these three fields and no other.  The
    hypothesis on [JSON_parse] and [JSON_stringify] is the contract of the
    runtime: parsing the text of this object gives the object back. *)
Theorem decode_encode_roundtrip (JSON_stringify : json -> string) id pos timestamp :
  customerId_format id = true ->
  1 <= pos ->
  JSON_parse (JSON_stringify (qrPayloadObject id pos timestamp))
  = Some (qrPayloadObject id pos timestamp) ->
  decodeQRData JSON_parse (qrPayload JSON_stringify id pos timestamp)
  = inl (qrPayloadObject id pos timestamp)
  /\ get_property (qrPayloadObject id pos timestamp) "customerId" = inl (Some (JStr id))
  /\ get_property (qrPayloadObject id pos timestamp) "queueNumber"
     = inl (Some (JNum (inject_Z pos)))
  /\ get_property (qrPayloadObject id pos timestamp) "timestamp"
     = inl (Some (JStr timestamp))
  /\ exists a b c, qrPayloadObject id pos timestamp
                   = JObj [("customerId", a); ("queueNumber", b); ("timestamp", c)].
Proof.
  intros Hid Hpos Hjson. split; [|repeat split; eauto].
  apply decodeQRData_ok. split; [exact Hjson|].
  exists id, (inject_Z pos). repeat split; [exact Hid|].
  change 1%Q with (inject_Z 1). rewrite <- Zle_Qle. exact Hpos.
Qed.


(** *** Facts about [findOne] and [save] *)

Lemma findOne_Some id c i d :
  Customer.findOne id c = Some (i, d) -> c !! i = Some d /\ Customer.customerId d = id.
Proof.
  unfold Customer.findOne. intros H. apply list_find_Some in H as (H1 & H2 & _). auto.
Qed.

Lemma findOne_alter (f : Customer.doc -> Customer.doc) id c i d :
  (forall x, Customer.customerId (f x) = Customer.customerId x) ->
  Customer.findOne id c = Some (i, d) ->
  Customer.findOne id (alter f i c) = Some (i, f d).
Proof.
  intros Hf. unfold Customer.findOne. revert i.
  induction c as [|x c IH]; intros i H; [discriminate|].
  cbn in H. destruct (decide (Customer.customerId x = id)) as [Hx|Hx].
  - injection H as <- <-. cbn. rewrite decide_True by (rewrite Hf; exact Hx). reflexivity.
  - destruct (list_find (fun d0 => Customer.customerId d0 = id) c) as [[k y]|] eqn:E;
      [|discriminate].
    cbn in H. injection H as <- <-. cbn. rewrite decide_False by exact Hx.
    rewrite (IH k eq_refl). reflexivity.
Qed.

Lemma save_verified_lookup i d c t :
  c !! i = Some d ->
  Customer.save_verified i (Customer.markAsVerified t d) c !! i
  = Some (Customer.markAsVerified t d).
Proof.
  intros H. unfold Customer.save_verified. rewrite list_lookup_alter_eq, H. reflexivity.
Qed.

Lemma save_billed_lookup i d c t :
  c !! i = Some d ->
  Customer.save_billed i (Customer.markAsBilled t d) c !! i
  = Some (Customer.markAsBilled t d).
Proof.
  intros H. unfold Customer.save_billed. rewrite list_lookup_alter_eq, H. reflexivity.
Qed.

Lemma qrData_present payload : payload <> "" -> qrData_missing (Some payload) = false.
Proof. intros H. simpl. apply String.eqb_neq. exact H. Qed.

Lemma credential_properties d id q :
  credential d = Some (id, q) ->
  get_property d "customerId" = inl (Some (JStr id))
  /\ get_property d "queueNumber" = inl (Some (JNum q)).
Proof.
  unfold credential, identifier_of, position_of. destruct d; try discriminate.
  simpl. destruct (own_property "customerId" fields) as [[]|]; try discriminate.
  destruct (own_property "queueNumber" fields) as [[]|]; try discriminate.
  intros [= -> ->]. auto.
Qed.

Lemma strict_neq_number_false n q :
  (inject_Z n == q)%Q -> strict_neq_number n (Some (JNum q)) = false.
Proof. intros H. simpl. apply Qeq_eq_bool in H. rewrite H. reflexivity. Qed.

(** [verifyQRCode] on a payload that decodes: what is left is the lookup,
    the checks and the two saves. *)
Lemma verifyQRCode_decoded w payload d id q t1 t2 :
  payload <> "" ->
  decodeQRData JSON_parse payload = inl d ->
  credential d = Some (id, q) ->
  verifyQRCode JSON_parse w (Some payload) t1 t2 =
  match Customer.findOne id (customers w) with
  | None => (res_not_found, w)
  | Some (i, customer) =>
      match verify_checks customer (Some (JNum q)) with
      | Some response => (response, w)
      | None =>
          let customer := Customer.markAsVerified t1 customer in
          let w := mkWorld (Customer.save_verified i customer (customers w)) (queues w) in
          match Queue.findOne_active (Customer.customerId customer) (queues w) with
          | Some (j, queueEntry) =>
              (res_verified customer,
               mkWorld (customers w)
                       (Queue.save_completed j (Queue.complete t2 queueEntry) (queues w)))
          | None => (res_verified customer, w)
          end
      end
  end.
Proof.
  intros Hne Hd Hc. unfold verifyQRCode.
  rewrite (qrData_present _ Hne). simpl default. rewrite Hd.
  destruct (credential_properties _ _ _ Hc) as [-> ->]. reflexivity.
Qed.

(** C2.  A verification that presents the matching credential of an entry
    whose status is VERIFIED is answered FAILED with reason DUPLICATE_SCAN;
    the response carries the [verifiedAt] of the earlier verification, and
    the database (the entry, every other entry, every queue slot) is left
    as it was. *)
Theorem verify_rejects_replay w payload d id q i customer t1 t2 :
  payload <> "" ->
  decodeQRData JSON_parse payload = inl d ->
  credential d = Some (id, q) ->
  Customer.findOne id (customers w) = Some (i, customer) ->
  (inject_Z (Customer.queueNumber customer) == q)%Q ->
  Customer.status customer = VERIFIED ->
  let (response, w') := verifyQRCode JSON_parse w (Some payload) t1 t2 in
  w' = w
  /\ v_success response = false
  /\ v_verification response = Some FAILED
  /\ v_reason response = Some DUPLICATE_SCAN
  /\ v_verifiedAt response = Some (Customer.verifiedAt customer).
Proof.
  intros Hne Hd Hc Hf Hq Hs.
  rewrite (verifyQRCode_decoded w payload d id q t1 t2 Hne Hd Hc), Hf.
  unfold verify_checks. rewrite (strict_neq_number_false _ _ Hq), Hs. simpl.
  repeat split.
Qed.

(** C9, as amended.  When the payload does not decode, [verifyQRCode]
    answers status 400, "Invalid QR code format", with no [verification] or
    [reason] field.  When the payload decodes and no entry has the decoded
    identifier, it answers status 404, FAILED with reason INVALID_QR.  The
    two responses differ, so the answer tells a caller whether a well-formed
    identifier is in the store.  Neither case changes the database. *)
Theorem unknown_id_is_told_apart w payload t1 t2 :
  payload <> "" ->
  ((exists e, decodeQRData JSON_parse payload = inr e) ->
   verifyQRCode JSON_parse w (Some payload) t1 t2
   = (res_invalid_format invalid_qr_code_format, w))
  /\ (forall d id q,
         decodeQRData JSON_parse payload = inl d ->
         credential d = Some (id, q) ->
         Customer.findOne id (customers w) = None ->
         verifyQRCode JSON_parse w (Some payload) t1 t2 = (res_not_found, w))
  /\ v_code (res_invalid_format invalid_qr_code_format) = 400
  /\ v_reason (res_invalid_format invalid_qr_code_format) = None
  /\ v_code res_not_found = 404
  /\ v_reason res_not_found = Some INVALID_QR
  /\ res_not_found <> res_invalid_format invalid_qr_code_format.
Proof.
  intros Hne. repeat split; try discriminate.
  - intros [e He]. unfold verifyQRCode. rewrite (qrData_present _ Hne). simpl default.
    rewrite He, (decodeQRData_error _ _ He). reflexivity.
  - intros d id q Hd Hc Hf.
    rewrite (verifyQRCode_decoded w payload d id q t1 t2 Hne Hd Hc), Hf. reflexivity.
Qed.

(** *** The request machine *)

(** Run alone, a request goes through its steps exactly as [verifyQRCode]
    describes. *)
Lemma verifyQRCode_alone w qrData t1 t2 :
  run JSON_parse (alone 0 t1 t2) (w, [Received qrData])
  = (snd (verifyQRCode JSON_parse w qrData t1 t2),
     [Responded (fst (verifyQRCode JSON_parse w qrData t1 t2))]).
Proof.
  unfold alone, run, verifyQRCode. cbn [fold_left].
  unfold system_step at 5. cbn [fst snd lookup list_lookup verify_step].
  destruct (qrData_missing qrData); [reflexivity|].
  destruct (decodeQRData JSON_parse (default "" qrData)) as [d|e]; [|reflexivity].
  destruct (let! customerId := get_property d "customerId" in
            let! queueNumber := get_property d "queueNumber" in
            ret (customerId, queueNumber)) as [[cid qn]|e]; [|reflexivity].
  unfold system_step at 4. cbn [fst snd lookup list_lookup insert list_insert verify_step].
  destruct (Customer.findOne_value cid (customers w)) as [[i customer]|]; [|reflexivity].
  destruct (verify_checks customer qn); [reflexivity|].
  unfold system_step at 3. cbn [fst snd lookup list_lookup insert list_insert verify_step].
  unfold system_step at 2.
  cbn [fst snd lookup list_lookup insert list_insert verify_step customers queues].
  destruct (Queue.findOne_active _ (queues w)) as [[j queueEntry]|]; reflexivity.
Qed.

Lemma run_cons ev schedule s :
  run JSON_parse (ev :: schedule) s = run JSON_parse schedule (system_step JSON_parse s ev).
Proof. reflexivity. Qed.

Lemma step_first w r0 r1 t :
  system_step JSON_parse (w, [r0; r1]) (0%nat, t)
  = (fst (verify_step JSON_parse t w r0), [snd (verify_step JSON_parse t w r0); r1]).
Proof.
  unfold system_step. cbn [fst snd lookup list_lookup].
  destruct (verify_step JSON_parse t w r0). reflexivity.
Qed.

Lemma step_second w r0 r1 t :
  system_step JSON_parse (w, [r0; r1]) (1%nat, t)
  = (fst (verify_step JSON_parse t w r1), [r0; snd (verify_step JSON_parse t w r1)]).
Proof.
  unfold system_step. cbn [fst snd lookup list_lookup].
  destruct (verify_step JSON_parse t w r1). reflexivity.
Qed.

Lemma verify_step_received w payload d id q t :
  payload <> "" ->
  decodeQRData JSON_parse payload = inl d ->
  credential d = Some (id, q) ->
  verify_step JSON_parse t w (Received (Some payload))
  = (w, AwaitCustomerFindOne (Some (JStr id)) (Some (JNum q))).
Proof.
  intros Hne Hd Hc. cbn [verify_step].
  rewrite (qrData_present _ Hne). simpl default. rewrite Hd.
  destruct (credential_properties _ _ _ Hc) as [-> ->]. reflexivity.
Qed.

Lemma verify_step_found w id q i customer t :
  Customer.findOne id (customers w) = Some (i, customer) ->
  verify_checks customer (Some (JNum q)) = None ->
  verify_step JSON_parse t w (AwaitCustomerFindOne (Some (JStr id)) (Some (JNum q)))
  = (w, AwaitCustomerSave i (Customer.markAsVerified t customer)).
Proof. intros Hf Hc. cbn [verify_step Customer.findOne_value]. rewrite Hf, Hc. reflexivity. Qed.

Lemma verify_checks_billed customer q :
  (inject_Z (Customer.queueNumber customer) == q)%Q ->
  Customer.status customer = BILLED ->
  verify_checks customer (Some (JNum q)) = None.
Proof.
  intros Hq Hs. unfold verify_checks.
  rewrite (strict_neq_number_false _ _ Hq), Hs. reflexivity.
Qed.

(** Two requests with the same credential for a BILLED entry, each taking
    one step in turn: both are answered "Verification successful". *)
Lemma interleaved_requests_both_verified w payload d id q i customer
      t0 t0' ta tb t1 t2 t3 t4 t5 t6 :
  payload <> "" ->
  decodeQRData JSON_parse payload = inl d ->
  credential d = Some (id, q) ->
  Customer.findOne id (customers w) = Some (i, customer) ->
  (inject_Z (Customer.queueNumber customer) == q)%Q ->
  Customer.status customer = BILLED ->
  let s := run JSON_parse
               [(0, t0); (1, t0'); (0, ta); (1, tb); (0, t1); (1, t2);
                (0, t3); (1, t4); (0, t5); (1, t6)]%nat
               (w, [Received (Some payload); Received (Some payload)]) in
  response_of s 0 = Some (res_verified (Customer.markAsVerified ta customer))
  /\ response_of s 1 = Some (res_verified (Customer.markAsVerified tb customer)).
Proof.
  intros Hne Hd Hc Hf Hq Hs.
  pose proof (verify_checks_billed _ _ Hq Hs) as Hchk.
  cbv zeta.
  rewrite run_cons, step_first, (verify_step_received w payload d id q t0 Hne Hd Hc).
  cbn [fst snd].
  rewrite run_cons, step_second, (verify_step_received w payload d id q t0' Hne Hd Hc).
  cbn [fst snd].
  rewrite run_cons, step_first, (verify_step_found w id q i customer ta Hf Hchk).
  cbn [fst snd].
  rewrite run_cons, step_second, (verify_step_found w id q i customer tb Hf Hchk).
  cbn [fst snd].
  rewrite run_cons, step_first. cbn [verify_step fst snd customers queues].
  rewrite run_cons, step_second. cbn [verify_step fst snd customers queues].
  rewrite run_cons, step_first. cbn [verify_step fst snd customers queues].
  change (Customer.customerId (Customer.markAsVerified ta customer))
    with (Customer.customerId customer).
  destruct (Queue.findOne_active (Customer.customerId customer) (queues w))
    as [[j queueEntry]|] eqn:Hqf; cbn [fst snd].
  - rewrite run_cons, step_second. cbn [verify_step fst snd customers queues].
    change (Customer.customerId (Customer.markAsVerified tb customer))
      with (Customer.customerId customer).
    rewrite Hqf. cbn [fst snd].
    rewrite run_cons, step_first. cbn [verify_step fst snd customers queues].
    rewrite run_cons, step_second. cbn [verify_step fst snd customers queues].
    split; reflexivity.
  - rewrite run_cons, step_second. cbn [verify_step fst snd customers queues].
    change (Customer.customerId (Customer.markAsVerified tb customer))
      with (Customer.customerId customer).
    rewrite Hqf. cbn [fst snd].
    rewrite run_cons, step_first. cbn [verify_step fst snd customers queues].
    rewrite run_cons, step_second. cbn [verify_step fst snd customers queues].
    split; reflexivity.
Qed.

(** A second scan after a successful one is rejected as a duplicate and
    reports the time of the first. *)
Lemma verify_again_after_success w payload d id q i customer t1 t2 t3 t4 :
  payload <> "" ->
  decodeQRData JSON_parse payload = inl d ->
  credential d = Some (id, q) ->
  Customer.findOne id (customers w) = Some (i, customer) ->
  (inject_Z (Customer.queueNumber customer) == q)%Q ->
  Customer.status customer = BILLED ->
  let (first, w1) := verifyQRCode JSON_parse w (Some payload) t1 t2 in
  let (second, w2) := verifyQRCode JSON_parse w1 (Some payload) t3 t4 in
  v_verification first = Some SUCCESS
  /\ v_reason second = Some DUPLICATE_SCAN
  /\ v_verifiedAt second = Some (Some t1)
  /\ w2 = w1.
Proof.
  intros Hne Hd Hc Hf Hq Hs.
  assert (Hchk : verify_checks customer (Some (JNum q)) = None).
  { unfold verify_checks. rewrite (strict_neq_number_false _ _ Hq), Hs. reflexivity. }
  assert (Hdup : verify_checks (Customer.markAsVerified t1 customer) (Some (JNum q))
                 = Some (res_duplicate (Customer.markAsVerified t1 customer))).
  { unfold verify_checks.
    change (Customer.queueNumber (Customer.markAsVerified t1 customer))
      with (Customer.queueNumber customer).
    rewrite (strict_neq_number_false _ _ Hq). reflexivity. }
  assert (Hf1 : Customer.findOne id
                  (Customer.save_verified i (Customer.markAsVerified t1 customer) (customers w))
                = Some (i, Customer.markAsVerified t1 customer)).
  { unfold Customer.save_verified.
    rewrite (findOne_alter _ id (customers w) i customer); [reflexivity | reflexivity | exact Hf]. }
  rewrite (verifyQRCode_decoded w payload d id q t1 t2 Hne Hd Hc), Hf, Hchk.
  cbn zeta. cbn [customers queues].
  destruct (Queue.findOne_active _ (queues w)) as [[j queueEntry]|].
  - rewrite (verifyQRCode_decoded _ payload d id q t3 t4 Hne Hd Hc). cbn [customers].
    rewrite Hf1, Hdup. repeat split.
  - rewrite (verifyQRCode_decoded _ payload d id q t3 t4 Hne Hd Hc). cbn [customers].
    rewrite Hf1, Hdup. repeat split.
Qed.

(** What a successful verification writes: the entry is stamped with the
    clock [markAsVerified] read, the slot with the clock [complete] read. *)
Lemma verify_success_effect w payload d id q i customer j queueEntry t1 t2 :
  payload <> "" ->
  decodeQRData JSON_parse payload = inl d ->
  credential d = Some (id, q) ->
  Customer.findOne id (customers w) = Some (i, customer) ->
  (inject_Z (Customer.queueNumber customer) == q)%Q ->
  Customer.status customer = BILLED ->
  Queue.findOne_active id (queues w) = Some (j, queueEntry) ->
  let (response, w') := verifyQRCode JSON_parse w (Some payload) t1 t2 in
  response = res_verified (Customer.markAsVerified t1 customer)
  /\ customers w' !! i = Some (Customer.markAsVerified t1 customer)
  /\ queues w' !! j = Some (Queue.complete t2 queueEntry).
Proof.
  intros Hne Hd Hc Hf Hq Hs Hqf.
  assert (Hchk : verify_checks customer (Some (JNum q)) = None).
  { unfold verify_checks. rewrite (strict_neq_number_false _ _ Hq), Hs. reflexivity. }
  destruct (findOne_Some _ _ _ _ Hf) as [Hi Hid].
  rewrite (verifyQRCode_decoded w payload d id q t1 t2 Hne Hd Hc), Hf, Hchk.
  cbn zeta. cbn [customers queues].
  change (Customer.customerId (Customer.markAsVerified t1 customer))
    with (Customer.customerId customer).
  rewrite Hid, Hqf. cbn [customers queues]. repeat split.
  - apply save_verified_lookup. exact Hi.
  - unfold Queue.findOne_active in Hqf. apply list_find_Some in Hqf as (Hj & _ & _).
    unfold Queue.save_completed. rewrite list_lookup_alter_eq, Hj. reflexivity.
Qed.

(** *** Billing *)

(** C8.  [completeBilling] answers 404 when no entry has the identifier and
    400 when the entry is VERIFIED, changing nothing.  On a BILLED entry it
    answers success and changes nothing.  On a WAITING entry it sets the
    status to BILLED and [billedAt] to the clock it read, touching no other
    entry and no queue slot; a second call right after is again a success,
    returns the same data and leaves the database exactly as the first call
    left it. *)
Theorem billing_is_idempotent w customerId t1 t2 :
  (Customer.findOne customerId (customers w) = None ->
   completeBilling w customerId t1
   = (mkBillingResponse 404 false "Customer not found" None None, w))
  /\ (forall i c,
         Customer.findOne customerId (customers w) = Some (i, c) ->
         Customer.status c = VERIFIED ->
         let (r, w') := completeBilling w customerId t1 in
         w' = w /\ b_code r = 400 /\ b_success r = false
         /\ b_currentStatus r = Some VERIFIED /\ b_data r = None)
  /\ (forall i c,
         Customer.findOne customerId (customers w) = Some (i, c) ->
         Customer.status c = BILLED ->
         let (r, w') := completeBilling w customerId t1 in
         w' = w /\ b_code r = 200 /\ b_success r = true
         /\ b_data r = Some (billing_data c))
  /\ (forall i c,
         Customer.findOne customerId (customers w) = Some (i, c) ->
         Customer.status c = WAITING ->
         let (r1, w1) := completeBilling w customerId t1 in
         let (r2, w2) := completeBilling w1 customerId t2 in
         (b_code r1 = 200 /\ b_success r1 = true
          /\ customers w1 !! i = Some (Customer.markAsBilled t1 c)
          /\ Customer.status (Customer.markAsBilled t1 c) = BILLED
          /\ Customer.billedAt (Customer.markAsBilled t1 c) = Some t1
          /\ (forall k, k <> i -> customers w1 !! k = customers w !! k)
          /\ queues w1 = queues w)
         /\ (b_code r2 = 200 /\ b_success r2 = true /\ b_data r2 = b_data r1 /\ w2 = w1)).
Proof.
  unfold completeBilling. repeat split.
  - intros ->. reflexivity.
  - intros i c -> ->. simpl. auto.
  - intros i c -> ->. simpl. auto.
  - intros i c Hf Hs. rewrite Hf, Hs. simpl bool_decide. cbn iota. cbn [customers queues].
    destruct (findOne_Some _ _ _ _ Hf) as [Hi _].
    unfold Customer.save_billed.
    rewrite (findOne_alter _ customerId (customers w) i c); [|reflexivity|exact Hf].
    cbn. repeat split.
    + rewrite list_lookup_alter_eq, Hi. reflexivity.
    + intros k Hk. apply list_lookup_alter_ne. congruence.
Qed.

(** *** Position in the queue *)

Lemma countDocuments_active_lt_ahead c l :
  Customer.countDocuments_active_lt (Customer.queueNumber c) l
  = Z.of_nat (length (filter (ahead_of c) l)).
Proof.
  unfold Customer.countDocuments_active_lt. do 2 f_equal.
  apply list_filter_iff. intros d.
  unfold ahead_of, active, Customer.in_waiting_or_billed.
  rewrite andb_True, !Is_true_true, Z.ltb_lt.
  destruct (Customer.status d); intuition congruence.
Qed.

Lemma nobody_ahead c l :
  (forall d, d ∈ l -> active d -> Customer.queueNumber c <= Customer.queueNumber d) ->
  filter (ahead_of c) l = [].
Proof.
  intros H. induction l as [|x l IH]; [reflexivity|].
  rewrite filter_cons_False.
  - apply IH. intros d Hd. apply H. right. exact Hd.
  - intros [Ha Hlt]. specialize (H x (list_elem_of_here _ _) Ha). lia.
Qed.

(** C5.  [getQueuePosition] answers 404 when no entry has the identifier,
    and [position: null] when the entry is VERIFIED.  For an entry that is
    WAITING or BILLED it answers [k + 1], where [k] is the number of entries
    that are WAITING or BILLED and hold a strictly smaller queue number; in
    particular the entry with the smallest active queue number is told 1. *)
Theorem queue_position_counts_active_ahead w customerId :
  (Customer.findOne customerId (customers w) = None ->
   getQueuePosition w customerId
   = mkPositionResponse 404 false (Some "Customer not found") None)
  /\ (forall i c,
         Customer.findOne customerId (customers w) = Some (i, c) ->
         Customer.status c = VERIFIED ->
         p_code (getQueuePosition w customerId) = 200
         /\ p_data (getQueuePosition w customerId) = Some (NotRanked customerId VERIFIED))
  /\ (forall i c,
         Customer.findOne customerId (customers w) = Some (i, c) ->
         active c ->
         let k := Z.of_nat (length (filter (ahead_of c) (customers w))) in
         p_code (getQueuePosition w customerId) = 200
         /\ p_data (getQueuePosition w customerId)
            = Some (Ranked customerId (Customer.name c) (Customer.queueNumber c)
                           (k + 1) (Customer.status c) k))
  /\ (forall i c,
         Customer.findOne customerId (customers w) = Some (i, c) ->
         active c ->
         (forall d, d ∈ customers w -> active d ->
                    Customer.queueNumber c <= Customer.queueNumber d) ->
         exists name status,
           p_data (getQueuePosition w customerId)
           = Some (Ranked customerId name (Customer.queueNumber c) 1 status 0)).
Proof.
  unfold getQueuePosition. split; [|split; [|split]].
  - intros ->. reflexivity.
  - intros i c Hf Hs. rewrite Hf, Hs. simpl.
    destruct (findOne_Some _ _ _ _ Hf) as [_ <-]. auto.
  - intros i c Hf Ha. rewrite Hf. destruct (findOne_Some _ _ _ _ Hf) as [_ <-].
    rewrite countDocuments_active_lt_ahead.
    destruct Ha as [Hs | Hs]; rewrite Hs; auto.
  - intros i c Hf Ha Hmin. rewrite Hf. destruct (findOne_Some _ _ _ _ Hf) as [_ <-].
    rewrite countDocuments_active_lt_ahead, (nobody_ahead _ _ Hmin).
    exists (Customer.name c), (Customer.status c).
    destruct Ha as [Hs | Hs]; rewrite Hs; reflexivity.
Qed.

(** *** The allocator *)

Lemma findOne_sort_queueNumber_desc_max c :
  match Customer.findOne_sort_queueNumber_desc c with
  | None => c = []
  | Some m => m ∈ c /\ forall d, d ∈ c -> Customer.queueNumber d <= Customer.queueNumber m
  end.
Proof.
  induction c as [|x c IH]; [reflexivity|]. cbn [Customer.findOne_sort_queueNumber_desc].
  destruct (Customer.findOne_sort_queueNumber_desc c) as [m|].
  - destruct IH as [Hm Hmax].
    destruct (Customer.queueNumber m <=? Customer.queueNumber x) eqn:E.
    + apply Z.leb_le in E. split; [left|].
      intros d Hd. apply elem_of_cons in Hd as [-> | Hd]; [lia|].
      specialize (Hmax d Hd). lia.
    + apply Z.leb_gt in E. split; [right; exact Hm|].
      intros d Hd. apply elem_of_cons in Hd as [-> | Hd]; [lia|]. apply Hmax, Hd.
  - subst c. split; [left|]. intros d Hd.
    apply elem_of_cons in Hd as [-> | Hd]; [lia|]. inversion Hd.
Qed.

Lemma findOne_sort_queueNumber_desc_numbers c c' :
  map Customer.queueNumber c = map Customer.queueNumber c' ->
  Customer.queueNumber <$> Customer.findOne_sort_queueNumber_desc c
  = Customer.queueNumber <$> Customer.findOne_sort_queueNumber_desc c'.
Proof.
  revert c'. induction c as [|x c IH]; intros [|x' c'] H; try discriminate; [reflexivity|].
  cbn [map] in H. injection H as Hx Hc. specialize (IH c' Hc).
  cbn [Customer.findOne_sort_queueNumber_desc].
  destruct (Customer.findOne_sort_queueNumber_desc c) as [m|],
           (Customer.findOne_sort_queueNumber_desc c') as [m'|];
    try discriminate; cbn in IH |- *.
  - injection IH as IH. rewrite IH, Hx.
    destruct (Customer.queueNumber m' <=? Customer.queueNumber x'); cbn; congruence.
  - congruence.
Qed.

Lemma getNextQueueNumber_above c d :
  d ∈ c -> Customer.queueNumber d < Customer.getNextQueueNumber c.
Proof.
  intros Hd. unfold Customer.getNextQueueNumber.
  pose proof (findOne_sort_queueNumber_desc_max c) as H.
  destruct (Customer.findOne_sort_queueNumber_desc c) as [m|].
  - destruct H as [_ H]. specialize (H d Hd). lia.
  - subst c. inversion Hd.
Qed.

(** C10.  On the empty collection [getNextQueueNumber] returns 1.  On any
    other collection it returns one more than the greatest queue number
    held by any customer.  The result depends on the queue numbers alone:
    the status of the customers (VERIFIED ones included) plays no part. *)
Theorem next_queue_number_is_one_past_the_maximum c :
  (c = [] -> Customer.getNextQueueNumber c = 1)
  /\ (c <> [] ->
      exists m, m ∈ c
                /\ (forall d, d ∈ c -> Customer.queueNumber d <= Customer.queueNumber m)
                /\ Customer.getNextQueueNumber c = 1 + Customer.queueNumber m)
  /\ (forall c', map Customer.queueNumber c' = map Customer.queueNumber c ->
                 Customer.getNextQueueNumber c' = Customer.getNextQueueNumber c).
Proof.
  split; [|split].
  - intros ->. reflexivity.
  - intros Hne. unfold Customer.getNextQueueNumber.
    pose proof (findOne_sort_queueNumber_desc_max c) as H.
    destruct (Customer.findOne_sort_queueNumber_desc c) as [m|]; [|contradiction].
    destruct H as [Hm Hmax]. exists m. repeat split; [exact Hm | exact Hmax | lia].
  - intros c' H. unfold Customer.getNextQueueNumber.
    pose proof (findOne_sort_queueNumber_desc_numbers c' c H) as E.
    destruct (Customer.findOne_sort_queueNumber_desc c'),
             (Customer.findOne_sort_queueNumber_desc c); try discriminate; [|reflexivity].
    cbn in E. injection E as ->. reflexivity.
Qed.

Lemma register_Some r c n c' :
  register r c = Some (n, c') ->
  n = Customer.getNextQueueNumber c
  /\ exists d, Customer.queueNumber d = n /\ c' = (c ++ [d])%list.
Proof.
  unfold register, Customer.create.
  destruct (Customer.findOne _ c); [discriminate|].
  intros [= <- <-]. split; [reflexivity|]. eexists. split; [|reflexivity]. reflexivity.
Qed.

Lemma issued_registrations rs : forall c,
  StronglySorted Z.lt (issued (map OpRegister rs) c)
  /\ forall n, n ∈ issued (map OpRegister rs) c ->
               forall d, d ∈ c -> Customer.queueNumber d < n.
Proof.
  induction rs as [|r rs IH]; intros c; cbn [map issued].
  - split; [constructor|]. intros n Hn. inversion Hn.
  - destruct (register r c) as [[n c']|] eqn:E; [|apply IH].
    apply register_Some in E as (-> & d0 & Hd0 & ->).
    destruct (IH (c ++ [d0])%list) as [Hsorted Hbound]. split.
    + constructor; [exact Hsorted|]. apply Forall_forall. intros m Hm.
      rewrite <- Hd0. apply (Hbound m Hm). apply elem_of_app. right. left.
    + intros m Hm d Hd. apply elem_of_cons in Hm as [-> | Hm].
      * apply getNextQueueNumber_above, Hd.
      * apply (Hbound m Hm). apply elem_of_app. left. exact Hd.
Qed.

(** *** Registrations that overlap

    A registration stores its customer only if no customer has been stored
    since it read its identifier: otherwise the identifier it holds is the
    one that was stored in between, and the unique index refuses it.  The
    queue number it read after the identifier is then still one more than
    every number stored.  Of [generateCustomerId] the argument uses only
    that the identifier is computed from the collection read. *)

Lemma findOne_app_None id (c c' : list Customer.doc) :
  Customer.findOne id (c ++ c') = None ->
  Customer.findOne id c = None /\ Customer.findOne id c' = None.
Proof.
  unfold Customer.findOne. rewrite !list_find_None, Forall_app. done.
Qed.

Lemma findOne_member (c : list Customer.doc) d :
  d ∈ c -> Customer.findOne (Customer.customerId d) c <> None.
Proof.
  unfold Customer.findOne. intros Hd H. rewrite list_find_None, Forall_forall in H.
  by apply (H d Hd).
Qed.

Lemma strictly_increasing_NoDup (l : list Z) : StronglySorted Z.lt l -> NoDup l.
Proof.
  induction 1 as [|n l Hl IH Hall]; constructor; [|exact IH].
  intros Hin. rewrite Forall_forall in Hall. specialize (Hall n Hin). lia.
Qed.

Lemma sorted_numbers_inj (l : list Customer.doc) x y :
  StronglySorted Z.lt (Customer.queueNumber <$> l) ->
  x ∈ l -> y ∈ l -> Customer.queueNumber x = Customer.queueNumber y -> x = y.
Proof.
  induction l as [|a l IH]; intros Hs Hx Hy E; [by apply elem_of_nil in Hx|].
  rewrite fmap_cons in Hs. apply StronglySorted_inv in Hs as [Hs Hall].
  rewrite Forall_fmap, Forall_forall in Hall.
  apply elem_of_cons in Hx as [-> | Hx]; apply elem_of_cons in Hy as [-> | Hy].
  - done.
  - specialize (Hall y Hy). simpl in Hall. lia.
  - specialize (Hall x Hx). simpl in Hall. lia.
  - by apply IH.
Qed.

Section RegistrationsOverlap.

Variable JSON_stringify : json -> string.
Variable QRCode_toDataURL : string -> option string.
Variable PREFIX : string.
Variable START_NUMBER : Z.

(** One step of a registration either leaves the customers as they are, and
    what the request holds stays current or stored; or it is the insert of
    [Customer.create], of a document whose identifier no stored customer
    holds. *)
Lemma register_step_cases timestamp now w r w' r' :
  register_step JSON_stringify QRCode_toDataURL PREFIX START_NUMBER timestamp now w r
  = (w', r') ->
  (customers w' = customers w
   /\ (reads_current (generateCustomerId PREFIX START_NUMBER) (customers w) r ->
       reads_current (generateCustomerId PREFIX START_NUMBER) (customers w) r')
   /\ (registered r' = None \/ registered r' = registered r))
  \/ (exists document,
        r = AwaitCustomerCreate document
        /\ Customer.findOne (Customer.customerId document) (customers w) = None
        /\ customers w' = (customers w ++ [Customer.cast document])%list
        /\ reads r' = None
        /\ registered r' = Some (Customer.customerId document, Customer.queueNumber document)).
Proof.
  destruct r as [body|name phone cartTotal|name phone cartTotal id
                 |name phone cartTotal id n stamp|document|customer slot|customer n
                 |response]; cbn [register_step].
  - intros E. left.
    assert (Hr : customers w' = customers w /\ reads r' = None /\ registered r' = None).
    { destruct (body_name body), (body_phone body), (body_cartTotal body);
        repeat match type of E with
               | (if ?b then _ else _) = _ => destruct b
               end; injection E as <- <-; done. }
    destruct Hr as (? & Hreads & ?). split; [done|]. split; [|by left].
    intros _ id n Hid. rewrite Hreads in Hid. discriminate.
  - intros [= <- <-]. left. split; [done|]. split; [|by left].
    intros _ id n [= <- <-] _. split; [done|]. intros q. discriminate.
  - intros [= <- <-]. left. split; [done|]. split; [|by left].
    intros H id' n' [= <- <-] Hnone.
    destruct (H id None eq_refl Hnone) as [-> _]. split; [done|]. by intros q [= <-].
  - destruct (generateQRCode _ _ _ _ _) as [qrCode|error]; intros [= <- <-]; left;
      (split; [done|]); (split; [|by left]).
    + intros H id' n' [= <- <-] Hnone. by apply (H id (Some n)).
    + intros _ id' n'. discriminate.
  - unfold Customer.create_validated, Customer.create.
    destruct (negb (Customer.validate (Customer.cast document))).
    { intros [= <- <-]. left. split; [done|]. split; [|by left].
      intros _ id' n'. discriminate. }
    change (Customer.customerId (Customer.cast document))
      with (Customer.customerId document).
    destruct (Customer.findOne (Customer.customerId document) (customers w)) eqn:Hfind.
    { intros [= <- <-]. left. split; [done|]. split; [|by left].
      intros _ id' n'. discriminate. }
    intros [= <- <-]. right. exists document. done.
  - destruct (Queue.create_validated slot (queues w)) as [slots|error];
      intros [= <- <-]; left; (split; [done|]).
    + split; [|by right]. intros _ id' n'. discriminate.
    + split; [|left; by destruct error]. intros _ id' n'. destruct error; discriminate.
  - intros [= <- <-]. left. split; [done|]. split; [|by right].
    intros _ id' n'. discriminate.
  - intros [= <- <-]. left. split; [done|]. split; [|by right].
    intros _ id' n'. discriminate.
Qed.

Lemma registrations_in_order_step c0 s ev :
  registrations_in_order (generateCustomerId PREFIX START_NUMBER) c0 s ->
  registrations_in_order (generateCustomerId PREFIX START_NUMBER) c0
    (register_system_step JSON_stringify QRCode_toDataURL PREFIX START_NUMBER s ev).
Proof.
  destruct s as [w rs], ev as [k [timestamp now]].
  intros (added & Hc & Hsorted & Habove & Hall & Hdistinct).
  unfold register_system_step. cbn [fst snd] in *.
  destruct (rs !! k) as [r|] eqn:Hk; [|by exists added].
  destruct (register_step _ _ _ _ timestamp now w r) as [w' r'] eqn:Hstep.
  pose proof (Forall_lookup_1 _ _ _ _ Hall Hk) as [Hr_reads Hr_stored].
  apply register_step_cases in Hstep as [(Hw & Hreads & Hreg)|Hinsert].
  - exists added. cbn [fst snd]. rewrite Hw.
    split; [done|]. split; [done|]. split; [done|]. split.
    + apply Forall_insert; [done|]. split; [by apply Hreads|].
      intros id n Hid. destruct Hreg as [Hreg|Hreg]; rewrite Hreg in Hid; [done|].
      by apply Hr_stored.
    + intros j l rj rl idj nj idl nl Hjl Hj Hl Hrj Hrl.
      assert (Hold : forall i ri idi ni,
                 <[k:=r']> rs !! i = Some ri -> registered ri = Some (idi, ni) ->
                 exists ri', rs !! i = Some ri' /\ registered ri' = Some (idi, ni)).
      { intros i ri idi ni Hi Hri. destruct (decide (i = k)) as [->|Hne].
        - rewrite list_lookup_insert_eq in Hi by (by eapply lookup_lt_Some).
          injection Hi as <-. exists r. split; [done|].
          destruct Hreg as [Hreg|Hreg]; rewrite Hreg in Hri; done.
        - rewrite list_lookup_insert_ne in Hi by done. by exists ri. }
      destruct (Hold j rj idj nj Hj Hrj) as (rj' & Hj' & Hrj').
      destruct (Hold l rl idl nl Hl Hrl) as (rl' & Hl' & Hrl').
      by eapply (Hdistinct j l).
  - destruct Hinsert as (document & -> & Hfresh & Hw & Hreads & Hreg).
    destruct (Hr_reads _ _ eq_refl Hfresh) as [Hid Hnumber].
    specialize (Hnumber _ eq_refl).
    exists (added ++ [Customer.cast document])%list. cbn [fst snd].
    split; [by rewrite Hw, Hc, app_assoc|].
    assert (Hgreater : forall x, x ∈ customers w ->
                                 Customer.queueNumber x < Customer.queueNumber document).
    { intros x Hx. rewrite Hnumber. by apply getNextQueueNumber_above. }
    split; [|split; [|split]].
    + rewrite fmap_app. apply StronglySorted_app_2; [|done|repeat constructor].
      intros n m Hn Hm. apply list_elem_of_fmap in Hn as (x & -> & Hx).
      apply list_elem_of_singleton in Hm as ->.
      apply Hgreater. rewrite Hc. apply elem_of_app. by right.
    + intros d x Hd Hx. apply elem_of_app in Hd as [Hd|Hd]; [by apply Habove|].
      apply list_elem_of_singleton in Hd as ->.
      apply Hgreater. rewrite Hc. apply elem_of_app. by left.
    + apply Forall_insert.
      * eapply Forall_impl; [exact Hall|]. intros ri [Hri_reads Hri_stored]. split.
        -- intros id n Hri Hnone. rewrite Hw in Hnone.
           apply findOne_app_None in Hnone as [Hnone Hnew].
           destruct (Hri_reads id n Hri Hnone) as [-> _]. exfalso.
           rewrite <- Hid in Hnew.
           apply (findOne_member [Customer.cast document] (Customer.cast document));
             [by apply list_elem_of_singleton|done].
        -- intros id n Hri. destruct (Hri_stored id n Hri) as (d & Hd & ?).
           exists d. split; [|done]. apply elem_of_app. by left.
      * split; [intros id n Hri; rewrite Hreads in Hri; discriminate|].
        intros id n Hri. rewrite Hreg in Hri. injection Hri as <- <-.
        exists (Customer.cast document). split; [|done].
        apply elem_of_app. right. by apply list_elem_of_singleton.
    + assert (Hnew : forall i ri idi ni,
                 i <> k -> rs !! i = Some ri -> registered ri = Some (idi, ni) ->
                 idi <> Customer.customerId document).
      { intros i ri idi ni Hne Hi Hri ->.
        pose proof (Forall_lookup_1 _ _ _ _ Hall Hi) as [_ Hstored].
        destruct (Hstored _ _ Hri) as (d & Hd & Hdid & _).
        apply (findOne_member (customers w) d); [|by rewrite Hdid].
        rewrite Hc. apply elem_of_app. by right. }
      intros j l rj rl idj nj idl nl Hjl Hj Hl Hrj Hrl.
      destruct (decide (j = k)) as [->|Hjk]; destruct (decide (l = k)) as [->|Hlk].
      * done.
      * rewrite list_lookup_insert_eq in Hj by (by eapply lookup_lt_Some).
        injection Hj as <-. rewrite Hreg in Hrj. injection Hrj as <- <-.
        rewrite list_lookup_insert_ne in Hl by done.
        intros E. by apply (Hnew l rl idl nl).
      * rewrite list_lookup_insert_eq in Hl by (by eapply lookup_lt_Some).
        injection Hl as <-. rewrite Hreg in Hrl. injection Hrl as <- <-.
        rewrite list_lookup_insert_ne in Hj by done.
        by apply (Hnew j rj idj nj).
      * rewrite list_lookup_insert_ne in Hj, Hl by done. by eapply (Hdistinct j l).
Qed.

Lemma registrations_in_order_run c0 schedule : forall s,
  registrations_in_order (generateCustomerId PREFIX START_NUMBER) c0 s ->
  registrations_in_order (generateCustomerId PREFIX START_NUMBER) c0
    (register_run JSON_stringify QRCode_toDataURL PREFIX START_NUMBER schedule s).
Proof.
  induction schedule as [|ev schedule IH]; intros s Hs; [done|].
  apply IH. by apply registrations_in_order_step.
Qed.

Lemma registrations_in_order_start w bodies :
  registrations_in_order (generateCustomerId PREFIX START_NUMBER) (customers w)
    (w, RegisterReceived <$> bodies).
Proof.
  exists []. cbn [fst snd]. split; [by rewrite app_nil_r|]. split; [constructor|].
  split; [intros d x Hd; by apply elem_of_nil in Hd|]. split.
  - apply Forall_fmap, Forall_forall. intros body _. split; intros id n; discriminate.
  - intros j k rj rk idj nj idk nk _ Hj _ Hrj.
    rewrite list_lookup_fmap in Hj. destruct (bodies !! j); [|discriminate].
    injection Hj as <-. discriminate.
Qed.

Lemma received_registered s k n :
  received s k = Some n ->
  exists r id, snd s !! k = Some r /\ registered r = Some (id, n).
Proof.
  unfold received. destruct (snd s !! k) as [[| | | | | | |response]|]; try discriminate.
  destruct (g_data response) as [data|] eqn:Hdata; [|discriminate].
  intros [= <-]. exists (RegisterResponded response), (rd_customerId data).
  split; [done|]. cbn [registered]. by rewrite Hdata.
Qed.

Lemma overlapping_registrations w bodies schedule :
  let s := register_run JSON_stringify QRCode_toDataURL PREFIX START_NUMBER schedule
             (w, RegisterReceived <$> bodies) in
  exists added,
    customers (fst s) = (customers w ++ added)%list
    /\ StronglySorted Z.lt (Customer.queueNumber <$> added)
    /\ NoDup (Customer.queueNumber <$> added)
    /\ (forall d x, d ∈ added -> x ∈ customers w ->
                    Customer.queueNumber x < Customer.queueNumber d)
    /\ (forall k n, received s k = Some n -> n ∈ Customer.queueNumber <$> added)
    /\ (forall j k n, j <> k -> received s j = Some n -> received s k <> Some n).
Proof.
  intros s.
  destruct (registrations_in_order_run (customers w) schedule _
              (registrations_in_order_start w bodies))
    as (added & Hc & Hsorted & Habove & Hall & Hdistinct).
  fold s in Hc, Hall, Hdistinct.
  exists added. split; [done|]. split; [done|].
  split; [by apply strictly_increasing_NoDup|]. split; [done|].
  assert (Hstored : forall k n, received s k = Some n ->
            exists r id d, snd s !! k = Some r /\ registered r = Some (id, n)
                           /\ d ∈ added /\ Customer.customerId d = id
                           /\ Customer.queueNumber d = n).
  { intros k n Hk. apply received_registered in Hk as (r & id & Hk & Hr).
    pose proof (Forall_lookup_1 _ _ _ _ Hall Hk) as [_ Hs].
    destruct (Hs _ _ Hr) as (d & ? & ? & ?). by exists r, id, d. }
  split.
  - intros k n Hk. destruct (Hstored k n Hk) as (_ & _ & d & _ & _ & Hd & _ & <-).
    apply list_elem_of_fmap. by exists d.
  - intros j k n Hjk Hj Hk.
    destruct (Hstored j n Hj) as (rj & idj & dj & Hlj & Hrj & Hdj & Hidj & Hnj).
    destruct (Hstored k n Hk) as (rk & idk & dk & Hlk & Hrk & Hdk & Hidk & Hnk).
    apply (Hdistinct j k rj rk idj n idk n Hjk Hlj Hlk Hrj Hrk).
    rewrite <- Hidj, <- Hidk. f_equal.
    apply (sorted_numbers_inj added); [done..|]. by rewrite Hnj, Hnk.
Qed.

(** A registration run alone goes through the steps of [registerCustomer]. *)
Lemma registration_alone_is_registerCustomer w body timestamp now :
  register_run JSON_stringify QRCode_toDataURL PREFIX START_NUMBER
    (registration_alone 0 timestamp now) (w, [RegisterReceived body])
  = (snd (registerCustomer JSON_stringify QRCode_toDataURL PREFIX START_NUMBER w body
            timestamp now),
     [RegisterResponded
        (fst (registerCustomer JSON_stringify QRCode_toDataURL PREFIX START_NUMBER w body
                timestamp now))]).
Proof.
  unfold registration_alone, register_run. cbn [replicate fold_left].
  assert (Hstep : forall w r,
             register_system_step JSON_stringify QRCode_toDataURL PREFIX START_NUMBER
               (w, [r]) (0%nat, (timestamp, now))
             = (fst (register_step JSON_stringify QRCode_toDataURL PREFIX START_NUMBER
                       timestamp now w r),
                [snd (register_step JSON_stringify QRCode_toDataURL PREFIX START_NUMBER
                        timestamp now w r)])).
  { intros w0 r. unfold register_system_step. cbn [fst snd lookup list_lookup].
    by destruct (register_step _ _ _ _ _ _ _ _). }
  unfold registerCustomer.
  rewrite Hstep. cbn [register_step].
  destruct (body_name body) as [name|], (body_phone body) as [phone|],
           (body_cartTotal body) as [cartTotal|];
    try (cbn [fst snd]; by rewrite !Hstep).
  destruct (String.eqb name "" || String.eqb phone ""); [cbn [fst snd]; by rewrite !Hstep|].
  destruct (negb (phone_format phone)); [cbn [fst snd]; by rewrite !Hstep|].
  destruct (negb (Qle_bool 0 cartTotal)); [cbn [fst snd]; by rewrite !Hstep|].
  cbn [fst snd]. rewrite Hstep. cbn [register_step fst snd].
  rewrite Hstep. cbn [register_step fst snd].
  rewrite Hstep. cbn [register_step fst snd].
  destruct (generateQRCode _ _ _ _ _) as [qrCode|error];
    [|cbn [fst snd]; by rewrite !Hstep].
  cbn [fst snd]. rewrite Hstep. cbn [register_step fst snd].
  destruct (Customer.create_validated _ _) as [[customer stored]|error];
    [|cbn [fst snd]; by rewrite !Hstep].
  cbn [fst snd]. rewrite Hstep.
  cbn [register_step fst snd queues customers Customer.queueNumber Customer.customerId].
  destruct (Queue.create_validated _ _) as [slots|error];
    [|cbn [fst snd]; by rewrite !Hstep].
  cbn [fst snd]. rewrite Hstep. by cbn.
Qed.

End RegistrationsOverlap.

(** C4, as amended.  The number [getNextQueueNumber] hands out is 1 on the
    empty collection and otherwise one more than the greatest queue number
    held by a customer now in the collection, so it is strictly greater
    than every queue number held.  Hence over any registrations with no
    removal in between, the numbers handed out are strictly increasing in
    the order of issue and pairwise distinct, and each is greater than
    every number that was in the collection at the start: for registrations
    that run one after the other (whatever identifiers they carry), and for
    [registerCustomer] requests that overlap under any schedule of their
    steps, where the customers stored carry increasing numbers in the order
    of storing, every number a caller receives in a 201 response is the
    number of a customer stored, and no two callers receive the same
    number. *)
Theorem registrations_get_increasing_numbers
        (JSON_stringify : json -> string) (QRCode_toDataURL : string -> option string)
        (PREFIX : string) (START_NUMBER : Z)
        (rs : list Registration) (c : Customer.collection)
        (w : World) (bodies : list RegisterBody) (schedule : list (nat * (string * Time))) :
  Customer.getNextQueueNumber [] = 1
  /\ (forall d, d ∈ c -> Customer.queueNumber d < Customer.getNextQueueNumber c)
  /\ (c <> [] -> exists m, m ∈ c /\ Customer.getNextQueueNumber c = Customer.queueNumber m + 1)
  /\ StronglySorted Z.lt (issued (map OpRegister rs) c)
  /\ NoDup (issued (map OpRegister rs) c)
  /\ (forall n, n ∈ issued (map OpRegister rs) c ->
                forall d, d ∈ c -> Customer.queueNumber d < n)
  /\ let s := register_run JSON_stringify QRCode_toDataURL PREFIX START_NUMBER schedule
                (w, RegisterReceived <$> bodies) in
     exists added,
       customers (fst s) = (customers w ++ added)%list
       /\ StronglySorted Z.lt (Customer.queueNumber <$> added)
       /\ NoDup (Customer.queueNumber <$> added)
       /\ (forall d x, d ∈ added -> x ∈ customers w ->
                       Customer.queueNumber x < Customer.queueNumber d)
       /\ (forall k n, received s k = Some n -> n ∈ Customer.queueNumber <$> added)
       /\ (forall j k n, j <> k -> received s j = Some n -> received s k <> Some n).
Proof.
  destruct (issued_registrations rs c) as [Hsorted Hbound].
  split; [reflexivity|]. split; [|split; [|split; [|split; [|split]]]].
  - intros d. apply getNextQueueNumber_above.
  - intros Hne. unfold Customer.getNextQueueNumber.
    pose proof (findOne_sort_queueNumber_desc_max c) as H.
    destruct (Customer.findOne_sort_queueNumber_desc c) as [m|]; [|contradiction].
    exists m. split; [apply H | reflexivity].
  - exact Hsorted.
  - by apply strictly_increasing_NoDup.
  - exact Hbound.
  - apply overlapping_registrations.
Qed.

(** *** Scans one after the other *)

(** X1 ([verifyQRCode]): presented again and again with no overlap, a
    credential for a BILLED entry is accepted once: the first scan succeeds
    and every later one is rejected as a duplicate that reports the time of
    the first. *)
Lemma scans_in_sequence_succeed_once w payload d id q i customer t1 t2 times :
  payload <> "" ->
  decodeQRData JSON_parse payload = inl d ->
  credential d = Some (id, q) ->
  Customer.findOne id (customers w) = Some (i, customer) ->
  (inject_Z (Customer.queueNumber customer) == q)%Q ->
  Customer.status customer = BILLED ->
  fst (scan_repeatedly JSON_parse w payload ((t1, t2) :: times))
  = res_verified (Customer.markAsVerified t1 customer)
    :: map (fun _ => res_duplicate (Customer.markAsVerified t1 customer)) times.
Proof.
  intros Hne Hd Hc Hf Hq Hs.
  pose proof (verify_checks_billed _ _ Hq Hs) as Hchk.
  cbn [scan_repeatedly].
  rewrite (verifyQRCode_decoded w payload d id q t1 t2 Hne Hd Hc), Hf, Hchk.
  cbn zeta. cbn [customers queues].
  set (c1 := Customer.markAsVerified t1 customer).
  assert (Hdup : verify_checks c1 (Some (JNum q)) = Some (res_duplicate c1)).
  { unfold verify_checks, c1.
    change (Customer.queueNumber (Customer.markAsVerified t1 customer))
      with (Customer.queueNumber customer).
    rewrite (strict_neq_number_false _ _ Hq). reflexivity. }
  assert (Hf1 : Customer.findOne id (Customer.save_verified i c1 (customers w))
                = Some (i, c1)).
  { unfold Customer.save_verified, c1.
    rewrite (findOne_alter _ id (customers w) i customer);
      [reflexivity | reflexivity | exact Hf]. }
  assert (Hrest : forall w', Customer.findOne id (customers w') = Some (i, c1) ->
            fst (scan_repeatedly JSON_parse w' payload times)
            = map (fun _ => res_duplicate c1) times).
  { clear -Hne Hd Hc Hdup. induction times as [|[t3 t4] times IH]; intros w' Hw';
      [reflexivity|].
    cbn [scan_repeatedly map].
    rewrite (verifyQRCode_decoded w' payload d id q t3 t4 Hne Hd Hc), Hw', Hdup.
    specialize (IH w' Hw').
    destruct (scan_repeatedly JSON_parse w' payload times) as [rs w'']. cbn in *.
    rewrite IH. reflexivity. }
  destruct (Queue.findOne_active _ (queues w)) as [[j queueEntry]|].
  - specialize (Hrest (mkWorld (Customer.save_verified i c1 (customers w))
                               (Queue.save_completed j (Queue.complete t2 queueEntry)
                                                     (queues w))) Hf1).
    destruct (scan_repeatedly JSON_parse _ payload times) as [rs w'']. cbn in *.
    rewrite Hrest. reflexivity.
  - specialize (Hrest (mkWorld (Customer.save_verified i c1 (customers w)) (queues w)) Hf1).
    destruct (scan_repeatedly JSON_parse _ payload times) as [rs w'']. cbn in *.
    rewrite Hrest. reflexivity.
Qed.

(** *** The slots of the [queues] collection *)

(** X3 ([Queue.getPosition] against [getQueuePosition]): when every slot
    mirrors its entry (same queue number, ACTIVE exactly when the entry is
    WAITING or BILLED), the position [Queue.getPosition] computes at
    registration is the one [getQueuePosition] reports. *)
Lemma getPosition_agrees_with_customers n (c : list Customer.doc) (q : list Queue.doc) :
  Forall2 slot_mirrors c q ->
  Queue.getPosition n q = Customer.countDocuments_active_lt n c + 1.
Proof.
  intros H.
  assert (E : length (filter (fun d => bool_decide (Queue.status d = ACTIVE)
                                       && (Queue.queueNumber d <? n)) q)
              = length (filter (fun d => Customer.in_waiting_or_billed d
                                         && (Customer.queueNumber d <? n)) c)).
  { induction H as [|x s c q [Hn Hs] _ IH]; [reflexivity|].
    assert (E : bool_decide (Queue.status s = ACTIVE) = Customer.in_waiting_or_billed x).
    { unfold Customer.in_waiting_or_billed. unfold active in Hs.
      destruct (Customer.status x); case_bool_decide; intuition congruence. }
    rewrite !filter_cons, Hn, E.
    repeat case_decide; cbn [length]; try (rewrite IH; reflexivity); contradiction. }
  unfold Queue.getPosition, Customer.countDocuments_active_lt. rewrite E. reflexivity.
Qed.

(** *** Any number of overlapping requests *)

Lemma run_app a b s : run JSON_parse (a ++ b) s = run JSON_parse b (run JSON_parse a s).
Proof. apply fold_left_app. Qed.

(** A round in which the next state of each request is [f] of its state,
    whatever the other requests of the round wrote, as long as the database
    stays within [P]. *)
Lemma run_round (P : World -> Prop) (f : VerifyRequest -> VerifyRequest) t rs w :
  P w ->
  (forall r w', r ∈ rs -> P w' ->
                snd (verify_step JSON_parse t w' r) = f r
                /\ P (fst (verify_step JSON_parse t w' r))) ->
  exists w', P w' /\ run JSON_parse (round (length rs) t) (w, rs) = (w', f <$> rs).
Proof.
  intros Hw Hstep.
  assert (Hk : forall k, (k <= length rs)%nat ->
            exists w', P w'
              /\ run JSON_parse (round k t) (w, rs)
                 = (w', ((f <$> take k rs) ++ drop k rs)%list)).
  { induction k as [|k IH]; intros Hle.
    - exists w. split; [exact Hw|]. reflexivity.
    - destruct IH as (w1 & Hw1 & Hrun); [lia|].
      destruct (lookup_lt_is_Some_2 rs k) as [r Hr]; [lia|].
      destruct (Hstep r w1 (list_elem_of_lookup_2 _ _ _ Hr) Hw1) as [Hf HP].
      exists (fst (verify_step JSON_parse t w1 r)). split; [exact HP|].
      unfold round in *. rewrite seq_S, map_app, run_app, Hrun. cbn [map run fold_left].
      unfold system_step. cbn [fst snd].
      assert (Hlen : length (f <$> take k rs) = k).
      { rewrite length_fmap, length_take_le; lia. }
      rewrite lookup_app_r by lia. rewrite Hlen, Nat.sub_diag, lookup_drop, Nat.add_0_r, Hr.
      destruct (verify_step JSON_parse t w1 r) as [w2 r2] eqn:E. cbn [fst snd] in *.
      subst r2. f_equal.
      rewrite insert_app_r_alt by lia. rewrite Hlen, Nat.sub_diag.
      rewrite (drop_S _ _ _ Hr). cbn [insert list_insert].
      rewrite (take_S_r _ _ _ Hr), fmap_app, <- app_assoc. reflexivity. }
  destruct (Hk (length rs) (le_n _)) as (w' & Hw' & Hrun).
  exists w'. split; [exact Hw'|].
  rewrite Hrun, take_ge, drop_ge, app_nil_r by lia. reflexivity.
Qed.

Lemma run_round_replicate (P : World -> Prop) (r r' : VerifyRequest) n t w :
  P w ->
  (forall w', P w' ->
              snd (verify_step JSON_parse t w' r) = r'
              /\ P (fst (verify_step JSON_parse t w' r))) ->
  exists w', P w' /\ run JSON_parse (round n t) (w, replicate n r) = (w', replicate n r').
Proof.
  intros Hw Hstep.
  destruct (run_round P (fun _ => r') t (replicate n r) w Hw) as (w' & Hw' & Hrun).
  - intros r0 w0 Hr0 Hw0. apply elem_of_replicate_inv in Hr0 as ->. apply Hstep, Hw0.
  - exists w'. split; [exact Hw'|].
    rewrite length_replicate, fmap_replicate in Hrun. exact Hrun.
Qed.

(** X2 ([verifyQRCode]): however many requests present the same
    credential for a BILLED entry, if they overlap completely then every
    one of them is answered "Verification successful". *)
Lemma lockstep_requests_all_verified w payload d id q i customer n t1 t2 t3 t4 t5 :
  payload <> "" ->
  decodeQRData JSON_parse payload = inl d ->
  credential d = Some (id, q) ->
  Customer.findOne id (customers w) = Some (i, customer) ->
  (inject_Z (Customer.queueNumber customer) == q)%Q ->
  Customer.status customer = BILLED ->
  exists w',
    run JSON_parse (in_lockstep n t1 t2 t3 t4 t5)
        (w, replicate n (Received (Some payload)))
    = (w', replicate n (Responded (res_verified (Customer.markAsVerified t2 customer)))).
Proof.
  intros Hne Hd Hc Hf Hq Hs.
  pose proof (verify_checks_billed _ _ Hq Hs) as Hchk.
  set (c2 := Customer.markAsVerified t2 customer).
  unfold in_lockstep. rewrite !run_app.
  destruct (run_round_replicate (fun w' => w' = w) (Received (Some payload))
              (AwaitCustomerFindOne (Some (JStr id)) (Some (JNum q))) n t1 w eq_refl)
    as (w1 & -> & ->).
  { intros w' ->. rewrite (verify_step_received w payload d id q t1 Hne Hd Hc). auto. }
  destruct (run_round_replicate (fun w' => w' = w)
              (AwaitCustomerFindOne (Some (JStr id)) (Some (JNum q)))
              (AwaitCustomerSave i c2) n t2 w eq_refl)
    as (w2 & -> & ->).
  { intros w' ->. rewrite (verify_step_found w id q i customer t2 Hf Hchk). auto. }
  destruct (run_round_replicate (fun w' => queues w' = queues w)
              (AwaitCustomerSave i c2) (AwaitQueueFindOne c2) n t3 w eq_refl)
    as (w3 & Hw3 & ->).
  { intros w' Hw'. cbn [verify_step fst snd queues]. auto. }
  destruct (run_round_replicate (fun w' => queues w' = queues w)
              (AwaitQueueFindOne c2)
              (match Queue.findOne_active (Customer.customerId c2) (queues w) with
               | Some (j, queueEntry) => AwaitQueueSave c2 j (Queue.complete t4 queueEntry)
               | None => Responded (res_verified c2)
               end) n t4 w3 Hw3)
    as (w4 & Hw4 & ->).
  { intros w' Hw'. cbn [verify_step]. rewrite Hw'.
    destruct (Queue.findOne_active _ (queues w)) as [[j queueEntry]|]; auto. }
  destruct (run_round_replicate (fun _ => True)
              (match Queue.findOne_active (Customer.customerId c2) (queues w) with
               | Some (j, queueEntry) => AwaitQueueSave c2 j (Queue.complete t4 queueEntry)
               | None => Responded (res_verified c2)
               end)
              (Responded (res_verified c2)) n t5 w4 I)
    as (w5 & _ & ->).
  { intros w' _.
    destruct (Queue.findOne_active _ (queues w)) as [[j queueEntry]|]; auto. }
  exists w5. reflexivity.
Qed.

End Properties.

(** ** The reference reader inverts the reference printer *)

Module JSONTextFacts.
Import JSONText.

Lemma list_ascii_of_string_app (a b : string) :
  list_ascii_of_string (a ++ b) = (list_ascii_of_string a ++ list_ascii_of_string b)%list.
Proof. induction a as [|c a IH]; [reflexivity|]. simpl. rewrite IH. reflexivity. Qed.

Lemma read_digits_stop rest :
  no_digit_ahead rest -> read_digits rest = (Decimal.Nil, rest).
Proof. destruct rest as [|c rest]; [reflexivity|]. cbn. intros ->. reflexivity. Qed.

Lemma read_digits_numeral d rest :
  no_digit_ahead rest ->
  read_digits (list_ascii_of_string (NilEmpty.string_of_uint d) ++ rest)%list = (d, rest).
Proof.
  intros Hrest. induction d; cbn [NilEmpty.string_of_uint list_ascii_of_string app];
    [apply read_digits_stop, Hrest | ..];
    cbn [read_digits]; change (is_digit _) with true; cbn iota; rewrite IHd; reflexivity.
Qed.

Lemma to_uint_normal p : Decimal.unorm (Pos.to_uint p) = Pos.to_uint p.
Proof.
  rewrite <- (DecimalPos.Unsigned.to_of (Pos.to_uint p)), DecimalPos.Unsigned.of_to.
  reflexivity.
Qed.

Lemma print_Z_pos p : print_Z (Z.pos p) = NilEmpty.string_of_uint (Pos.to_uint p).
Proof.
  unfold print_Z. cbn. pose proof (DecimalPos.Unsigned.to_uint_nonnil p) as H.
  destruct (Pos.to_uint p); [contradiction | reflexivity ..].
Qed.

Lemma numeral_starts_with_digit d :
  d <> Decimal.Nil ->
  exists c s, NilEmpty.string_of_uint d = String c s /\ is_digit c = true.
Proof. destruct d; [contradiction | intros _; eexists _, _; split; reflexivity ..]. Qed.


Lemma Qred_inject_Z z : Qred (inject_Z z) = inject_Z z.
Proof. apply Qred_identity. cbn. apply Z.gcd_1_r. Qed.

Lemma read_frac_none rest : number_ends rest -> read_frac rest = Some (0, O, rest).
Proof.
  destruct rest as [|c rest]; [reflexivity|]. intros (_ & H & _).
  unfold read_frac. destruct c as [[] [] [] [] [] [] [] []]; try reflexivity. contradiction.
Qed.

Lemma read_exp_none rest : number_ends rest -> read_exp rest = Some (0, rest).
Proof.
  destruct rest as [|c rest]; [reflexivity|]. intros (_ & _ & H1 & H2).
  unfold read_exp. destruct c as [[] [] [] [] [] [] [] []]; try reflexivity; contradiction.
Qed.

Lemma read_number_print_Z p rest :
  number_ends rest ->
  read_number (list_ascii_of_string (print_Z (Z.pos p)) ++ rest)%list
  = Some (inject_Z (Z.pos p), rest).
Proof.
  intros Hrest. rewrite print_Z_pos.
  assert (Hnd : no_digit_ahead rest).
  { destruct rest; [exact I|]. apply Hrest. }
  unfold read_number.
  destruct (numeral_starts_with_digit _ (DecimalPos.Unsigned.to_uint_nonnil p))
    as (c & s & Hs & Hc).
  assert (Hsign : read_sign (list_ascii_of_string (NilEmpty.string_of_uint (Pos.to_uint p))
                             ++ rest)%list
                  = (false, (list_ascii_of_string (NilEmpty.string_of_uint (Pos.to_uint p))
                             ++ rest)%list)).
  { rewrite Hs. cbn [list_ascii_of_string app]. unfold read_sign.
    destruct c as [[] [] [] [] [] [] [] []]; try reflexivity; discriminate Hc. }
  rewrite Hsign. unfold read_int. rewrite (read_digits_numeral _ _ Hnd).
  rewrite to_uint_normal.
  destruct (Decimal.uint_eq_dec (Pos.to_uint p) (Pos.to_uint p)) as [_|Hne];
    [|contradiction].
  rewrite (read_frac_none _ Hrest), (read_exp_none _ Hrest).
  unfold Z.of_uint. rewrite DecimalPos.Unsigned.of_to. cbn [Z.of_N].
  unfold scale10. cbn [Z.leb Z.compare Nat.pow Pos.of_nat].
  change (0 # Pos.of_nat 1) with 0%Q. change (inject_Z (10 ^ 0)) with 1%Q.
  rewrite (Qred_complete _ _ (Qplus_0_r (inject_Z (Z.pos p)))), Qred_inject_Z.
  rewrite (Qred_complete _ _ (Qmult_1_r (inject_Z (Z.pos p)))), Qred_inject_Z.
  reflexivity.
Qed.


Lemma read_string_escape_char c tail :
  read_string (list_ascii_of_string (escape_char c) ++ tail)%list
  = cons_char c (read_string tail).
Proof. destruct c as [[] [] [] [] [] [] [] []]; reflexivity. Qed.

Lemma read_string_escape s rest :
  read_string (list_ascii_of_string (escape s) ++ dquote :: rest)%list = Some (s, rest).
Proof.
  induction s as [|c s IH]; [reflexivity|].
  cbn [escape]. rewrite list_ascii_of_string_app, <- app_assoc.
  rewrite read_string_escape_char, IH. reflexivity.
Qed.


Lemma print_number_inject_Z z : print_number (inject_Z z) = print_Z z.
Proof. reflexivity. Qed.

Lemma read_value_string f s rest :
  read_value (S f) (dquote :: list_ascii_of_string (escape s) ++ dquote :: rest)%list
  = Some (JStr s, rest).
Proof.
  cbn [read_value]. change (skip_ws (dquote :: ?l)) with (dquote :: l).
  change (Ascii.eqb dquote dquote) with true. cbv iota beta.
  unfold dquote at 1. unfold ascii_of_nat, ascii_of_pos. cbn [Pos.of_succ_nat Pos.succ].
  cbv iota beta. fold dquote.
  change (Ascii.eqb _ dquote) with true. cbv iota.
  rewrite read_string_escape. reflexivity.
Qed.


Lemma read_value_number f p rest :
  number_ends rest ->
  read_value (S f) (list_ascii_of_string (print_Z (Z.pos p)) ++ rest)%list
  = Some (JNum (inject_Z (Z.pos p)), rest).
Proof.
  intros Hrest. pose proof (read_number_print_Z p rest Hrest) as Hnum.
  rewrite print_Z_pos in *.
  destruct (numeral_starts_with_digit _ (DecimalPos.Unsigned.to_uint_nonnil p))
    as (c & s & Hs & Hc).
  rewrite Hs in *. cbn [list_ascii_of_string app] in *.
  set (tail := (list_ascii_of_string s ++ rest)%list) in *. clearbody tail.
  destruct c as [[] [] [] [] [] [] [] []]; try discriminate Hc;
    lazy -[read_number]; rewrite Hnum; reflexivity.
Qed.

Lemma read_members_more f key l v rest kvs rest' :
  read_value f l = Some (v, ","%char :: rest) ->
  read_members f rest = Some (kvs, rest') ->
  read_members (S f) (dquote :: list_ascii_of_string (escape key)
                             ++ dquote :: ":"%char :: l)%list
  = Some ((key, v) :: kvs, rest').
Proof.
  intros Hv Hm. cbn [read_members]. change (skip_ws (dquote :: ?x)) with (dquote :: x).
  change (Ascii.eqb dquote dquote) with true. cbn [negb].
  rewrite read_string_escape.
  change (skip_ws (":"%char :: l)) with (":"%char :: l). cbv iota beta.
  rewrite Hv. change (skip_ws (","%char :: rest)) with (","%char :: rest). cbv iota beta.
  rewrite Hm. reflexivity.
Qed.

Lemma read_members_last f key l v rest :
  read_value f l = Some (v, "}"%char :: rest) ->
  read_members (S f) (dquote :: list_ascii_of_string (escape key)
                             ++ dquote :: ":"%char :: l)%list
  = Some ([(key, v)], rest).
Proof.
  intros Hv. cbn [read_members]. change (skip_ws (dquote :: ?x)) with (dquote :: x).
  change (Ascii.eqb dquote dquote) with true. cbn [negb].
  rewrite read_string_escape.
  change (skip_ws (":"%char :: l)) with (":"%char :: l). cbv iota beta.
  rewrite Hv. change (skip_ws ("}"%char :: rest)) with ("}"%char :: rest). cbv iota beta.
  reflexivity.
Qed.

Lemma read_value_object f l kvs rest :
  read_members f (dquote :: l) = Some (kvs, rest) ->
  read_value (S f) ("{"%char :: dquote :: l) = Some (JObj kvs, rest).
Proof.
  intros Hm. cbn [read_value]. change (skip_ws ("{"%char :: ?x)) with ("{"%char :: x).
  cbv iota beta. change (skip_ws (dquote :: ?x)) with (dquote :: x).
  unfold dquote at 1. unfold ascii_of_nat, ascii_of_pos. cbn [Pos.of_succ_nat Pos.succ].
  cbv iota beta. fold dquote. rewrite Hm. reflexivity.
Qed.


Lemma payload_text id p ts :
  list_ascii_of_string (stringify (qrPayloadObject id (Z.pos p) ts))
  = ("{"%char :: dquote :: list_ascii_of_string (escape "customerId")
       ++ dquote :: ":"%char :: dquote :: list_ascii_of_string (escape id)
       ++ dquote :: ","%char :: dquote :: list_ascii_of_string (escape "queueNumber")
       ++ dquote :: ":"%char :: list_ascii_of_string (print_Z (Z.pos p))
       ++ ","%char :: dquote :: list_ascii_of_string (escape "timestamp")
       ++ dquote :: ":"%char :: dquote :: list_ascii_of_string (escape ts)
       ++ dquote :: ["}"%char])%list.
Proof.
  unfold qrPayloadObject. cbn [stringify map fst snd join_with_commas fold_left].
  rewrite print_number_inject_Z. unfold print_string.
  repeat (rewrite ?list_ascii_of_string_app; cbn [list_ascii_of_string String.append]).
  repeat (rewrite <- ?app_assoc; cbn [app]). reflexivity.
Qed.

(** The reference reader inverts the reference printer on every payload
    object with a positive queue number, whatever the identifier and the
    timestamp are. *)
Lemma parse_stringify_payload id p ts :
  parse (stringify (qrPayloadObject id (Z.pos p) ts))
  = Some (qrPayloadObject id (Z.pos p) ts).
Proof.
  unfold parse. rewrite payload_text.
  set (text := (_ :: _ :: _)%list).
  assert (Hfuel : exists f, (2 * length text + 2 = S (S (S (S (S f)))))%nat).
  { assert (2 <= length text)%nat by (subst text; cbn [length]; lia).
    exists (2 * length text + 2 - 5)%nat. lia. }
  destruct Hfuel as [f ->]. subst text.
  rewrite (read_value_object _ _
             [("customerId", JStr id); ("queueNumber", JNum (inject_Z (Z.pos p)));
              ("timestamp", JStr ts)] []); [reflexivity|].
  eapply read_members_more; [apply read_value_string|].
  eapply read_members_more; [apply read_value_number; repeat split; discriminate|].
  eapply read_members_last. apply read_value_string.
Qed.

(** With the reference reader and printer, [decodeQRData] returns what
    [generateQRCode] encoded, for every well-formed identifier, positive
    queue number and timestamp. *)
Lemma reference_codec_roundtrip id p ts :
  customerId_format id = true ->
  decodeQRData parse (qrPayload stringify id (Z.pos p) ts)
  = inl (qrPayloadObject id (Z.pos p) ts).
Proof.
  intros Hid. apply decodeQRData_ok. split; [apply parse_stringify_payload|].
  exists id, (inject_Z (Z.pos p)). repeat split; [exact Hid|].
  change 1%Q with (inject_Z 1). rewrite <- Zle_Qle. lia.
Qed.

End JSONTextFacts.

(** ** Further properties of the code

    What follows goes beyond the statements of the specification: the
    handlers and helpers around the queue core, and what the code itself
    guarantees about them. *)

(** *** The life of a customer document *)

Section Lifecycle.

Variable JSON_parse : string -> option json.


Lemma alter_one_step (f : Customer.doc -> Customer.doc) i (c : list Customer.doc) d :
  c !! i = Some d -> transition d (f d) ->
  Forall2 (fun d d' => d' = d \/ transition d d') c (alter f i c).
Proof.
  revert i. induction c as [|x c IH]; intros [|i] Hi Ht; simpl in *; try discriminate.
  - injection Hi as ->. constructor; [by right|].
    apply Forall2_same_length_lookup_2; [done|].
    intros k a b Ha Hb. rewrite Ha in Hb. injection Hb as ->. by left.
  - constructor; [by left|]. by apply IH.
Qed.

Lemma no_step (c : list Customer.doc) :
  Forall2 (fun d d' => d' = d \/ transition d d') c c.
Proof. induction c; constructor; auto. Qed.

Lemma completeBilling_one_step w customerId now :
  Forall2 (fun d d' => d' = d \/ transition d d')
          (customers w) (customers (snd (completeBilling w customerId now))).
Proof.
  unfold completeBilling.
  destruct (Customer.findOne customerId (customers w)) as [[i c]|] eqn:Hf;
    [|apply no_step].
  apply findOne_Some in Hf as [Hi _].
  repeat case_bool_decide; simpl; try apply no_step.
  unfold Customer.save_billed.
  apply alter_one_step with (d := c); [done|].
  apply (billed_at c now). by destruct (Customer.status c).
Qed.

Lemma undoBilling_one_step w customerId :
  Forall2 (fun d d' => d' = d \/ transition d d')
          (customers w) (customers (snd (undoBilling w customerId))).
Proof.
  unfold undoBilling.
  destruct (Customer.findOne customerId (customers w)) as [[i c]|] eqn:Hf;
    [|apply no_step].
  apply findOne_Some in Hf as [Hi _].
  case_bool_decide; simpl; try apply no_step.
  unfold Customer.save_billed.
  apply alter_one_step with (d := c); [done|].
  by apply billing_undone.
Qed.

Lemma findOne_value_Some v c i d :
  Customer.findOne_value v c = Some (i, d) -> c !! i = Some d.
Proof.
  destruct v as [[]|]; simpl; try discriminate. intros H. by apply findOne_Some in H as [? _].
Qed.

Lemma verify_checks_None customer queueNumber :
  verify_checks customer queueNumber = None -> Customer.status customer = BILLED.
Proof.
  unfold verify_checks. destruct (strict_neq_number _ _); [discriminate|].
  repeat case_bool_decide; simpl; try discriminate; done.
Qed.

Lemma verifyQRCode_one_step w qrData t1 t2 :
  Forall2 (fun d d' => d' = d \/ transition d d')
          (customers w) (customers (snd (verifyQRCode JSON_parse w qrData t1 t2))).
Proof.
  unfold verifyQRCode.
  destruct (qrData_missing qrData); [apply no_step|].
  destruct (decodeQRData JSON_parse (default "" qrData)) as [decoded|e];
    [|apply no_step].
  destruct (bind (get_property decoded "customerId") _) as [[customerId queueNumber]|e];
    [|apply no_step].
  destruct (Customer.findOne_value customerId (customers w)) as [[i c]|] eqn:Hf;
    [|apply no_step].
  apply findOne_value_Some in Hf.
  destruct (verify_checks c queueNumber) eqn:Hc; [apply no_step|].
  apply verify_checks_None in Hc.
  assert (Forall2 (fun d d' => d' = d \/ transition d d') (customers w)
                  (Customer.save_verified i (Customer.markAsVerified t1 c) (customers w))).
  { unfold Customer.save_verified. apply alter_one_step with (d := c); [done|].
    by apply (verified_at c t1). }
  cbn zeta. simpl queues. simpl customers.
  destruct (Queue.findOne_active _ _) as [[j e]|]; simpl; done.
Qed.

(** One element of a bulk request verifies a BILLED customer or changes
    nothing. *)
Lemma bulk_verify_one_step now c qrData :
  Forall2 (fun d d' => d' = d
                       \/ (Customer.status d = BILLED /\ d' = Customer.markAsVerified now d))
          c (snd (bulk_verify_one JSON_parse now c qrData)).
Proof.
  assert (Hrefl : forall l : list Customer.doc,
             Forall2 (fun d d' => d' = d
                                  \/ (Customer.status d = BILLED
                                      /\ d' = Customer.markAsVerified now d)) l l).
  { induction l; constructor; auto. }
  unfold bulk_verify_one.
  destruct (bind (decodeQRData JSON_parse qrData) _) as [customerId|e]; [|apply Hrefl].
  destruct (Customer.findOne_value customerId c) as [[i d]|] eqn:Hf; [|apply Hrefl].
  apply findOne_value_Some in Hf.
  case_bool_decide as Hs; simpl; [|apply Hrefl].
  unfold Customer.save_verified.
  apply Forall2_same_length_lookup_2; [by rewrite length_alter|].
  intros k a b Ha Hb. destruct (decide (k = i)) as [->|Hne].
  - rewrite list_lookup_alter_eq, Ha in Hb. simpl in Hb. injection Hb as <-.
    rewrite Ha in Hf. injection Hf as ->. by right.
  - rewrite list_lookup_alter_ne, Ha in Hb by done. injection Hb as ->. by left.
Qed.

Lemma bulk_verify_from_one_step clock qrDataArray : forall k c,
  Forall2 (fun d d' => d' = d
                       \/ exists t, Customer.status d = BILLED
                                    /\ d' = Customer.markAsVerified t d)
          c (snd (bulk_verify_from JSON_parse clock k c qrDataArray)).
Proof.
  induction qrDataArray as [|qrData rest IH]; intros k c; simpl.
  - induction c; constructor; auto.
  - pose proof (bulk_verify_one_step (clock k) c qrData) as H1.
    destruct (bulk_verify_one JSON_parse (clock k) c qrData) as [result c1].
    specialize (IH (S k) c1).
    destruct (bulk_verify_from JSON_parse clock (S k) c1 rest) as [results c2].
    simpl in *. clear result results.
    revert c2 IH. induction H1 as [|x y a b Hxy Hab IHab]; intros c2 H2.
    + by inversion H2.
    + inversion H2 as [|? z ? c2' Hyz Hbc]; subst. constructor; [|by apply IHab].
      destruct Hxy as [->|[Hs ->]]; [done|].
      destruct Hyz as [->|(t & Hs' & _)]; [by right; exists (clock k)|].
      simpl in Hs'. discriminate.
Qed.

Lemma bulkVerifyQRCodes_one_step w qrDataArray clock :
  Forall2 (fun d d' => d' = d \/ transition d d')
          (customers w) (customers (snd (bulkVerifyQRCodes JSON_parse w qrDataArray clock))).
Proof.
  unfold bulkVerifyQRCodes. destruct qrDataArray as [[|x l]|]; try apply no_step.
  pose proof (bulk_verify_from_one_step clock (x :: l) 0%nat (customers w)) as H.
  destruct (bulk_verify_from JSON_parse clock 0 (customers w) (x :: l)) as [results c].
  simpl in *. eapply Forall2_impl; [exact H|].
  intros d d' [->|(t & Hs & ->)]; [by left|right; by apply verified_at].
Qed.

Lemma handle_one_step w r :
  Forall2 (fun d d' => d' = d \/ transition d d')
          (customers w) (customers (handle JSON_parse w r)).
Proof.
  destruct r; simpl.
  - apply completeBilling_one_step.
  - apply undoBilling_one_step.
  - apply verifyQRCode_one_step.
  - apply bulkVerifyQRCodes_one_step.
Qed.

Lemma Forall2_rtc_trans (a b c : list Customer.doc) :
  Forall2 (rtc transition) a b -> Forall2 (rtc transition) b c ->
  Forall2 (rtc transition) a c.
Proof.
  intros Hab. revert c. induction Hab as [|x y a b Hxy Hab IH]; intros c Hbc.
  - by inversion Hbc.
  - inversion Hbc as [|? z ? c' Hyz Hbc']; subst. constructor.
    + by etrans.
    + by apply IH.
Qed.

Lemma handle_all_transitions rs : forall w,
  Forall2 (rtc transition) (customers w) (customers (handle_all JSON_parse rs w)).
Proof.
  induction rs as [|r rs IH]; intros w; simpl.
  - induction (customers w); constructor; done.
  - eapply Forall2_rtc_trans; [|apply IH].
    eapply Forall2_impl; [apply handle_one_step|].
    intros d d' [->|H]; [done|by apply rtc_once].
Qed.

Lemma transition_from_verified d d' :
  rtc transition d d' -> Customer.status d = VERIFIED -> d' = d.
Proof.
  intros H Hs. induction H as [|x y z Hxy _ _]; [done|].
  inversion Hxy; subst; congruence.
Qed.

Lemma transition_identity d d' :
  rtc transition d d' ->
  Customer.customerId d' = Customer.customerId d
  /\ Customer.name d' = Customer.name d
  /\ Customer.phone d' = Customer.phone d
  /\ Customer.cartTotal d' = Customer.cartTotal d
  /\ Customer.queueNumber d' = Customer.queueNumber d
  /\ Customer.qrCode d' = Customer.qrCode d.
Proof.
  intros H. induction H as [|x y z Hxy _ IH]; [done|].
  inversion Hxy; subst; simpl in IH; done.
Qed.

Lemma transition_timestamps d d' :
  rtc transition d d' -> timestamps_follow_status d -> timestamps_follow_status d'.
Proof.
  intros H. induction H as [|x y z Hxy _ IH]; [done|].
  intros Hx. apply IH. clear IH.
  unfold timestamps_follow_status in *.
  inversion Hxy as [d0 t Hs|d0 Hs|d0 t Hs]; subst; rewrite Hs in Hx; simpl;
    destruct Hx; repeat split; congruence.
Qed.

(** X6 ([completeBilling], [undoBilling], [verifyQRCode],
    [bulkVerifyQRCodes]): VERIFIED is final.  Whatever billing, undo,
    verification and bulk verification requests are handled one after the
    other, the document of a customer that is VERIFIED stays exactly as it
    is. *)
Theorem verified_is_final rs w i d :
  customers w !! i = Some d ->
  Customer.status d = VERIFIED ->
  customers (handle_all JSON_parse rs w) !! i = Some d.
Proof.
  intros Hi Hs.
  pose proof (handle_all_transitions rs w) as H.
  destruct (Forall2_lookup_l _ _ _ _ _ H Hi) as (d' & Hi' & Hr).
  by rewrite Hi', (transition_from_verified _ _ Hr Hs).
Qed.

(** X8 ([completeBilling], [undoBilling], [verifyQRCode],
    [bulkVerifyQRCodes]): these requests neither add nor remove a customer,
    and they never change the identifier, the name, the phone number, the
    cart total, the queue number or the QR code of one: only the status and
    the two time stamps move. *)
Theorem queue_number_and_identity_never_change rs w i d :
  customers w !! i = Some d ->
  length (customers (handle_all JSON_parse rs w)) = length (customers w)
  /\ exists d', customers (handle_all JSON_parse rs w) !! i = Some d'
                /\ Customer.customerId d' = Customer.customerId d
                /\ Customer.name d' = Customer.name d
                /\ Customer.phone d' = Customer.phone d
                /\ Customer.cartTotal d' = Customer.cartTotal d
                /\ Customer.queueNumber d' = Customer.queueNumber d
                /\ Customer.qrCode d' = Customer.qrCode d.
Proof.
  intros Hi.
  pose proof (handle_all_transitions rs w) as H. split.
  - symmetry. by eapply Forall2_length.
  - destruct (Forall2_lookup_l _ _ _ _ _ H Hi) as (d' & Hi' & Hr).
    exists d'. split; [done|]. by apply transition_identity.
Qed.

(** X9 ([markAsBilled], [undoBilling], [markAsVerified]): if every
    customer carries the time stamps that fit its status (none while
    WAITING, [billedAt] once BILLED, [billedAt] and [verifiedAt] once
    VERIFIED), this is still so after any sequence of billing, undo,
    verification and bulk verification requests. *)
Theorem timestamps_keep_following_status rs w :
  Forall timestamps_follow_status (customers w) ->
  Forall timestamps_follow_status (customers (handle_all JSON_parse rs w)).
Proof.
  intros Hw. pose proof (handle_all_transitions rs w) as H.
  induction H as [|x y a b Hxy Hab IH]; [done|].
  inversion Hw; subst. constructor; [by eapply transition_timestamps|by apply IH].
Qed.

(** X7 ([completeBilling], [undoBilling], [verifyQRCode],
    [bulkVerifyQRCodes]): one request moves a customer by at most one
    transition (billed, billing undone, verified), also a bulk request that
    names the customer several times; so a customer that is VERIFIED after
    a request was BILLED before it, or VERIFIED already and untouched:
    nobody leaves without having been billed. *)
Theorem no_exit_without_billing w r i d d' :
  customers w !! i = Some d ->
  customers (handle JSON_parse w r) !! i = Some d' ->
  (d' = d \/ transition d d')
  /\ (Customer.status d' = VERIFIED ->
      Customer.status d = BILLED \/ (Customer.status d = VERIFIED /\ d' = d)).
Proof.
  intros Hi Hi'.
  pose proof (handle_one_step w r) as H.
  destruct (Forall2_lookup_l _ _ _ _ _ H Hi) as (d2 & Hi2 & Hr).
  rewrite Hi' in Hi2. injection Hi2 as <-. split; [done|].
  intros Hv. destruct Hr as [->|Ht].
  - by right.
  - left. inversion Ht; subst; simpl in Hv; congruence.
Qed.

End Lifecycle.
(** *** Billing undone *)


(** *** Waiting time *)

Lemma getPosition_count n q :
  Queue.getPosition n q
  = Z.of_nat (length (filter (fun s => Queue.status s = ACTIVE /\ Queue.queueNumber s < n) q))
    + 1.
Proof.
  unfold Queue.getPosition. do 3 f_equal. apply list_filter_iff. intros s.
  rewrite andb_True, bool_decide_spec, Is_true_true, Z.ltb_lt. done.
Qed.

Lemma getEstimatedWaitTime_position k :
  0 <= k -> getEstimatedWaitTime (k + 1) = 3 * k.
Proof. intros Hk. unfold getEstimatedWaitTime. destruct (Z.leb_spec (k + 1) 1); lia. Qed.

(** X13 ([getCustomerById], [calculateQueuePosition],
    [getEstimatedWaitTime]): an unknown identifier gets 404.  For a
    customer that is not VERIFIED the position is 1 + the number of ACTIVE
    slots with a smaller queue number and the estimated wait is three
    minutes per such slot; with nobody ahead the estimate 0 is falsy and
    the text is 'N/A', the same text a VERIFIED customer gets (whose
    position is null). *)
Theorem customer_details_wait_text w customerId :
  (Customer.findOne customerId (customers w) = None ->
   d_code (getCustomerById w customerId) = 404
   /\ d_data (getCustomerById w customerId) = None)
  /\ forall i c,
      Customer.findOne customerId (customers w) = Some (i, c) ->
      let k := Z.of_nat (length (filter (fun s => Queue.status s = ACTIVE
                                                  /\ Queue.queueNumber s
                                                     < Customer.queueNumber c)
                                        (queues w))) in
      exists details,
        d_data (getCustomerById w customerId) = Some details
        /\ cd_queueNumber details = Customer.queueNumber c
        /\ (Customer.status c = VERIFIED ->
            cd_position details = None /\ cd_estimatedWaitTime details = "N/A")
        /\ (Customer.status c <> VERIFIED ->
            cd_position details = Some (k + 1)
            /\ (k = 0 -> cd_estimatedWaitTime details = "N/A")
            /\ (0 < k ->
                cd_estimatedWaitTime details = Number_toString (3 * k) ++ " minutes")).
Proof.
  split.
  - intros Hf. unfold getCustomerById. by rewrite Hf.
  - intros i c Hf k. unfold getCustomerById. rewrite Hf.
    eexists. split; [reflexivity|]. cbn [cd_queueNumber cd_position cd_estimatedWaitTime].
    split; [done|]. split.
    + intros Hs. by rewrite bool_decide_eq_true_2.
    + intros Hs. rewrite bool_decide_eq_false_2 by done. cbn [negb fmap option_fmap option_map].
      unfold calculateQueuePosition. rewrite getPosition_count. fold k.
      rewrite getEstimatedWaitTime_position by lia.
      split; [done|]. unfold estimatedWaitTime_text. split.
      * intros ->. done.
      * intros Hk. destruct (Z.eqb_spec (3 * k) 0); [lia|done].
Qed.
(** *** Sorted queries *)

#[local] Instance entry_order_trans : Transitive Customer.queueNumber_le.
Proof. unfold Customer.queueNumber_le. intros x y z. lia. Qed.

#[local] Instance entry_order_total : Total Customer.queueNumber_le.
Proof. unfold Customer.queueNumber_le. intros x y. lia. Qed.

#[local] Instance slot_order_trans : Transitive Queue.queueNumber_le.
Proof. unfold Queue.queueNumber_le. intros x y z. lia. Qed.

#[local] Instance slot_order_total : Total Queue.queueNumber_le.
Proof. unfold Queue.queueNumber_le. intros x y. lia. Qed.

(** [findOne().sort(...)]: the first document of a sorted result is a
    least one. *)
Lemma head_merge_sort_least {A} (R : relation A) `{!forall x y, Decision (R x y)}
      `{!Transitive R} `{!Total R} (l : list A) :
  match head (merge_sort R l) with
  | None => l = []
  | Some x => x ∈ l /\ forall y, y ∈ l -> R x y
  end.
Proof.
  pose proof (merge_sort_Permutation R l) as Hp.
  pose proof (StronglySorted_merge_sort R l) as Hs.
  destruct (merge_sort R l) as [|x s]; simpl.
  - by apply Permutation_nil in Hp.
  - split.
    + rewrite <- Hp. left.
    + intros y Hy. rewrite <- Hp in Hy. apply elem_of_cons in Hy as [->|Hy].
      * destruct (total R x x); done.
      * apply StronglySorted_inv in Hs as [_ Hall].
        rewrite Forall_forall in Hall. by apply Hall.
Qed.

Lemma filter_none {A} (P : A -> Prop) `{!forall x, Decision (P x)} (l : list A) :
  (forall x, x ∈ l -> ~ P x) -> filter P l = [].
Proof.
  induction l as [|a l IH]; intros Hl; [done|].
  rewrite filter_cons_False by (apply Hl; left).
  apply IH. intros x Hx. apply Hl. by right.
Qed.

(** X14 ([Queue.getNextToServe], [Queue.getPosition]): the slot served
    next is an ACTIVE slot of the collection that holds the least queue
    number among the ACTIVE ones, and [getPosition] puts it at position 1;
    there is none exactly when no slot is ACTIVE. *)
Theorem next_to_serve_is_first_in_line (q : Queue.collection) :
  match Queue.getNextToServe q with
  | None => forall s, s ∈ q -> Queue.status s <> ACTIVE
  | Some s =>
      s ∈ q /\ Queue.status s = ACTIVE
      /\ (forall s', s' ∈ q -> Queue.status s' = ACTIVE ->
                     Queue.queueNumber s <= Queue.queueNumber s')
      /\ Queue.getPosition (Queue.queueNumber s) q = 1
  end.
Proof.
  unfold Queue.getNextToServe, Queue.getActiveQueue, Queue.sort_queueNumber_asc.
  pose proof (head_merge_sort_least Queue.queueNumber_le
                (filter (fun d => Queue.status d = ACTIVE) q)) as H.
  destruct (head _) as [s|].
  - destruct H as [Hin Hmin]. apply list_elem_of_filter in Hin as [Hs Hin].
    assert (Hle : forall s', s' ∈ q -> Queue.status s' = ACTIVE ->
                             Queue.queueNumber s <= Queue.queueNumber s').
    { intros s' Hin' Hs'. apply (Hmin s'). by apply list_elem_of_filter. }
    repeat split; try done.
    rewrite getPosition_count.
    rewrite filter_none; [done|]. intros s' Hin' [Hs' Hlt].
    specialize (Hle s' Hin' Hs'). lia.
  - intros s Hin Hs.
    assert (s ∈ filter (fun d => Queue.status d = ACTIVE) q) as Hf
        by by apply list_elem_of_filter.
    rewrite H in Hf. by apply elem_of_nil in Hf.
Qed.

(** X15 ([getNextCustomerToServe], [getNextCustomer]): the next customer
    is a WAITING customer with the least queue number among the WAITING
    ones; 'Queue is empty' is answered exactly when no customer is WAITING,
    whether or not BILLED customers are still in the queue. *)
Theorem next_customer_is_earliest_waiting w :
  match n_data (getNextCustomer w) with
  | None =>
      n_message (getNextCustomer w) = Some "Queue is empty"
      /\ forall d, d ∈ customers w -> Customer.status d <> WAITING
  | Some x =>
      n_message (getNextCustomer w) = None
      /\ exists d, d ∈ customers w
                   /\ x = Customer.select_listed d
                   /\ Customer.status d = WAITING
                   /\ forall d', d' ∈ customers w -> Customer.status d' = WAITING ->
                                 Customer.queueNumber d <= Customer.queueNumber d'
  end.
Proof.
  unfold getNextCustomer, getNextCustomerToServe, Customer.findOne_waiting_sorted,
    Customer.sort_queueNumber_asc.
  pose proof (head_merge_sort_least Customer.queueNumber_le
                (filter (fun d => Customer.status d = WAITING) (customers w))) as H.
  destruct (head _) as [d|]; simpl.
  - destruct H as [Hin Hmin]. apply list_elem_of_filter in Hin as [Hs Hin].
    split; [done|]. exists d. repeat split; try done.
    intros d' Hin' Hs'. apply (Hmin d'). by apply list_elem_of_filter.
  - split; [done|]. intros d Hin Hs.
    assert (d ∈ filter (fun d => Customer.status d = WAITING) (customers w)) as Hf
        by by apply list_elem_of_filter.
    rewrite H in Hf. by apply elem_of_nil in Hf.
Qed.
(** *** The current queue *)

Lemma active_in_waiting_or_billed d : Customer.in_waiting_or_billed d = true <-> active d.
Proof.
  unfold Customer.in_waiting_or_billed, active.
  destruct (Customer.status d); intuition congruence.
Qed.

Lemma find_active_sorted_Permutation c :
  Customer.find_active_sorted c ≡ₚ filter active c.
Proof.
  unfold Customer.find_active_sorted, Customer.sort_queueNumber_asc.
  rewrite merge_sort_Permutation.
  erewrite list_filter_iff; [done|]. apply active_in_waiting_or_billed.
Qed.

Lemma find_active_sorted_Sorted c :
  StronglySorted Z.le (Customer.queueNumber <$> Customer.find_active_sorted c).
Proof.
  unfold Customer.find_active_sorted, Customer.sort_queueNumber_asc.
  eapply StronglySorted_fmap; [|apply StronglySorted_merge_sort; apply _].
  done.
Qed.

Lemma count_active c :
  length (filter active c)
  = (length (filter (fun d => Customer.status d = WAITING) c)
     + length (filter (fun d => Customer.status d = BILLED) c))%nat.
Proof.
  induction c as [|d c IH]; [done|].
  rewrite !filter_cons.
  repeat case_decide; unfold active in *; simpl;
    first [lia | exfalso; destruct (Customer.status d); intuition congruence].
Qed.

Lemma count_by_status c :
  length c
  = (length (filter (fun d => Customer.status d = WAITING) c)
     + length (filter (fun d => Customer.status d = BILLED) c)
     + length (filter (fun d => Customer.status d = VERIFIED) c))%nat.
Proof.
  induction c as [|d c IH]; [done|].
  rewrite !filter_cons.
  repeat case_decide; simpl;
    first [lia | exfalso; destruct (Customer.status d); congruence].
Qed.

(** X16 ([getCurrentQueue]): the queue listed is sorted by queue number,
    holds exactly the WAITING and BILLED customers (each as often as the
    collection does) and no VERIFIED one, and its size is the
    [activeQueue] count of [Customer.getStatistics]. *)
Theorem current_queue_lists_active_in_order w :
  let (queue, queueSize) := getCurrentQueue w in
  StronglySorted Z.le (Customer.l_queueNumber <$> queue)
  /\ queue ≡ₚ Customer.select_listed <$> filter active (customers w)
  /\ (forall x, x ∈ queue -> Customer.l_status x <> VERIFIED)
  /\ queueSize = Customer.activeQueue (Customer.getStatistics (customers w)).
Proof.
  unfold getCurrentQueue. cbv zeta. repeat split.
  - rewrite <- list_fmap_compose. apply find_active_sorted_Sorted.
  - by rewrite find_active_sorted_Permutation.
  - intros x Hx. apply list_elem_of_fmap in Hx as (d & -> & Hd).
    rewrite find_active_sorted_Permutation in Hd.
    apply list_elem_of_filter in Hd as [[Hs|Hs] _]; simpl; congruence.
  - rewrite length_fmap, find_active_sorted_Permutation, count_active.
    unfold Customer.getStatistics, Customer.countDocuments_status. simpl. lia.
Qed.

(** X18 ([Customer.getStatistics]): the counts add up: total = waiting +
    billed + verified, and activeQueue = total - verified, which is the
    number of documents the active-queue query returns. *)
Theorem statistics_add_up c :
  let s := Customer.getStatistics c in
  Customer.total s = Customer.waiting s + Customer.billed s + Customer.verified s
  /\ Customer.activeQueue s = Customer.total s - Customer.verified s
  /\ Customer.activeQueue s = Z.of_nat (length (Customer.find_active_sorted c))
  /\ 0 <= Customer.waiting s /\ 0 <= Customer.billed s /\ 0 <= Customer.verified s.
Proof.
  unfold Customer.getStatistics, Customer.countDocuments_status. simpl.
  rewrite find_active_sorted_Permutation, count_active.
  pose proof (count_by_status c). lia.
Qed.

Lemma strictly_sorted_rank (l : list Z) : forall k n,
  StronglySorted Z.lt l -> l !! k = Some n ->
  length (filter (fun m => m < n) l) = k.
Proof.
  induction l as [|x l IH]; intros k n Hs Hk; [done|].
  apply StronglySorted_inv in Hs as [Hs Hall]. rewrite Forall_forall in Hall.
  destruct k as [|k]; simpl in Hk.
  - injection Hk as ->. rewrite filter_cons_False by lia.
    rewrite filter_none; [done|]. intros m Hm. specialize (Hall m Hm). lia.
  - assert (x < n) by (apply Hall; by eapply list_elem_of_lookup_2).
    rewrite filter_cons_True by done. simpl. f_equal. by apply IH.
Qed.

Lemma sorted_nodup_strict (l : list Z) :
  StronglySorted Z.le l -> NoDup l -> StronglySorted Z.lt l.
Proof.
  induction 1 as [|x l Hs IH Hall]; intros Hn; constructor.
  - apply IH. by apply NoDup_cons in Hn as [_ ?].
  - apply NoDup_cons in Hn as [Hx _]. rewrite Forall_forall in *.
    intros m Hm. specialize (Hall m Hm).
    assert (m <> x) by (intros ->; done). lia.
Qed.

Lemma count_ahead c (l : list Customer.doc) :
  length (filter (ahead_of c) l)
  = length (filter (fun m => m < Customer.queueNumber c)
                   (Customer.queueNumber <$> filter active l)).
Proof.
  induction l as [|d l IH]; [done|].
  rewrite (filter_cons active), (filter_cons (ahead_of c)).
  destruct (decide (active d)) as [Ha|Ha].
  - rewrite fmap_cons, filter_cons.
    repeat case_decide; simpl; first [lia | exfalso; unfold ahead_of in *; tauto].
  - rewrite decide_False by (unfold ahead_of; tauto). apply IH.
Qed.

Lemma unique_by_customerId (l : list Customer.doc) a b :
  NoDup (Customer.customerId <$> l) -> a ∈ l -> b ∈ l ->
  Customer.customerId a = Customer.customerId b -> a = b.
Proof.
  intros Hn Ha Hb E.
  apply list_elem_of_lookup in Ha as [i Hi]. apply list_elem_of_lookup in Hb as [j Hj].
  assert (i = j) as ->.
  { apply (NoDup_lookup _ i j (Customer.customerId a) Hn).
    - by rewrite list_lookup_fmap, Hi.
    - by rewrite list_lookup_fmap, Hj, E. }
  congruence.
Qed.

Lemma findOne_unique (l : list Customer.doc) d :
  NoDup (Customer.customerId <$> l) -> d ∈ l ->
  exists i, Customer.findOne (Customer.customerId d) l = Some (i, d).
Proof.
  intros Hn Hd. unfold Customer.findOne.
  destruct (list_find_elem_of (fun x => Customer.customerId x = Customer.customerId d) l d)
    as [[i d'] Hf]; [done..|].
  exists i. rewrite Hf. apply list_find_Some in Hf as (Hi & E & _).
  assert (d' = d) as ->; [|done].
  eapply unique_by_customerId; [done| |done|done]. by eapply list_elem_of_lookup_2.
Qed.

(** X17 ([getQueuePosition] against [getCurrentQueue]): when customer
    identifiers are unique and no two active customers share a queue
    number, the customer listed at index k of the current queue is told
    position k + 1, with k customers ahead. *)
Theorem position_is_rank_in_current_queue w k x :
  NoDup (Customer.customerId <$> customers w) ->
  NoDup (Customer.queueNumber <$> filter active (customers w)) ->
  fst (getCurrentQueue w) !! k = Some x ->
  p_data (getQueuePosition w (Customer.l_customerId x))
  = Some (Ranked (Customer.l_customerId x) (Customer.l_name x) (Customer.l_queueNumber x)
                 (Z.of_nat k + 1) (Customer.l_status x) (Z.of_nat k)).
Proof.
  intros Hids Hnums Hk. unfold getCurrentQueue in Hk. cbn [fst] in Hk.
  apply list_lookup_fmap_Some in Hk as (d & -> & Hk).
  assert (Hd : d ∈ filter active (customers w)).
  { rewrite <- find_active_sorted_Permutation. by eapply list_elem_of_lookup_2. }
  apply list_elem_of_filter in Hd as [Ha Hd].
  destruct (findOne_unique _ d Hids Hd) as [i Hf].
  unfold getQueuePosition. cbn [Customer.select_listed Customer.l_customerId Customer.l_name
                                Customer.l_queueNumber Customer.l_status].
  rewrite Hf. rewrite bool_decide_eq_false_2 by (destruct Ha; congruence).
  cbn [p_data]. rewrite countDocuments_active_lt_ahead, count_ahead.
  rewrite <- find_active_sorted_Permutation.
  rewrite (strictly_sorted_rank _ k (Customer.queueNumber d)); [done| |].
  - apply sorted_nodup_strict; [apply find_active_sorted_Sorted|].
    by rewrite find_active_sorted_Permutation.
  - by rewrite list_lookup_fmap, Hk.
Qed.
(** *** [validateQueueIntegrity] *)

Lemma gaps_after_nil rest : forall previous,
  gaps_after previous rest = [] <-> rest = seqZ (previous + 1) (Z.of_nat (length rest)).
Proof.
  induction rest as [|actual rest IH]; intros previous; simpl gaps_after.
  - by rewrite seqZ_nil.
  - rewrite seqZ_cons by (simpl; lia).
    replace (Z.pred (Z.of_nat (length (actual :: rest)))) with (Z.of_nat (length rest))
      by (simpl; lia).
    case_bool_decide as Hne.
    + split; [discriminate|]. intros E. injection E as E _. lia.
    + assert (actual = previous + 1) as -> by lia. rewrite IH.
      split; [intros E; f_equal; exact E|]. intros E. injection E as E. exact E.
Qed.

Lemma find_gaps_nil l :
  find_gaps l = [] <-> exists m, l = seqZ m (Z.of_nat (length l)).
Proof.
  destruct l as [|first rest]; simpl find_gaps.
  - split; [|done]. intros _. exists 0. by rewrite seqZ_nil.
  - rewrite gaps_after_nil. split.
    + intros E. exists first. rewrite seqZ_cons by (simpl; lia).
      replace (Z.pred (Z.of_nat (length (first :: rest)))) with (Z.of_nat (length rest))
        by (simpl; lia).
      f_equal. exact E.
    + intros [m E]. rewrite seqZ_cons in E by (simpl; lia).
      replace (Z.pred (Z.of_nat (length (first :: rest)))) with (Z.of_nat (length rest)) in E
        by (simpl; lia).
      injection E as -> E. exact E.
Qed.

Lemma sorted_numbers_Permutation c :
  Customer.queueNumber <$> Customer.sort_queueNumber_asc c ≡ₚ Customer.queueNumber <$> c.
Proof. unfold Customer.sort_queueNumber_asc. by rewrite merge_sort_Permutation. Qed.

Lemma sorted_numbers_Sorted c :
  StronglySorted Z.le (Customer.queueNumber <$> Customer.sort_queueNumber_asc c).
Proof.
  unfold Customer.sort_queueNumber_asc.
  eapply StronglySorted_fmap; [|apply StronglySorted_merge_sort; apply _]. done.
Qed.

Lemma seqZ_Sorted n : forall m, StronglySorted Z.le (seqZ m (Z.of_nat n)).
Proof.
  induction n as [|n IH]; intros m.
  - rewrite seqZ_nil by done. constructor.
  - rewrite seqZ_cons by lia.
    replace (Z.pred (Z.of_nat (S n))) with (Z.of_nat n) by lia.
    constructor; [apply IH|]. apply Forall_seqZ. lia.
Qed.

Lemma aggregate_duplicates_nil c :
  NoDup (Customer.queueNumber <$> c) -> aggregate_duplicates c = [].
Proof.
  intros Hn. unfold aggregate_duplicates. apply filter_none. intros n _ Hc.
  apply NoDup_ListNoDup in Hn.
  pose proof (proj1 (NoDup_count_occ Z.eq_dec _) Hn n). lia.
Qed.

(** X19 ([validateQueueIntegrity]): the report is valid exactly when the
    queue numbers of all customers, VERIFIED ones included, are m, m+1, ...,
    m+n-1 for some m, in some order; the numbering need not start at 1.  A
    duplicate always shows up as a gap as well, so the report is valid as
    soon as no gap is found. *)
Theorem queue_integrity_means_consecutive_numbers c :
  let report := validateQueueIntegrity c in
  (isValid report = true
   <-> exists m, Customer.queueNumber <$> c ≡ₚ seqZ m (Z.of_nat (length c)))
  /\ (gaps report = [] -> duplicates report = [])
  /\ totalCustomers report = Z.of_nat (length c).
Proof.
  assert (Hlen : length (Customer.queueNumber <$> Customer.sort_queueNumber_asc c)
                 = length c).
  { by rewrite (Permutation_length (sorted_numbers_Permutation c)), length_fmap. }
  assert (Hgap : find_gaps (Customer.queueNumber <$> Customer.sort_queueNumber_asc c) = []
                 -> exists m, Customer.queueNumber <$> c ≡ₚ seqZ m (Z.of_nat (length c))).
  { intros Hg. apply find_gaps_nil in Hg as [m E]. exists m.
    rewrite <- sorted_numbers_Permutation, E at 1. by rewrite Hlen. }
  assert (Hdup : (exists m, Customer.queueNumber <$> c ≡ₚ seqZ m (Z.of_nat (length c)))
                 -> aggregate_duplicates c = []).
  { intros [m E]. apply aggregate_duplicates_nil. rewrite E. apply NoDup_seqZ. }
  cbv zeta. unfold validateQueueIntegrity. cbn [isValid gaps duplicates totalCustomers].
  split; [|split].
  - rewrite andb_true_iff, !bool_decide_eq_true, !length_zero_iff_nil. split.
    + intros [_ Hg]. by apply Hgap.
    + intros Hc. split; [by apply Hdup|].
      destruct Hc as [m E]. apply find_gaps_nil. exists m. rewrite Hlen.
      apply (StronglySorted_unique Z.le).
      * apply sorted_numbers_Sorted.
      * apply seqZ_Sorted.
      * by rewrite sorted_numbers_Permutation.
  - intros Hg. by apply Hdup, Hgap.
  - by rewrite Hlen.
Qed.
(** *** [bulkVerifyQRCodes] *)

Section BulkProperties.

Variable JSON_parse : string -> option json.

Lemma count_status_alter (s : Status) (f : Customer.doc -> Customer.doc) (c : list Customer.doc) :
  forall i d, c !! i = Some d ->
  Customer.countDocuments_status s (alter f i c)
  = Customer.countDocuments_status s c
    - (if decide (Customer.status d = s) then 1 else 0)
    + (if decide (Customer.status (f d) = s) then 1 else 0).
Proof.
  unfold Customer.countDocuments_status.
  induction c as [|x c IH]; intros [|i] d Hi; simpl in Hi; try discriminate.
  - injection Hi as ->. clear IH.
    change (alter f 0%nat (d :: c)) with (f d :: c). rewrite !filter_cons.
    repeat case_decide; simpl length; lia.
  - specialize (IH i d Hi).
    change (alter f (S i) (x :: c)) with (x :: alter f i c). rewrite !filter_cons.
    repeat case_decide; simpl length; lia.
Qed.

(** What one element of the array does to the counts. *)
Lemma bulk_verify_one_counts now c qrData :
  let (result, c') := bulk_verify_one JSON_parse now c qrData in
  Customer.countDocuments_status BILLED c'
  = Customer.countDocuments_status BILLED c - (if is_BulkSuccess result then 1 else 0)
  /\ Customer.countDocuments_status VERIFIED c'
     = Customer.countDocuments_status VERIFIED c + (if is_BulkSuccess result then 1 else 0).
Proof.
  unfold bulk_verify_one.
  destruct (bind (decodeQRData JSON_parse qrData) _) as [customerId|e]; [|simpl; lia].
  destruct (Customer.findOne_value customerId c) as [[i d]|] eqn:Hf; [|simpl; lia].
  apply findOne_value_Some in Hf.
  case_bool_decide as Hs; [|simpl; lia].
  cbv zeta. cbn [is_BulkSuccess]. unfold Customer.save_verified.
  rewrite !(count_status_alter _ _ _ i d Hf). simpl. rewrite Hs. simpl.
  repeat case_decide; try congruence; lia.
Qed.

Lemma bulk_verify_from_counts clock qrDataArray : forall k c,
  let (results, c') := bulk_verify_from JSON_parse clock k c qrDataArray in
  length results = length qrDataArray
  /\ Customer.countDocuments_status BILLED c'
     = Customer.countDocuments_status BILLED c
       - Z.of_nat (length (filter (fun r => is_BulkSuccess r = true) results))
  /\ Customer.countDocuments_status VERIFIED c'
     = Customer.countDocuments_status VERIFIED c
       + Z.of_nat (length (filter (fun r => is_BulkSuccess r = true) results)).
Proof.
  induction qrDataArray as [|qrData rest IH]; intros k c; simpl.
  - lia.
  - pose proof (bulk_verify_one_counts (clock k) c qrData) as H1.
    destruct (bulk_verify_one JSON_parse (clock k) c qrData) as [result c1].
    specialize (IH (S k) c1).
    destruct (bulk_verify_from JSON_parse clock (S k) c1 rest) as [results c2].
    destruct H1 as [H1 H1'], IH as (IH1 & IH2 & IH3).
    rewrite filter_cons. simpl length.
    destruct (is_BulkSuccess result); case_decide; try congruence; simpl length; lia.
Qed.

Lemma success_or_failed (results : list BulkResult) :
  (length (filter (fun r => is_BulkSuccess r = true) results)
   + length (filter (fun r => is_BulkFailed r = true) results)
   <= length results)%nat.
Proof.
  induction results as [|r results IH]; [done|].
  rewrite !filter_cons. destruct r; simpl; repeat case_decide; simpl; try congruence; lia.
Qed.

(** X11 ([bulkVerifyQRCodes]): for a non-empty array the answer is 200
    with one result per element; successful + failed is at most the total
    (elements that fail to decode are in neither count); the number of
    successes is the number of customers that went from BILLED to VERIFIED,
    so a code listed twice succeeds at most once; the queue slots are not
    touched. *)
Theorem bulk_summary_counts w qrDataArray clock :
  qrDataArray <> [] ->
  let (r, w') := bulkVerifyQRCodes JSON_parse w (Some qrDataArray) clock in
  k_code r = 200
  /\ length (k_data r) = length qrDataArray
  /\ k_total r = Z.of_nat (length qrDataArray)
  /\ k_successful r + k_failed r <= k_total r
  /\ k_successful r
     = Customer.countDocuments_status BILLED (customers w)
       - Customer.countDocuments_status BILLED (customers w')
  /\ k_successful r
     = Customer.countDocuments_status VERIFIED (customers w')
       - Customer.countDocuments_status VERIFIED (customers w)
  /\ queues w' = queues w.
Proof.
  intros Hne. unfold bulkVerifyQRCodes.
  destruct qrDataArray as [|x l]; [done|].
  pose proof (bulk_verify_from_counts clock (x :: l) 0%nat (customers w)) as H.
  destruct (bulk_verify_from JSON_parse clock 0 (customers w) (x :: l)) as [results c].
  destruct H as (Hl & Hb & Hv).
  cbn [k_code k_data k_total k_successful k_failed customers queues].
  pose proof (success_or_failed results).
  repeat split; try done; lia.
Qed.

(** X12 ([bulkVerifyQRCodes] against [verifyQRCode]): a code that names a
    BILLED customer but carries another queue number is refused by
    [verifyQRCode] with DATA_MISMATCH and no write, while the bulk route
    accepts it: the customer becomes VERIFIED and the queue slots stay as
    they are. *)
Theorem bulk_verification_skips_number_check_and_slot w payload d id q i c clock t1 t2 :
  payload <> "" ->
  decodeQRData JSON_parse payload = inl d ->
  credential d = Some (id, q) ->
  Customer.findOne id (customers w) = Some (i, c) ->
  Customer.status c = BILLED ->
  ~ (inject_Z (Customer.queueNumber c) == q)%Q ->
  v_reason (fst (verifyQRCode JSON_parse w (Some payload) t1 t2)) = Some DATA_MISMATCH
  /\ snd (verifyQRCode JSON_parse w (Some payload) t1 t2) = w
  /\ let (r, w') := bulkVerifyQRCodes JSON_parse w (Some [payload]) clock in
     k_data r = [BulkSuccess id]
     /\ k_successful r = 1
     /\ customers w' !! i = Some (Customer.markAsVerified (clock 0%nat) c)
     /\ queues w' = queues w.
Proof.
  intros Hne Hd Hc Hf Hs Hq.
  pose proof (credential_properties _ _ _ Hc) as [Hid Hnum].
  pose proof (findOne_Some _ _ _ _ Hf) as [Hi Hcid].
  split; [|split].
  - rewrite (verifyQRCode_decoded JSON_parse w payload d id q t1 t2 Hne Hd Hc), Hf.
    unfold verify_checks, strict_neq_number.
    destruct (Qeq_bool (inject_Z (Customer.queueNumber c)) q) eqn:E; [|done].
    apply Qeq_bool_iff in E. contradiction.
  - rewrite (verifyQRCode_decoded JSON_parse w payload d id q t1 t2 Hne Hd Hc), Hf.
    unfold verify_checks, strict_neq_number.
    destruct (Qeq_bool (inject_Z (Customer.queueNumber c)) q) eqn:E; [|done].
    apply Qeq_bool_iff in E. contradiction.
  - unfold bulkVerifyQRCodes, bulk_verify_from, bulk_verify_one.
    rewrite Hd. cbn [bind]. rewrite Hid. cbn [Customer.findOne_value]. rewrite Hf.
    rewrite bool_decide_eq_true_2 by done.
    cbn [k_data k_successful customers queues Customer.customerId Customer.markAsVerified
         Customer.set_verifiedAt Customer.set_status].
    rewrite Hcid. repeat split; try done.
    unfold Customer.save_verified. rewrite list_lookup_alter_eq, Hi. done.
Qed.

End BulkProperties.
(** *** More on [verifyQRCode] *)

Section VerifyProperties.

Variable JSON_parse : string -> option json.

(** The paths of [verifyQRCode] while every database call is answered. *)
Lemma verifyQRCode_cases w qrData t1 t2 :
  let (r, w') := verifyQRCode JSON_parse w qrData t1 t2 in
  (v_code r = 200 /\ v_success r = true /\ v_verification r = Some SUCCESS
   /\ exists i c, customers w !! i = Some c
                  /\ Customer.status c = BILLED
                  /\ customers w' !! i = Some (Customer.markAsVerified t1 c)
                  /\ r = res_verified (Customer.markAsVerified t1 c))
  \/ (v_code r <> 200 /\ v_success r = false /\ v_verification r <> Some SUCCESS
      /\ w' = w).
Proof.
  unfold verifyQRCode.
  destruct (qrData_missing qrData); [right; by repeat split|].
  destruct (decodeQRData JSON_parse (default "" qrData)) as [decoded|e];
    [|right; by repeat split].
  destruct (bind (get_property decoded "customerId") _) as [[customerId queueNumber]|e];
    [|right; by repeat split].
  destruct (Customer.findOne_value customerId (customers w)) as [[i c]|] eqn:Hf;
    [|right; by repeat split].
  apply findOne_value_Some in Hf.
  destruct (verify_checks c queueNumber) as [r|] eqn:Hc.
  - right. unfold verify_checks in Hc.
    destruct (strict_neq_number _ _); [injection Hc as <-; by repeat split|].
    destruct (bool_decide (Customer.status c = VERIFIED));
      [injection Hc as <-; by repeat split|].
    destruct (negb _); [injection Hc as <-; by repeat split|discriminate].
  - apply verify_checks_None in Hc. cbv zeta. cbn [customers queues].
    assert (Hi : Customer.save_verified i (Customer.markAsVerified t1 c) (customers w) !! i
                 = Some (Customer.markAsVerified t1 c)) by by apply save_verified_lookup.
    destruct (Queue.findOne_active _ _) as [[j e]|]; left; cbn [fst snd customers];
      (repeat split; try done; exists i, c; by repeat split).
Qed.


(** X4 ([verifyQRCode]): a 200 answer is SUCCESS, and then a customer that
    was BILLED is stored as VERIFIED with the clock reading of
    [markAsVerified]; a 400 or a 404 answer has [success: false] and is sent
    before anything is written, so that the customers and the queue slots
    are as they were.  (Nothing is said of a 500 answer: it follows a
    rejected database call, which may come after the customer has been
    saved.) *)
Theorem verify_refusals_write_nothing w qrData t1 t2 :
  let (r, w') := verifyQRCode JSON_parse w qrData t1 t2 in
  (v_code r = 200 ->
   v_success r = true /\ v_verification r = Some SUCCESS
   /\ exists i c, customers w !! i = Some c
                  /\ Customer.status c = BILLED
                  /\ customers w' !! i = Some (Customer.markAsVerified t1 c)
                  /\ r = res_verified (Customer.markAsVerified t1 c))
  /\ (v_code r = 400 \/ v_code r = 404 ->
      v_success r = false /\ v_verification r <> Some SUCCESS /\ w' = w).
Proof.
  pose proof (verifyQRCode_cases w qrData t1 t2) as H.
  destruct (verifyQRCode JSON_parse w qrData t1 t2) as [r w'].
  destruct H as [(Hcode & Hs & Hv & Hw)|(Hcode & Hs & Hv & Hw)].
  - split; [done|]. intros [E|E]; rewrite Hcode in E; discriminate.
  - split; [done|]. by intros _.
Qed.

(** X5 ([verifyQRCode], [completeBilling]): the code of a WAITING
    customer is refused with 400 NOT_BILLED and [currentStatus] WAITING,
    nothing being written; once [completeBilling] has run for that
    customer the same code is verified. *)
Theorem verification_needs_billing_first w payload d id q i c now t1 t2 :
  payload <> "" ->
  decodeQRData JSON_parse payload = inl d ->
  credential d = Some (id, q) ->
  Customer.findOne id (customers w) = Some (i, c) ->
  (inject_Z (Customer.queueNumber c) == q)%Q ->
  Customer.status c = WAITING ->
  verifyQRCode JSON_parse w (Some payload) t1 t2 = (res_not_billed c, w)
  /\ v_code (res_not_billed c) = 400
  /\ v_reason (res_not_billed c) = Some NOT_BILLED
  /\ v_currentStatus (res_not_billed c) = Some WAITING
  /\ let w1 := snd (completeBilling w id now) in
     fst (verifyQRCode JSON_parse w1 (Some payload) t1 t2)
     = res_verified (Customer.markAsVerified t1 (Customer.markAsBilled now c)).
Proof.
  intros Hne Hd Hc Hf Hq Hs.
  pose proof (findOne_Some _ _ _ _ Hf) as [Hi Hid].
  split; [|split; [done|split; [done|split; [by rewrite <- Hs|]]]].
  - rewrite (verifyQRCode_decoded JSON_parse w payload d id q t1 t2 Hne Hd Hc), Hf.
    unfold verify_checks. rewrite strict_neq_number_false by done.
    rewrite bool_decide_eq_false_2 by congruence.
    rewrite bool_decide_eq_false_2 by congruence. done.
  - cbv zeta.
    rewrite (verifyQRCode_decoded JSON_parse _ payload d id q t1 t2 Hne Hd Hc).
    unfold completeBilling. rewrite Hf.
    rewrite !bool_decide_eq_false_2 by congruence. cbn [snd customers queues].
    unfold Customer.save_billed.
    erewrite findOne_alter; [|done|exact Hf].
    change (Customer.set_billedAt (Customer.billedAt (Customer.markAsBilled now c))
              (Customer.set_status (Customer.status (Customer.markAsBilled now c)) c))
      with (Customer.markAsBilled now c).
    rewrite verify_checks_billed by done.
    cbv zeta. by destruct (Queue.findOne_active _ _) as [[j e]|].
Qed.

End VerifyProperties.
(** *** [deleteCustomer] *)

Lemma count_delete {A} (P : A -> Prop) `{!forall x, Decision (P x)} (l : list A) :
  forall i d, l !! i = Some d ->
  Z.of_nat (length (filter P (delete i l)))
  = Z.of_nat (length (filter P l)) - (if decide (P d) then 1 else 0).
Proof.
  induction l as [|x l IH]; intros [|i] d Hi; simpl in Hi; try discriminate.
  - injection Hi as ->. change (delete 0%nat (d :: l)) with l. rewrite filter_cons.
    case_decide; simpl length; lia.
  - specialize (IH i d Hi).
    change (delete (S i) (x :: l)) with (x :: delete i l). rewrite !filter_cons.
    repeat case_decide; simpl length; lia.
Qed.

Lemma NoDup_ids_delete i (l : list Customer.doc) :
  NoDup (Customer.customerId <$> l) -> NoDup (Customer.customerId <$> delete i l).
Proof.
  intros Hn. rewrite list_fmap_delete. eapply sublist_NoDup; [done|apply sublist_delete].
Qed.

Lemma elem_of_delete_other (l : list Customer.doc) i d c :
  l !! i = Some d -> c ∈ l -> c <> d -> c ∈ delete i l.
Proof.
  intros Hi Hc Hne. rewrite delete_take_drop.
  rewrite <- (take_drop_middle l i d Hi) in Hc.
  rewrite elem_of_app, elem_of_cons in Hc. rewrite elem_of_app. tauto.
Qed.

Lemma deleted_id_is_gone (l : list Customer.doc) i d :
  NoDup (Customer.customerId <$> l) -> l !! i = Some d ->
  Customer.findOne (Customer.customerId d) (delete i l) = None.
Proof.
  intros Hn Hi. unfold Customer.findOne. apply list_find_None, Forall_forall.
  intros x Hx E.
  assert (x = d) as ->.
  { eapply unique_by_customerId; [done| |by eapply list_elem_of_lookup_2|done].
    by eapply list_elem_of_delete_inv. }
  rewrite delete_take_drop in Hx.
  rewrite <- (take_drop_middle l i d Hi), fmap_app, fmap_cons in Hn.
  apply NoDup_app in Hn as (_ & Hn1 & Hn2). apply NoDup_cons in Hn2 as [Hn2 _].
  apply elem_of_app in Hx as [Hx|Hx].
  - apply (Hn1 (Customer.customerId d)); [|left]. by apply list_elem_of_fmap_2.
  - apply Hn2. by apply list_elem_of_fmap_2.
Qed.

(** X20 ([deleteCustomer], [getQueuePosition]): with unique identifiers,
    an unknown identifier gets 404 and no write; otherwise the customer is
    removed, a second delete and a position query for it get 404, and every
    other active customer moves up by one place if the removed customer was
    active and ahead of it, and keeps its place if not. *)
Theorem delete_closes_the_queue w customerId :
  NoDup (Customer.customerId <$> customers w) ->
  (Customer.findOne customerId (customers w) = None ->
   deleteCustomer w customerId
   = (mkDeleteResponse 404 false "Customer not found" None, w))
  /\ forall i d,
      Customer.findOne customerId (customers w) = Some (i, d) ->
      let (r, w') := deleteCustomer w customerId in
      x_code r = 200
      /\ x_data r = Some (customerId, Customer.name d)
      /\ customers w' = delete i (customers w)
      /\ x_code (fst (deleteCustomer w' customerId)) = 404
      /\ p_code (getQueuePosition w' customerId) = 404
      /\ forall c, c ∈ customers w -> c <> d -> active c ->
           let k := Z.of_nat (length (filter (ahead_of c) (customers w))) in
           let k' := k - (if decide (ahead_of c d) then 1 else 0) in
           p_data (getQueuePosition w' (Customer.customerId c))
           = Some (Ranked (Customer.customerId c) (Customer.name c)
                          (Customer.queueNumber c) (k' + 1) (Customer.status c) k').
Proof.
  intros Hn. split.
  - intros Hf. unfold deleteCustomer, Customer.findOneAndDelete. by rewrite Hf.
  - intros i d Hf.
    pose proof (findOne_Some _ _ _ _ Hf) as [Hi Hid].
    unfold deleteCustomer at 1, Customer.findOneAndDelete. rewrite Hf.
    cbn [x_code x_data customers].
    assert (Hgone : Customer.findOne customerId (delete i (customers w)) = None).
    { rewrite <- Hid. by apply deleted_id_is_gone. }
    split; [done|]. split; [by rewrite Hid|]. split; [done|]. split.
    { unfold deleteCustomer, Customer.findOneAndDelete. cbn [customers]. by rewrite Hgone. }
    split.
    { unfold getQueuePosition. cbn [customers]. by rewrite Hgone. }
    intros c Hc Hne Ha.
    destruct (findOne_unique (delete i (customers w)) c) as [i' Hf'].
    { by apply NoDup_ids_delete. }
    { by eapply elem_of_delete_other. }
    unfold getQueuePosition. cbn [customers]. rewrite Hf'.
    rewrite bool_decide_eq_false_2 by (destruct Ha; congruence).
    cbn [p_data]. rewrite countDocuments_active_lt_ahead.
    rewrite (count_delete (ahead_of c) _ i d Hi). done.
Qed.
(** *** utils/customerIdGenerator.js *)

Lemma Number_toString_pos p :
  Number_toString (Z.pos p) = NilEmpty.string_of_uint (Pos.to_uint p).
Proof.
  unfold Number_toString. cbn. pose proof (DecimalPos.Unsigned.to_uint_nonnil p) as H.
  destruct (Pos.to_uint p); [contradiction | reflexivity ..].
Qed.

Lemma all_digits_numeral d : all_digits (NilEmpty.string_of_uint d) = true.
Proof. induction d; simpl; try done; by rewrite IHd. Qed.

Lemma all_digits_app a b : all_digits (a ++ b) = all_digits a && all_digits b.
Proof. induction a as [|c a IH]; [done|]. simpl. by rewrite IH, andb_assoc. Qed.

Lemma all_digits_zeros n : all_digits (string_of_list_ascii (replicate n "0"%char)) = true.
Proof. induction n as [|n IH]; [done|]. simpl. by rewrite IH. Qed.

Lemma all_digits_Number_toString n : 0 <= n -> all_digits (Number_toString n) = true.
Proof.
  intros Hn. destruct n as [|p|p]; [done| |lia].
  rewrite Number_toString_pos. apply all_digits_numeral.
Qed.

Lemma Number_toString_nonempty n : Number_toString n <> "".
Proof.
  destruct n as [|p|p]; [done| |].
  - rewrite Number_toString_pos. pose proof (DecimalPos.Unsigned.to_uint_nonnil p) as H.
    destruct (Pos.to_uint p); [contradiction | discriminate ..].
  - unfold Number_toString. simpl. discriminate.
Qed.

Lemma digits_from_positive d : forall acc,
  fold_left (fun n c => n * 10 + (Z.of_nat (nat_of_ascii c) - 48))
            (list_ascii_of_string (NilEmpty.string_of_uint d)) (Z.pos acc)
  = Z.pos (Pos.of_uint_acc d acc).
Proof.
  induction d; intros acc; cbn [NilEmpty.string_of_uint list_ascii_of_string fold_left
                                Pos.of_uint_acc]; [done|..];
    (etrans; [|apply IHd]); f_equal;
    match goal with
    | |- context [nat_of_ascii ?c] =>
        let v := eval vm_compute in (nat_of_ascii c) in change (nat_of_ascii c) with v
    end; lia.
Qed.

Lemma digits_from_zero d :
  fold_left (fun n c => n * 10 + (Z.of_nat (nat_of_ascii c) - 48))
            (list_ascii_of_string (NilEmpty.string_of_uint d)) 0
  = Z.of_N (Pos.of_uint d).
Proof.
  induction d; cbn [NilEmpty.string_of_uint list_ascii_of_string fold_left Pos.of_uint];
    [done|exact IHd|..];
    (etrans; [|apply (digits_from_positive d)]); f_equal.
Qed.

Lemma digits_zeros k : forall rest,
  fold_left (fun n c => n * 10 + (Z.of_nat (nat_of_ascii c) - 48))
            (list_ascii_of_string (string_of_list_ascii (replicate k "0"%char) ++ rest)) 0
  = fold_left (fun n c => n * 10 + (Z.of_nat (nat_of_ascii c) - 48))
              (list_ascii_of_string rest) 0.
Proof. induction k as [|k IH]; intros rest; [done|]. simpl. apply IH. Qed.

(** Reading back a printed number, padded or not. *)
Lemma parseInt_padStart n k :
  0 <= n -> parseInt_digits (padStart_zero k (Number_toString n)) = n.
Proof.
  intros Hn. unfold parseInt_digits, padStart_zero. rewrite digits_zeros.
  destruct n as [|p|p]; [done| |lia].
  rewrite Number_toString_pos, digits_from_zero, DecimalPos.Unsigned.of_to. done.
Qed.

Lemma String_length_app a b :
  String.length (a ++ b) = (String.length a + String.length b)%nat.
Proof. induction a as [|c a IH]; [done|]. simpl. by rewrite IH. Qed.

Lemma padStart_zero_digits n k :
  0 <= n ->
  all_digits (padStart_zero k (Number_toString n)) = true
  /\ padStart_zero k (Number_toString n) <> ""
  /\ (k <= String.length (padStart_zero k (Number_toString n)))%nat.
Proof.
  intros Hn. unfold padStart_zero. split; [|split].
  - by rewrite all_digits_app, all_digits_zeros, all_digits_Number_toString.
  - pose proof (Number_toString_nonempty n).
    destruct (string_of_list_ascii _); [done|discriminate].
  - rewrite String_length_app.
    assert (String.length (string_of_list_ascii
                             (replicate (k - String.length (Number_toString n)) "0"%char))
            = (k - String.length (Number_toString n))%nat) as ->.
    { generalize (k - String.length (Number_toString n))%nat. intros m.
      induction m as [|m IH]; simpl; [done|by rewrite IH]. }
    lia.
Qed.

Lemma match_SM_digits_format n :
  0 <= n ->
  match_SM_digits (format_customerId "SM" n) = Some (padStart_zero 4 (Number_toString n)).
Proof.
  intros Hn. destruct (padStart_zero_digits n 4 Hn) as (Hd & Hne & _).
  change (format_customerId "SM" n)
    with (String "S" (String "M" (String "-" (padStart_zero 4 (Number_toString n))))).
  cbn [match_SM_digits]. rewrite Hd.
  destruct (padStart_zero 4 (Number_toString n)); [done|]. done.
Qed.

Lemma strip_prefix_app p q s : strip_prefix (p ++ q) (p ++ s) = strip_prefix q s.
Proof. induction p as [|a p IH]; [done|]. simpl. by rewrite Ascii.eqb_refl. Qed.

Lemma customerId_format_match id :
  customerId_format id = true <-> is_Some (match_SM_digits id).
Proof.
  unfold customerId_format, match_SM_digits.
  do 3 (destruct id as [|[[] [] [] [] [] [] [] []] id];
        try (split; [discriminate|intros [? ?]; discriminate])).
  destruct (negb (String.eqb _ "") && all_digits _);
    split; try done; try discriminate; intros [? ?]; discriminate.
Qed.

(** An identifier made from a number that is not negative passes
    [isValidCustomerId] when the prefix is made of letters and digits; with
    the prefix [SM] it has the form the schema and [decodeQRData] ask for,
    and [extractCustomerNumber] gives the number back. *)
Lemma formatted_id_reads_back PREFIX n :
  0 <= n ->
  (plain_text PREFIX = true ->
   isValidCustomerId PREFIX (format_customerId PREFIX n) = Some true)
  /\ customerId_format (format_customerId "SM" n) = true
  /\ extractCustomerNumber (format_customerId "SM" n) = Some n.
Proof.
  intros Hn. destruct (padStart_zero_digits n 4 Hn) as (Hd & Hne & Hlen).
  split; [|split].
  - intros Hplain. unfold isValidCustomerId, format_customerId.
    rewrite Hplain, strip_prefix_app. f_equal.
    change (strip_prefix "-" ("-" ++ padStart_zero 4 (Number_toString n)))
      with (Some (padStart_zero 4 (Number_toString n))).
    cbv iota beta. rewrite Hd.
    apply andb_true_iff. split; [by apply Nat.leb_le|done].
  - apply customerId_format_match. rewrite match_SM_digits_format by done. by eexists.
  - unfold extractCustomerNumber. rewrite match_SM_digits_format by done. simpl.
    by rewrite parseInt_padStart.
Qed.
Lemma string_app_inv_head p a b : (p ++ a = p ++ b)%string -> a = b.
Proof. induction p as [|c p IH]; [done|]. simpl. intros E. injection E as E. by apply IH. Qed.

Lemma format_customerId_inj PREFIX n m :
  0 <= n -> 0 <= m -> format_customerId PREFIX n = format_customerId PREFIX m -> n = m.
Proof.
  intros Hn Hm E. unfold format_customerId in E.
  apply string_app_inv_head in E. apply (string_app_inv_head "-") in E.
  rewrite <- (parseInt_padStart n 4 Hn), <- (parseInt_padStart m 4 Hm). by rewrite E.
Qed.

(** X21 ([generateBatchCustomerIds], [isValidCustomerId],
    [extractCustomerNumber]): for a prefix of letters and digits, a start
    number that is not negative and a batch that ends within the safe
    integers (startFrom + count at most [MAX_SAFE_INTEGER]), the batch holds
    [count] identifiers, each accepted by [isValidCustomerId], no two the
    same; with the prefix [SM], [extractCustomerNumber] reads startFrom,
    startFrom + 1, ... back from them. *)
Theorem batch_ids_are_valid_and_distinct PREFIX count startFrom :
  plain_text PREFIX = true ->
  0 <= startFrom ->
  startFrom + Z.of_nat count <= MAX_SAFE_INTEGER ->
  exists ids,
    generateBatchCustomerIds PREFIX count startFrom = Some ids
    /\ length ids = count
    /\ Forall (fun id => isValidCustomerId PREFIX id = Some true) ids
    /\ NoDup ids
    /\ (PREFIX = "SM" ->
        extractCustomerNumber <$> ids = Some <$> seqZ startFrom (Z.of_nat count)).
Proof.
  intros Hplain Hs Hsafe. unfold generateBatchCustomerIds.
  assert (safe_integer (Z.of_nat count) && safe_integer startFrom
          && safe_integer (startFrom + Z.of_nat count) = true) as ->.
  { unfold safe_integer, MAX_SAFE_INTEGER in *.
    rewrite !andb_true_iff, !Z.leb_le. lia. }
  eexists. split; [reflexivity|]. split; [|split; [|split]].
  - by rewrite length_fmap, length_seq.
  - apply Forall_fmap, Forall_forall. intros i _. simpl.
    apply formatted_id_reads_back; [lia|done].
  - apply NoDup_fmap_2_strong; [|apply NoDup_seq].
    intros i j _ _ E. apply format_customerId_inj in E; lia.
  - intros ->. unfold seqZ. rewrite Nat2Z.id, <- !list_fmap_compose. apply list_fmap_ext.
    intros k i _. simpl.
    destruct (formatted_id_reads_back "SM" (startFrom + Z.of_nat i)) as (_ & _ & E); [lia|].
    rewrite E. f_equal. lia.
Qed.
(** *** [generateCustomerId] *)

Lemma StronglySorted_delete {A} (R : relation A) (l : list A) : forall i,
  StronglySorted R l -> StronglySorted R (delete i l).
Proof.
  induction l as [|x l IH]; intros [|i] Hs; try done.
  - by apply StronglySorted_inv in Hs as [? _].
  - apply StronglySorted_inv in Hs as [Hs Hall].
    change (delete (S i) (x :: l)) with (x :: delete i l). constructor; [by apply IH|].
    rewrite Forall_forall in *. intros y Hy. apply Hall. by eapply list_elem_of_delete_inv.
Qed.

Lemma number_of_member (c : list Customer.doc) (numbers : list Z) x :
  extractCustomerNumber <$> (Customer.customerId <$> c) = Some <$> numbers ->
  x ∈ c -> exists n, n ∈ numbers /\ extractCustomerNumber (Customer.customerId x) = Some n.
Proof.
  intros E Hx. apply list_elem_of_lookup in Hx as [i Hi].
  assert (H : (extractCustomerNumber <$> (Customer.customerId <$> c)) !! i
              = Some (extractCustomerNumber (Customer.customerId x))).
  { by rewrite !list_lookup_fmap, Hi. }
  rewrite E, list_lookup_fmap in H.
  destruct (numbers !! i) as [n|] eqn:Hn; [|discriminate].
  exists n. split; [by eapply list_elem_of_lookup_2|]. simpl in H. congruence.
Qed.

Lemma generateCustomerId_number START_NUMBER (c : list Customer.doc) (numbers : list Z) :
  0 <= START_NUMBER ->
  extractCustomerNumber <$> (Customer.customerId <$> c) = Some <$> numbers ->
  StronglySorted Z.lt numbers ->
  Forall (fun n => 0 <= n) numbers ->
  exists next,
    generateCustomerId "SM" START_NUMBER c = format_customerId "SM" next
    /\ 0 <= next
    /\ forall n, n ∈ numbers -> n < next.
Proof.
  intros Hs E Hsorted Hpos. unfold generateCustomerId, findOne_sort_createdAt_desc.
  destruct (last c) as [d|] eqn:Hlast.
  - apply last_Some in Hlast as [c0 ->].
    rewrite !fmap_app in E. simpl in E. symmetry in E.
    apply fmap_app_inv in E as (ns0 & ns1 & E0 & E1 & ->).
    destruct ns1 as [|m [|? ?]]; try discriminate. injection E1 as E1.
    unfold extractCustomerNumber in E1.
    destruct (match_SM_digits (Customer.customerId d)) as [digits|] eqn:Hm; [|discriminate].
    injection E1 as E1.
    assert (String.eqb (Customer.customerId d) "" = false) as ->.
    { apply String.eqb_neq. intros Hempty. rewrite Hempty in Hm. discriminate. }
    exists (m + 1). rewrite E1.
    apply StronglySorted_app in Hsorted as (Hlt & _ & _).
    apply Forall_app in Hpos as [_ Hm0]. apply Forall_inv in Hm0.
    split; [done|]. split; [lia|].
    intros n Hn. apply elem_of_app in Hn as [Hn|Hn].
    + specialize (Hlt n m Hn). rewrite list_elem_of_singleton in Hlt. specialize (Hlt eq_refl). lia.
    + apply list_elem_of_singleton in Hn as ->. lia.
  - apply last_None in Hlast as ->. destruct numbers; [|discriminate].
    exists START_NUMBER. split; [done|]. split; [done|]. intros n Hn. by apply elem_of_nil in Hn.
Qed.

Lemma generateCustomerId_fresh START_NUMBER c :
  0 <= START_NUMBER ->
  ids_in_creation_order c ->
  Customer.findOne (generateCustomerId "SM" START_NUMBER c) c = None
  /\ customerId_format (generateCustomerId "SM" START_NUMBER c) = true
  /\ isValidCustomerId "SM" (generateCustomerId "SM" START_NUMBER c) = Some true.
Proof.
  intros Hs (numbers & E & Hsorted & Hpos).
  destruct (generateCustomerId_number START_NUMBER c numbers Hs E Hsorted Hpos)
    as (next & -> & Hnext & Hlt).
  destruct (formatted_id_reads_back "SM" next Hnext) as (Hvalid & Hformat & Hread).
  specialize (Hvalid eq_refl).
  split; [|done].
  unfold Customer.findOne. apply list_find_None, Forall_forall. intros x Hx Hid.
  destruct (number_of_member c numbers x E Hx) as (n & Hn & Hx').
  rewrite Hid, Hread in Hx'. injection Hx' as <-. specialize (Hlt _ Hn). lia.
Qed.

Lemma ids_in_creation_order_snoc START_NUMBER c d :
  0 <= START_NUMBER ->
  ids_in_creation_order c ->
  Customer.customerId d = generateCustomerId "SM" START_NUMBER c ->
  ids_in_creation_order (c ++ [d]).
Proof.
  intros Hs (numbers & E & Hsorted & Hpos) Hd.
  destruct (generateCustomerId_number START_NUMBER c numbers Hs E Hsorted Hpos)
    as (next & Hid & Hnext & Hlt).
  destruct (formatted_id_reads_back "SM" next Hnext) as (_ & _ & Hread).
  exists (numbers ++ [next])%list. split; [|split].
  - rewrite !fmap_app, E. simpl. by rewrite Hd, Hid, Hread.
  - apply StronglySorted_app_2; [|done|repeat constructor].
    intros n m Hn Hm. apply list_elem_of_singleton in Hm as ->. by apply Hlt.
  - apply Forall_app. split; [done|]. by constructor.
Qed.

Lemma ids_in_creation_order_delete c i :
  ids_in_creation_order c -> ids_in_creation_order (delete i c).
Proof.
  intros (numbers & E & Hsorted & Hpos). exists (delete i numbers). split; [|split].
  - by rewrite !list_fmap_delete, E.
  - by apply StronglySorted_delete.
  - by apply Forall_delete.
Qed.

Lemma ids_in_creation_order_NoDup c :
  ids_in_creation_order c -> NoDup (Customer.customerId <$> c).
Proof.
  intros (numbers & E & Hsorted & _).
  apply (NoDup_fmap_1 extractCustomerNumber). rewrite E.
  apply NoDup_fmap_2; [apply _|].
  clear E. induction Hsorted as [|x l Hs IH Hall]; constructor; [|done].
  rewrite Forall_forall in Hall. intros Hx. specialize (Hall x Hx). lia.
Qed.

(** Within the safe integers the number of the next identifier is computed
    exactly: it is a safe integer. *)
Lemma generateCustomerId_safe START_NUMBER c :
  0 <= START_NUMBER <= MAX_SAFE_INTEGER ->
  ids_in_creation_order c ->
  identifiers_safe c ->
  exists next,
    generateCustomerId "SM" START_NUMBER c = format_customerId "SM" next
    /\ safe_integer next = true.
Proof.
  intros Hs (numbers & E & _ & Hpos) Hsafe.
  assert (Hrange : forall n, 0 <= n <= MAX_SAFE_INTEGER -> safe_integer n = true).
  { intros n Hn. unfold safe_integer, MAX_SAFE_INTEGER in *.
    rewrite andb_true_iff, !Z.leb_le. lia. }
  unfold generateCustomerId, findOne_sort_createdAt_desc.
  destruct (last c) as [d|] eqn:Hlast; [|by exists START_NUMBER; split; [|apply Hrange]].
  apply last_Some in Hlast as [c0 ->].
  assert (Hd : d ∈ (c0 ++ [d])%list) by (apply elem_of_app; right; by apply list_elem_of_singleton).
  destruct (number_of_member _ numbers d E Hd) as (m & Hm & Hread).
  unfold identifiers_safe in Hsafe.
  rewrite Forall_forall in Hpos. rewrite Forall_forall in Hsafe.
  specialize (Hpos m Hm). specialize (Hsafe d Hd m Hread).
  unfold extractCustomerNumber in Hread.
  destruct (match_SM_digits (Customer.customerId d)) as [digits|] eqn:Hdigits; [|discriminate].
  injection Hread as Hread.
  assert (String.eqb (Customer.customerId d) "" = false) as ->.
  { apply String.eqb_neq. intros Hempty. rewrite Hempty in Hdigits. discriminate. }
  exists (m + 1). rewrite Hread. split; [done|]. apply Hrange. lia.
Qed.

(** X22 ([generateCustomerId]): when the stored identifiers are
    [SM-<digits>] with numbers that grow in the order of creation and stay
    below [MAX_SAFE_INTEGER], the next identifier (prefix [SM], start
    number a safe integer that is not negative) is made from a safe
    integer, is held by no stored customer, has the form the schema and
    [decodeQRData] ask for, and keeps that order when it is appended;
    deleting a customer keeps the order too, and the stored identifiers are
    pairwise distinct. *)
Theorem generated_id_is_fresh START_NUMBER c :
  0 <= START_NUMBER <= MAX_SAFE_INTEGER ->
  ids_in_creation_order c ->
  identifiers_safe c ->
  let id := generateCustomerId "SM" START_NUMBER c in
  (exists next, id = format_customerId "SM" next /\ safe_integer next = true)
  /\ Customer.findOne id c = None
  /\ customerId_format id = true
  /\ isValidCustomerId "SM" id = Some true
  /\ (forall d, Customer.customerId d = id -> ids_in_creation_order (c ++ [d]))
  /\ (forall i, ids_in_creation_order (delete i c))
  /\ NoDup (Customer.customerId <$> c).
Proof.
  intros Hs Hc Hsafe. cbv zeta.
  destruct (generateCustomerId_fresh START_NUMBER c (proj1 Hs) Hc) as (? & ? & ?).
  split; [by apply generateCustomerId_safe|].
  repeat split; try done.
  - intros d Hd. eapply ids_in_creation_order_snoc; [apply Hs|done..].
  - intros i. by apply ids_in_creation_order_delete.
  - by apply ids_in_creation_order_NoDup.
Qed.
(** *** [registerCustomer] *)

Section RegistrationProperties.

Variable JSON_stringify : json -> string.
Variable QRCode_toDataURL : string -> option string.
Variable PREFIX : string.
Variable START_NUMBER : Z.

Lemma validate_slot d :
  Customer.validate d = true ->
  Queue.validate (Queue.mk (Customer.queueNumber d) (Customer.customerId d) ACTIVE 0 None)
  = true.
Proof.
  unfold Customer.validate, Queue.validate. rewrite !andb_true_iff. simpl.
  intros [[[[[[Hid _] _] _] _] Hn] _]. split; [done|].
  apply customerId_format_nonempty in Hid. by rewrite Hid.
Qed.

(** What [registerCustomer] can answer, and what it has written then. *)
Lemma registerCustomer_cases w body timestamp now :
  let id := generateCustomerId PREFIX START_NUMBER (customers w) in
  let n := Customer.getNextQueueNumber (customers w) in
  let (r, w') := registerCustomer JSON_stringify QRCode_toDataURL PREFIX START_NUMBER
                                  w body timestamp now in
  ((g_code r = 400 \/ g_code r = 500) /\ g_success r = false /\ g_data r = None /\ w' = w)
  \/ (g_code r = 409 /\ g_success r = false /\ g_data r = None /\ w' = w
      /\ is_Some (Customer.findOne id (customers w)))
  \/ (exists name phone cartTotal qrCode,
        let d := Customer.mk id (trim name) phone cartTotal n qrCode WAITING None None in
        body = mkRegisterBody (Some name) (Some phone) (Some cartTotal)
        /\ name <> "" /\ phone_format phone = true /\ Qle_bool 0 cartTotal = true
        /\ generateQRCode JSON_stringify QRCode_toDataURL id n timestamp = inl qrCode
        /\ Customer.validate d = true
        /\ Customer.findOne id (customers w) = None
        /\ ((g_code r = 409 /\ g_success r = false /\ g_data r = None
             /\ w' = mkWorld (customers w ++ [d])%list (queues w)
             /\ exists s, s ∈ queues w /\ Queue.queueNumber s = n)
            \/ (w' = mkWorld (customers w ++ [d])%list
                             (queues w ++ [Queue.mk n id ACTIVE now None])%list
                /\ (forall s, s ∈ queues w -> Queue.queueNumber s <> n)
                /\ r = mkRegisterResponse 201 true "Customer registered successfully"
                         (Some (mkRegisteredData
                                  id (trim name) phone cartTotal n qrCode WAITING
                                  (Queue.getPosition n (queues w'))
                                  (Number_toString
                                     (getEstimatedWaitTime (Queue.getPosition n (queues w')))
                                   ++ " minutes")))))).
Proof.
  cbv zeta. unfold registerCustomer.
  destruct body as [[name|] [phone|] [cartTotal|]]; cbn [body_name body_phone body_cartTotal];
    try (left; split; [by left|done]).
  destruct (String.eqb_spec name ""); [left; split; [by left|done]|].
  destruct (String.eqb_spec phone ""); [left; split; [by left|done]|]. cbn [orb].
  destruct (phone_format phone) eqn:Hphone; [|left; split; [by left|done]]. cbn [negb].
  destruct (Qle_bool 0 cartTotal) eqn:Hcart; [|left; split; [by left|done]]. cbn [negb].
  destruct (generateQRCode _ _ _ _ _) as [qrCode|e] eqn:Hqr;
    [|left; split; [by right|done]].
  unfold Customer.create_validated, Customer.cast. cbn [Customer.customerId Customer.name
    Customer.phone Customer.cartTotal Customer.queueNumber Customer.qrCode Customer.status
    Customer.billedAt Customer.verifiedAt].
  destruct (Customer.validate _) eqn:Hvalid; [|left; split; [by right|done]]. cbn [negb].
  unfold Customer.create. cbn [Customer.customerId].
  destruct (Customer.findOne _ (customers w)) as [found|] eqn:Hfind;
    [right; left; by repeat split|].
  unfold Queue.create_validated.
  pose proof (validate_slot _ Hvalid) as Hslot. unfold Queue.validate in *.
  cbn [Queue.queueNumber Queue.customerId Customer.queueNumber Customer.customerId] in *.
  rewrite Hslot. cbn [negb]. unfold Queue.create. cbn [Queue.queueNumber].
  destruct (list_find _ (queues w)) as [[j s]|] eqn:Hq.
  - right; right. exists name, phone, cartTotal, qrCode. do 7 (split; [done|]).
    left. apply list_find_Some in Hq as (Hj & Hn & _).
    repeat split; try done. exists s. split; [by eapply list_elem_of_lookup_2|done].
  - right; right. exists name, phone, cartTotal, qrCode. do 7 (split; [done|]).
    right. apply list_find_None in Hq. rewrite Forall_forall in Hq.
    repeat split; try done.
Qed.

(** X23 ([registerCustomer]): the answer is 201, 400, 409 or 500.  A 400
    is sent before anything is written; every answer other than 201 has
    [success: false] and carries no data; a 409 leaves the queue slots
    alone, and either wrote nothing (the identifier is taken) or comes from
    a slot that already holds the new queue number, and then the customer
    document has been stored without a slot.  (Nothing is said of what a
    500 answer leaves behind: it may follow a rejected database call after
    the customer has been stored.) *)
Theorem registration_answers_and_writes w body timestamp now :
  let (r, w') := registerCustomer JSON_stringify QRCode_toDataURL PREFIX START_NUMBER
                                  w body timestamp now in
  (g_code r = 201 \/ g_code r = 400 \/ g_code r = 409 \/ g_code r = 500)
  /\ (g_code r = 400 -> w' = w)
  /\ (g_code r <> 201 -> g_data r = None /\ g_success r = false)
  /\ (g_code r = 409 ->
      queues w' = queues w
      /\ (w' = w
          \/ exists d, customers w' = (customers w ++ [d])%list
                       /\ exists s, s ∈ queues w
                                    /\ Queue.queueNumber s = Customer.queueNumber d)).
Proof.
  pose proof (registerCustomer_cases w body timestamp now) as H. cbv zeta in H.
  destruct (registerCustomer _ _ _ _ w body timestamp now) as [r w'].
  destruct H as [(Hc & Hs & Hd & ->)|[(Hc & Hs & Hd & -> & _)|H]].
  - split; [destruct Hc; auto|]. split; [done|]. split; [done|]. intros _. split; [done|by left].
  - split; [auto|]. split; [done|]. split; [done|]. intros _. split; [done|by left].
  - destruct H as (name & phone & cartTotal & qrCode & _ & _ & _ & _ & _ & _ & _ & H).
    destruct H as [(Hc & Hs & Hd & -> & s & Hin & Hn)|(-> & _ & ->)].
    + split; [auto|]. split; [intros ?; congruence|]. split; [done|].
      intros _. split; [done|]. right. eexists. split; [done|]. by exists s.
    + cbn [g_code]. split; [auto|]. split; [intros ?; lia|].
      split; [intros ?; lia|]. intros ?; lia.
Qed.

Lemma getPosition_new_slot n id now (q : list Queue.doc) :
  Queue.getPosition n (q ++ [Queue.mk n id ACTIVE now None])
  = Z.of_nat (length (filter (fun s => Queue.status s = ACTIVE /\ Queue.queueNumber s < n) q))
    + 1.
Proof.
  rewrite getPosition_count, filter_app, length_app.
  rewrite (filter_none _ [_]); [simpl; lia|].
  intros s Hs [_ Hlt]. apply list_elem_of_singleton in Hs as ->. simpl in Hlt. lia.
Qed.

(** X24 ([registerCustomer]): a 201 answer means that one customer has
    been appended (WAITING, no time stamps, the identifier of
    [generateCustomerId], the number of [getNextQueueNumber], the QR code
    of [generateQRCode] for these two, passing the schema) and one ACTIVE
    slot with the same identifier and number; the position reported is 1 +
    the ACTIVE slots with a smaller number, the wait three minutes for each
    of them; the queue number is the one [register] hands out. *)
Theorem registration_stores_entry_and_slot w body timestamp now :
  let (r, w') := registerCustomer JSON_stringify QRCode_toDataURL PREFIX START_NUMBER
                                  w body timestamp now in
  g_code r = 201 ->
  exists d s data,
    customers w' = (customers w ++ [d])%list
    /\ queues w' = (queues w ++ [s])%list
    /\ g_data r = Some data
    /\ Customer.customerId d = generateCustomerId PREFIX START_NUMBER (customers w)
    /\ Customer.queueNumber d = Customer.getNextQueueNumber (customers w)
    /\ Customer.status d = WAITING
    /\ timestamps_follow_status d
    /\ Customer.validate d = true
    /\ s = Queue.mk (Customer.queueNumber d) (Customer.customerId d) ACTIVE now None
    /\ slot_mirrors d s
    /\ rd_customerId data = Customer.customerId d
    /\ rd_queueNumber data = Customer.queueNumber d
    /\ rd_qrCode data = Customer.qrCode d
    /\ generateQRCode JSON_stringify QRCode_toDataURL (Customer.customerId d)
                      (Customer.queueNumber d) timestamp = inl (Customer.qrCode d)
    /\ (let ahead := Z.of_nat (length (filter (fun x => Queue.status x = ACTIVE
                                                       /\ Queue.queueNumber x
                                                          < Customer.queueNumber d)
                                             (queues w))) in
        rd_position data = ahead + 1
        /\ rd_estimatedWaitTime data = Number_toString (3 * ahead) ++ " minutes")
    /\ register (mkRegistration (Customer.customerId d) (Customer.name d) (Customer.phone d)
                                (Customer.cartTotal d) (Customer.qrCode d)) (customers w)
       = Some (Customer.queueNumber d, customers w').
Proof.
  pose proof (registerCustomer_cases w body timestamp now) as H. cbv zeta in H.
  destruct (registerCustomer _ _ _ _ w body timestamp now) as [r w'].
  intros H201.
  destruct H as [([Hc|Hc] & _)|[(Hc & _)|H]]; try lia.
  destruct H as (name & phone & cartTotal & qrCode & _ & _ & _ & _ & Hqr & Hv & Hf & H).
  destruct H as [(Hc & _)|(-> & Hfree & ->)]; [lia|].
  eexists _, _, _. cbn [customers queues g_data].
  split; [reflexivity|]. split; [reflexivity|]. split; [reflexivity|].
  cbn [Customer.customerId Customer.queueNumber Customer.status Customer.name Customer.phone
       Customer.cartTotal Customer.qrCode rd_customerId rd_queueNumber rd_qrCode
       rd_position rd_estimatedWaitTime].
  do 3 (split; [done|]). split; [by unfold timestamps_follow_status|].
  split; [done|]. split; [done|].
  split; [split; [done|]; unfold active; simpl; tauto|].
  do 3 (split; [done|]). split; [done|]. split.
  - cbv zeta. rewrite getPosition_new_slot. split; [done|].
    by rewrite getEstimatedWaitTime_position by lia.
  - unfold register, Customer.create. cbn [r_customerId r_name r_phone r_cartTotal r_qrCode
      Customer.customerId]. by rewrite Hf.
Qed.

(** X25 ([registerCustomer], schema of models/Customer.js): a name that
    is not empty but shorter than two characters once trimmed passes the
    checks of the handler and is refused by the schema ([minlength]): the
    answer is 500 'Failed to register customer', not 400, and nothing is
    stored. *)
Theorem short_name_is_a_server_error w name phone cartTotal timestamp now :
  name <> "" ->
  (String.length (trim name) < 2)%nat ->
  phone_format phone = true ->
  Qle_bool 0 cartTotal = true ->
  registerCustomer JSON_stringify QRCode_toDataURL PREFIX START_NUMBER w
                   (mkRegisterBody (Some name) (Some phone) (Some cartTotal)) timestamp now
  = (mkRegisterResponse 500 false "Failed to register customer" None, w).
Proof.
  intros Hname Hshort Hphone Hcart. unfold registerCustomer.
  cbn [body_name body_phone body_cartTotal].
  rewrite (proj2 (String.eqb_neq name "")) by done.
  assert (phone <> "") as Hp by (intros ->; discriminate).
  rewrite (proj2 (String.eqb_neq phone "")) by done.
  rewrite Hphone, Hcart. cbn [orb negb].
  destruct (generateQRCode _ _ _ _ _) as [qrCode|e]; [|done].
  unfold Customer.create_validated, Customer.cast, Customer.validate.
  cbn [Customer.customerId Customer.name Customer.phone Customer.cartTotal
       Customer.queueNumber Customer.qrCode].
  assert ((2 <=? String.length (trim name))%nat = false) as -> by (apply Nat.leb_gt; lia).
  rewrite andb_false_r. done.
Qed.

End RegistrationProperties.
(** *** Registrations that do not overlap *)

Section SequentialRegistration.

Variable JSON_stringify : json -> string.
Variable QRCode_toDataURL : string -> option string.

Lemma getNextQueueNumber_positive c :
  Forall (fun d => 1 <= Customer.queueNumber d) c -> 1 <= Customer.getNextQueueNumber c.
Proof.
  intros Hc. unfold Customer.getNextQueueNumber.
  pose proof (findOne_sort_queueNumber_desc_max c) as H.
  destruct (Customer.findOne_sort_queueNumber_desc c) as [m|]; [|done].
  destruct H as [Hm _]. rewrite Forall_forall in Hc. specialize (Hc m Hm). lia.
Qed.

Lemma aligned_slot_numbers (c : list Customer.doc) (q : list Queue.doc) s :
  Forall2 (fun d s => Queue.customerId s = Customer.customerId d
                      /\ Queue.queueNumber s = Customer.queueNumber d) c q ->
  s ∈ q -> exists d, d ∈ c /\ Queue.queueNumber s = Customer.queueNumber d.
Proof.
  intros H Hs. apply list_elem_of_lookup in Hs as [i Hi].
  destruct (Forall2_lookup_r _ _ _ _ _ H Hi) as (d & Hd & _ & Hn).
  exists d. split; [by eapply list_elem_of_lookup_2|done].
Qed.

Lemma getNextQueueNumber_safe c :
  Forall (fun d => 1 <= Customer.queueNumber d) c ->
  queue_numbers_safe c ->
  safe_integer (Customer.getNextQueueNumber c) = true.
Proof.
  intros Hpos Hsafe. unfold Customer.getNextQueueNumber.
  pose proof (findOne_sort_queueNumber_desc_max c) as H.
  destruct (Customer.findOne_sort_queueNumber_desc c) as [m|]; [|done].
  destruct H as [Hm _]. unfold queue_numbers_safe in Hsafe.
  rewrite Forall_forall in Hpos. rewrite Forall_forall in Hsafe. specialize (Hpos m Hm). specialize (Hsafe m Hm).
  unfold safe_integer, MAX_SAFE_INTEGER in *. rewrite andb_true_iff, !Z.leb_le. lia.
Qed.

Lemma trim_start_Forall (P : ascii -> Prop) l : Forall P l -> Forall P (trim_start l).
Proof.
  induction 1 as [|c l Hc Hl IH]; [constructor|]. simpl.
  destruct (is_space c); [done|by constructor].
Qed.

Lemma trim_ascii_text s : ascii_text s -> ascii_text (trim s).
Proof.
  unfold ascii_text, trim. intros H. rewrite list_ascii_of_string_of_list_ascii.
  by apply List.Forall_rev, trim_start_Forall, List.Forall_rev, trim_start_Forall.
Qed.

(** X26 ([registerCustomer], [generateCustomerId],
    [Customer.getNextQueueNumber]): on a database that is in step
    (identifiers in the order of creation, queue numbers from 1 on, one
    slot per customer) and whose identifiers and queue numbers are below
    [MAX_SAFE_INTEGER], with the prefix [SM], a start number that is a safe
    integer, a valid body whose name is ASCII text and a QR library that
    renders, a registration that runs with no other in between answers 201,
    appends one customer and leaves the database in step: neither the
    identifier nor the queue number can collide, and both are made from
    safe integers. *)
Theorem sequential_registration_succeeds START_NUMBER w name phone cartTotal timestamp now :
  0 <= START_NUMBER <= MAX_SAFE_INTEGER ->
  kept_in_step w ->
  identifiers_safe (customers w) ->
  queue_numbers_safe (customers w) ->
  ascii_text name ->
  (2 <= String.length (trim name) <= 100)%nat ->
  phone_format phone = true ->
  Qle_bool 0 cartTotal = true ->
  (forall payload, exists url, QRCode_toDataURL payload = Some url /\ url <> "") ->
  let (r, w') := registerCustomer JSON_stringify QRCode_toDataURL "SM" START_NUMBER w
                   (mkRegisterBody (Some name) (Some phone) (Some cartTotal))
                   timestamp now in
  g_code r = 201 /\ g_success r = true
  /\ length (customers w') = S (length (customers w))
  /\ kept_in_step w'
  /\ exists d,
       customers w' = (customers w ++ [d])%list
       /\ ascii_text (Customer.name d)
       /\ safe_integer (Customer.queueNumber d) = true
       /\ exists next, Customer.customerId d = format_customerId "SM" next
                       /\ safe_integer next = true.
Proof.
  intros Hstart (Hids & Hnums & Haligned) Hids_safe Hnums_safe Hascii Hname Hphone Hcart Hqr.
  pose proof (proj1 Hstart) as Hs.
  pose proof (generateCustomerId_safe START_NUMBER (customers w) Hstart Hids Hids_safe)
    as Hid_safe.
  pose proof (getNextQueueNumber_safe (customers w) Hnums Hnums_safe) as Hn_safe.
  set (id := generateCustomerId "SM" START_NUMBER (customers w)) in *.
  set (n := Customer.getNextQueueNumber (customers w)) in *.
  destruct (Hqr (qrPayload JSON_stringify id n timestamp)) as (url & Hurl & Hne).
  destruct (generateCustomerId_fresh START_NUMBER (customers w) Hs Hids)
    as (Hfresh & Hformat & _). fold id in Hfresh, Hformat.
  assert (Hn : 1 <= n) by by apply getNextQueueNumber_positive.
  unfold registerCustomer. cbn [body_name body_phone body_cartTotal].
  assert (name <> "") as Hn0.
  { intros ->. cbn in Hname. lia. }
  assert (phone <> "") as Hp0 by (intros ->; discriminate).
  rewrite (proj2 (String.eqb_neq name "")), (proj2 (String.eqb_neq phone "")) by done.
  rewrite Hphone, Hcart. cbn [orb negb]. fold id n.
  unfold generateQRCode. rewrite Hurl. cbn [try_catch_rethrow ret].
  unfold Customer.create_validated, Customer.cast, Customer.validate.
  cbn [Customer.customerId Customer.name Customer.phone Customer.cartTotal
       Customer.queueNumber Customer.qrCode Customer.status Customer.billedAt
       Customer.verifiedAt].
  rewrite Hformat, Hphone, Hcart.
  rewrite (proj2 (Nat.leb_le 2 _)), (proj2 (Nat.leb_le _ 100)) by lia.
  rewrite (proj2 (Z.leb_le 1 n)) by done.
  rewrite (proj2 (String.eqb_neq url "")) by done. cbn [andb negb].
  unfold Customer.create. cbn [Customer.customerId]. rewrite Hfresh.
  unfold Queue.create_validated, Queue.validate. cbn [Queue.queueNumber Queue.customerId].
  rewrite (proj2 (Z.leb_le 1 n)) by done.
  rewrite (customerId_format_nonempty _ Hformat). cbn [andb negb].
  unfold Queue.create. cbn [Queue.queueNumber].
  assert (list_find (fun stored => Queue.queueNumber stored = n) (queues w) = None) as ->.
  { apply list_find_None, Forall_forall. intros s Hin E.
    destruct (aligned_slot_numbers _ _ s Haligned Hin) as (d & Hd & Hsd).
    pose proof (getNextQueueNumber_above _ _ Hd). fold n in H. lia. }
  cbn [g_code g_success customers queues].
  split; [done|]. split; [done|]. split; [rewrite length_app; simpl; lia|].
  split; [split; [|split]|].
  - by eapply ids_in_creation_order_snoc.
  - apply Forall_app. split; [done|]. constructor; [done|constructor].
  - apply Forall2_app; [done|]. constructor; [done|constructor].
  - eexists. split; [reflexivity|]. cbn [Customer.name Customer.queueNumber Customer.customerId].
    split; [by apply trim_ascii_text|]. done.
Qed.

End SequentialRegistration.
(** *** The database stays in step *)

Section InStep.

Variable JSON_parse : string -> option json.

Lemma one_step_identity (c c' : list Customer.doc) :
  Forall2 (fun d d' => d' = d \/ transition d d') c c' ->
  Forall2 (fun d d' => Customer.customerId d' = Customer.customerId d
                       /\ Customer.queueNumber d' = Customer.queueNumber d) c c'.
Proof.
  intros H. eapply Forall2_impl; [exact H|].
  intros d d' [->|Ht]; [done|]. by inversion Ht; subst.
Qed.

Lemma handle_slots w r :
  Forall2 (fun s s' => Queue.customerId s' = Queue.customerId s
                       /\ Queue.queueNumber s' = Queue.queueNumber s)
          (queues w) (queues (handle JSON_parse w r)).
Proof.
  assert (Hrefl : forall q : list Queue.doc,
             Forall2 (fun s s' => Queue.customerId s' = Queue.customerId s
                                  /\ Queue.queueNumber s' = Queue.queueNumber s) q q).
  { induction q; constructor; auto. }
  destruct r as [customerId now|customerId|qrData t1 t2|qrDataArray clock]; simpl.
  - unfold completeBilling.
    destruct (Customer.findOne _ _) as [[i c]|]; [|apply Hrefl].
    repeat case_bool_decide; apply Hrefl.
  - unfold undoBilling.
    destruct (Customer.findOne _ _) as [[i c]|]; [|apply Hrefl].
    destruct (negb _); apply Hrefl.
  - unfold verifyQRCode.
    destruct (qrData_missing qrData); [apply Hrefl|].
    destruct (decodeQRData JSON_parse (default "" qrData)) as [decoded|e]; [|apply Hrefl].
    destruct (bind (get_property decoded "customerId") _) as [[customerId queueNumber]|e];
      [|apply Hrefl].
    destruct (Customer.findOne_value customerId (customers w)) as [[i c]|]; [|apply Hrefl].
    destruct (verify_checks c queueNumber); [apply Hrefl|].
    cbv zeta. cbn [queues customers].
    destruct (Queue.findOne_active _ _) as [[j e]|]; [|apply Hrefl].
    cbn [snd queues]. unfold Queue.save_completed.
    apply Forall2_alter_r; [apply Hrefl|]. intros x y _ _ [? ?]. done.
  - unfold bulkVerifyQRCodes.
    destruct qrDataArray as [[|x l]|]; try apply Hrefl.
    destruct (bulk_verify_from _ _ _ _ _). apply Hrefl.
Qed.

Lemma kept_in_step_same_keys w (c' : list Customer.doc) (q' : list Queue.doc) :
  kept_in_step w ->
  Forall2 (fun d d' => Customer.customerId d' = Customer.customerId d
                       /\ Customer.queueNumber d' = Customer.queueNumber d)
          (customers w) c' ->
  Forall2 (fun s s' => Queue.customerId s' = Queue.customerId s
                       /\ Queue.queueNumber s' = Queue.queueNumber s)
          (queues w) q' ->
  kept_in_step (mkWorld c' q').
Proof.
  intros (Hids & Hnums & Haligned) Hc Hq. split; [|split]; cbn [customers queues].
  - assert (Customer.customerId <$> c' = Customer.customerId <$> customers w) as E.
    { clear -Hc. induction Hc as [|d d' c c' [E _] _ IH]; [done|].
      by rewrite !fmap_cons, E, IH. }
    unfold ids_in_creation_order. by rewrite E.
  - clear -Hc Hnums. induction Hc as [|d d' c c' [_ E] _ IH]; [done|].
    inversion Hnums; subst. constructor; [by rewrite E|by apply IH].
  - apply Forall2_same_length_lookup. split.
    + rewrite <- (Forall2_length _ _ _ Hc), <- (Forall2_length _ _ _ Hq).
      by eapply Forall2_length.
    + intros i d' s' Hd' Hs'.
      destruct (Forall2_lookup_r _ _ _ _ _ Hc Hd') as (d & Hd & Ed1 & Ed2).
      destruct (Forall2_lookup_r _ _ _ _ _ Hq Hs') as (s & Hs & Es1 & Es2).
      destruct (Forall2_lookup_lr _ _ _ _ _ _ Haligned Hd Hs) as [E1 E2].
      split; congruence.
Qed.

Lemma kept_in_step_handle w r : kept_in_step w -> kept_in_step (handle JSON_parse w r).
Proof.
  intros H.
  pose proof (kept_in_step_same_keys w _ _ H (one_step_identity _ _ (handle_one_step
                JSON_parse w r)) (handle_slots w r)) as H'.
  by destruct (handle JSON_parse w r).
Qed.

Lemma list_find_aligned (c : list Customer.doc) (q : list Queue.doc) id :
  Forall2 (fun d s => Queue.customerId s = Customer.customerId d
                      /\ Queue.queueNumber s = Customer.queueNumber d) c q ->
  fst <$> list_find (fun s => Queue.customerId s = id) q
  = fst <$> list_find (fun d => Customer.customerId d = id) c.
Proof.
  induction 1 as [|d s c q [E _] _ IH]; [done|].
  cbn [list_find]. rewrite E.
  destruct (decide (Customer.customerId d = id)); [done|].
  destruct (list_find _ q) as [[? ?]|], (list_find _ c) as [[? ?]|]; simpl in *; congruence.
Qed.

Lemma kept_in_step_delete w customerId :
  kept_in_step w -> kept_in_step (snd (deleteCustomer w customerId)).
Proof.
  intros (Hids & Hnums & Haligned).
  unfold deleteCustomer, Customer.findOneAndDelete, Customer.findOne.
  pose proof (list_find_aligned _ _ customerId Haligned) as E.
  destruct (list_find _ (customers w)) as [[i d]|]; [|done].
  cbn [snd]. unfold Queue.deleteOne.
  destruct (list_find _ (queues w)) as [[j s]|]; [|discriminate].
  simpl in E. injection E as ->.
  split; [|split]; cbn [customers queues].
  - by apply ids_in_creation_order_delete.
  - by apply Forall_delete.
  - by apply Forall2_delete.
Qed.

(** X27 ([completeBilling], [undoBilling], [verifyQRCode],
    [bulkVerifyQRCodes], [deleteCustomer], [resetQueue]): a database that
    is in step stays in step under any sequence of billing, undo,
    verification and bulk verification requests, under [deleteCustomer]
    (which removes the customer and the slot at the same place) and under
    [resetQueue]; in such a database identifiers are unique and there are
    as many slots as customers. *)
Theorem requests_keep_the_database_in_step w :
  kept_in_step w ->
  (forall rs, kept_in_step (handle_all JSON_parse rs w))
  /\ (forall customerId, kept_in_step (snd (deleteCustomer w customerId)))
  /\ (forall now, kept_in_step (snd (resetQueue w now)))
  /\ NoDup (Customer.customerId <$> customers w)
  /\ length (queues w) = length (customers w).
Proof.
  intros H. split; [|split; [|split; [|split]]].
  - intros rs. revert w H. induction rs as [|r rs IH]; intros w H; [done|].
    simpl. apply IH. by apply kept_in_step_handle.
  - intros customerId. by apply kept_in_step_delete.
  - intros now. split; [|split]; cbn; try done.
    exists []. by repeat split; try constructor.
  - apply ids_in_creation_order_NoDup, H.
  - symmetry. eapply Forall2_length, H.
Qed.

End InStep.
(** *** From registration to the exit *)

Section Journey.

Variable JSON_parse : string -> option json.
Variable JSON_stringify : json -> string.
Variable QRCode_toDataURL : string -> option string.
Variable PREFIX : string.
Variable START_NUMBER : Z.

Lemma findOne_snoc id (c : list Customer.doc) d :
  Customer.findOne id c = None -> Customer.customerId d = id ->
  Customer.findOne id (c ++ [d])%list = Some (length c, d).
Proof.
  unfold Customer.findOne. intros Hc Hd.
  induction c as [|x c IH]; simpl in *.
  - by rewrite decide_True.
  - destruct (decide (Customer.customerId x = id)); [discriminate|].
    destruct (list_find _ c) as [[? ?]|] eqn:E; [discriminate|].
    by rewrite IH.
Qed.

Lemma findOne_active_snoc id (q : list Queue.doc) s :
  (forall x, x ∈ q -> Queue.customerId x <> id) ->
  Queue.customerId s = id -> Queue.status s = ACTIVE ->
  Queue.findOne_active id (q ++ [s])%list = Some (length q, s).
Proof.
  unfold Queue.findOne_active. intros Hq Hid Hs.
  induction q as [|x q IH]; simpl in *.
  - by rewrite decide_True.
  - rewrite decide_False by (intros [? _]; apply (Hq x); [left|done]).
    rewrite IH; [done|]. intros y Hy. apply Hq. by right.
Qed.

Lemma alter_snoc {A} (f : A -> A) (l : list A) x :
  alter f (length l) (l ++ [x])%list = (l ++ [f x])%list.
Proof. induction l as [|a l IH]; [done|]. simpl. by rewrite <- IH. Qed.

Lemma payload_object_decodes id n timestamp payload :
  customerId_format id = true -> 1 <= n ->
  JSON_parse payload = Some (qrPayloadObject id n timestamp) ->
  decodeQRData JSON_parse payload = inl (qrPayloadObject id n timestamp)
  /\ credential (qrPayloadObject id n timestamp) = Some (id, inject_Z n).
Proof.
  intros Hid Hn Hparse. split; [|reflexivity].
  apply decodeQRData_ok. split; [done|].
  exists id, (inject_Z n). split; [reflexivity|]. split; [done|].
  unfold Qle. simpl. lia.
Qed.

(** X28 ([registerCustomer], [completeBilling], [verifyQRCode],
    [getQueuePosition]): the journey of one customer.  If registration
    answers 201 and [JSON.parse] reads the text of the QR code back, then
    that text is refused with NOT_BILLED before billing (no write), and
    after [completeBilling] it is verified: the customer is stored as
    VERIFIED with both time stamps, the slot created at registration is
    COMPLETED (when no older slot carries the identifier), and the position
    query answers that the customer has been verified. *)
Theorem registered_customer_can_exit w body timestamp now t_billed t1 t2 :
  let id := generateCustomerId PREFIX START_NUMBER (customers w) in
  let n := Customer.getNextQueueNumber (customers w) in
  let payload := qrPayload JSON_stringify id n timestamp in
  let registration := registerCustomer JSON_stringify QRCode_toDataURL PREFIX START_NUMBER
                                       w body timestamp now in
  payload <> "" ->
  JSON_parse payload = Some (qrPayloadObject id n timestamp) ->
  g_code (fst registration) = 201 ->
  let w1 := snd registration in
  let w2 := snd (completeBilling w1 id t_billed) in
  let (v, w3) := verifyQRCode JSON_parse w2 (Some payload) t1 t2 in
  v_reason (fst (verifyQRCode JSON_parse w1 (Some payload) t1 t2)) = Some NOT_BILLED
  /\ snd (verifyQRCode JSON_parse w1 (Some payload) t1 t2) = w1
  /\ v_code v = 200
  /\ v_verification v = Some SUCCESS
  /\ (exists d, customers w3 = (customers w ++ [d])%list
                /\ Customer.customerId d = id
                /\ Customer.queueNumber d = n
                /\ Customer.status d = VERIFIED
                /\ Customer.billedAt d = Some t_billed
                /\ Customer.verifiedAt d = Some t1)
  /\ ((forall s, s ∈ queues w -> Queue.customerId s <> id) ->
      queues w3 = (queues w ++ [Queue.mk n id COMPLETED now (Some t2)])%list)
  /\ p_data (getQueuePosition w3 id) = Some (NotRanked id VERIFIED).
Proof.
  intros id n payload registration Hne Hparse H201.
  pose proof (registerCustomer_cases JSON_stringify QRCode_toDataURL PREFIX START_NUMBER
                w body timestamp now) as H.
  cbv zeta in H. fold id n registration in H.
  destruct registration as [r w1]. cbn [fst snd] in *.
  destruct H as [([Hc|Hc] & _)|[(Hc & _)|H]]; try lia.
  destruct H as (name & phone & cartTotal & qrCode & _ & _ & _ & _ & Hqr & Hv & Hf & H).
  destruct H as [(Hc & _)|(-> & Hfree & _)]; [lia|].
  set (d := Customer.mk id (trim name) phone cartTotal n qrCode WAITING None None) in *.
  assert (Hformat : customerId_format id = true /\ 1 <= n).
  { unfold Customer.validate in Hv. rewrite !andb_true_iff in Hv.
    destruct Hv as [[[[[[Hv1 _] _] _] _] Hv2] _]. split; [done|]. by apply Z.leb_le. }
  destruct Hformat as [Hformat Hn].
  destruct (payload_object_decodes id n timestamp payload Hformat Hn Hparse) as [Hdec Hcred].
  assert (Hfind : Customer.findOne id (customers w ++ [d])%list = Some (length (customers w), d))
    by by apply findOne_snoc.
  assert (Hq : (inject_Z (Customer.queueNumber d) == inject_Z n)%Q) by reflexivity.
  cbv zeta.
  (* before billing *)
  assert (Hbefore : verifyQRCode JSON_parse
                      (mkWorld (customers w ++ [d])%list
                               (queues w ++ [Queue.mk n id ACTIVE now None])%list)
                      (Some payload) t1 t2
                    = (res_not_billed d,
                       mkWorld (customers w ++ [d])%list
                               (queues w ++ [Queue.mk n id ACTIVE now None])%list)).
  { rewrite (verifyQRCode_decoded JSON_parse _ payload _ id (inject_Z n) t1 t2 Hne Hdec Hcred).
    cbn [customers]. rewrite Hfind. unfold verify_checks.
    rewrite strict_neq_number_false by done. done. }
  rewrite Hbefore. cbn [fst snd].
  (* billing *)
  unfold completeBilling. cbn [customers queues]. rewrite Hfind.
  cbn [Customer.status d bool_decide decide_rel]. 
  rewrite !bool_decide_eq_false_2 by done. cbn [snd].
  unfold Customer.save_billed. rewrite alter_snoc.
  set (b := Customer.mk id (trim name) phone cartTotal n qrCode BILLED (Some t_billed) None).
  change (Customer.set_billedAt _ (Customer.set_status _ d)) with b.
  assert (Hfind2 : Customer.findOne id (customers w ++ [b])%list = Some (length (customers w), b))
    by by apply findOne_snoc.
  (* verification *)
  rewrite (verifyQRCode_decoded JSON_parse _ payload _ id (inject_Z n) t1 t2 Hne Hdec Hcred).
  cbn [customers queues]. rewrite Hfind2.
  rewrite verify_checks_billed by done. cbv zeta.
  unfold Customer.save_verified. rewrite alter_snoc. cbn [customers queues].
  set (v := Customer.mk id (trim name) phone cartTotal n qrCode VERIFIED (Some t_billed)
                        (Some t1)).
  change (Customer.set_verifiedAt _ (Customer.set_status _ b)) with v.
  change (Customer.customerId (Customer.markAsVerified t1 b)) with id.
  assert (Hfind3 : Customer.findOne id (customers w ++ [v])%list = Some (length (customers w), v))
    by by apply findOne_snoc.
  assert (Hpos : forall q, p_data (getQueuePosition (mkWorld (customers w ++ [v])%list q) id)
                           = Some (NotRanked id VERIFIED)).
  { intros q. unfold getQueuePosition. cbn [customers]. by rewrite Hfind3. }
  destruct (Queue.findOne_active id _) as [[j e]|] eqn:Hslot.
  - split; [done|]. split; [done|]. split; [done|]. split; [done|].
    split; [by exists v|]. split; [|apply Hpos].
    intros Hnone. cbn [queues].
    rewrite findOne_active_snoc in Hslot by done. injection Hslot as <- <-.
    unfold Queue.save_completed. by rewrite alter_snoc.
  - split; [done|]. split; [done|]. split; [done|]. split; [done|].
    split; [by exists v|]. split; [|apply Hpos].
    intros Hnone. rewrite findOne_active_snoc in Hslot by done. discriminate.
Qed.

End Journey.

(** ** Closed instances: the claims on the sample data *)

(** C6 at Amit's QR code, with the reference reader and printer. *)
Lemma decode_encode_roundtrip_witness :
  decodeQRData JSONText.parse
    (qrPayload JSONText.stringify "SM-1001" 1 "2026-01-24T10:30:00.000Z")
  = inl (qrPayloadObject "SM-1001" 1 "2026-01-24T10:30:00.000Z").
Proof.
  apply (decode_encode_roundtrip JSONText.parse JSONText.stringify
           "SM-1001" 1 "2026-01-24T10:30:00.000Z"); [reflexivity | lia | reflexivity].
Defined.

(** C7 as stated fails: text that is not JSON and a well-formed object with
    the identifier [XX-1] are refused with the same error. *)
Lemma decode_errors_not_distinct : ~ decode_errors_distinct JSONText.parse.
Proof.
  intros (eM & eI & eP & Hne & _ & _ & H).
  apply Hne.
  destruct (H "not json") as [HM _].
  specialize (HM eq_refl).
  destruct (H (JSONText.stringify
                 (JObj [("customerId", JStr "XX-1"); ("queueNumber", JNum 1)])))
    as (_ & HI & _).
  specialize (HI _ "XX-1" 1%Q eq_refl eq_refl eq_refl eq_refl).
  assert (Hone : (1 <= 1)%Q) by apply Qle_refl.
  specialize (HI Hone).
  vm_compute in HM, HI. congruence.
Qed.

(** C4 as stated fails: register Amit, delete him ([deleteCustomer]),
    register Neha.  Both are handed queue number 1. *)
Lemma queue_number_reissued_after_delete : ~ issued_strictly_increasing.
Proof.
  intros H.
  specialize (H [OpRegister amit_registration; OpDelete "SM-1001";
                 OpRegister neha_registration]).
  assert (E : issued [OpRegister amit_registration; OpDelete "SM-1001";
                      OpRegister neha_registration] [] = [1; 1]) by reflexivity.
  rewrite E in H. apply StronglySorted_inv in H as [_ Hall].
  apply Forall_inv in Hall. lia.
Qed.

Lemma amit_payload_decodes :
  decodeQRData JSONText.parse amit_payload
  = inl (qrPayloadObject "SM-1001" 1 "2026-01-24T10:30:00.000Z").
Proof. reflexivity. Qed.

Lemma amit_payload_nonempty : amit_payload <> "".
Proof. discriminate. Qed.

(** C2 at a second scan of Amit's code after he has left. *)
Lemma verify_rejects_replay_witness :
  let (response, w') :=
    verifyQRCode JSONText.parse world_verified (Some amit_payload) 2000 2005 in
  w' = world_verified
  /\ v_success response = false
  /\ v_verification response = Some FAILED
  /\ v_reason response = Some DUPLICATE_SCAN
  /\ v_verifiedAt response = Some (Some 1000).
Proof.
  apply (verify_rejects_replay JSONText.parse world_verified amit_payload
           (qrPayloadObject "SM-1001" 1 "2026-01-24T10:30:00.000Z")
           "SM-1001" 1%Q 0%nat (amit VERIFIED (Some 500) (Some 1000)) 2000 2005);
    [discriminate | reflexivity | reflexivity | reflexivity | reflexivity | reflexivity].
Defined.

(** C9 (amended) at a payload that is not JSON. *)
Lemma unknown_id_is_told_apart_witness :
  verifyQRCode JSONText.parse world_billed (Some "not json") 0 0
  = (res_invalid_format invalid_qr_code_format, world_billed).
Proof.
  apply (unknown_id_is_told_apart JSONText.parse world_billed "not json" 0 0);
    [discriminate | exists invalid_qr_code_format; reflexivity].
Defined.

(** C9 as stated fails: text that is not JSON gets status 400, a
    well-formed code for the unknown identifier [SM-9999] gets 404. *)
Lemma unknown_id_response_differs :
  ~ unknown_id_looks_like_decode_failure JSONText.parse.
Proof.
  intros H.
  specialize (H world_billed "not json" stranger_payload
                (qrPayloadObject "SM-9999" 7 "2026-01-24T11:00:00.000Z")
                "SM-9999" 7%Q 0 0).
  assert (E : fst (verifyQRCode JSONText.parse world_billed (Some "not json") 0 0)
              = fst (verifyQRCode JSONText.parse world_billed (Some stranger_payload) 0 0)).
  { apply H; try reflexivity; try discriminate.
    exists invalid_qr_code_format. reflexivity. }
  vm_compute in E. discriminate E.
Qed.

(** C1: what the code does.  Amit's entry is BILLED and his QR code is
    scanned twice at the same moment.  The two requests take their steps in
    turn, so both read the entry before either saves it.  Both are answered
    "Verification successful", and the [verifiedAt] left in the store is the
    one written by the second request. *)
Theorem double_scan_both_succeed :
  let s := run JSONText.parse two_scans_in_turn
               (world_billed, [Received (Some amit_payload); Received (Some amit_payload)]) in
  (v_verification <$> response_of s 0) = Some (Some SUCCESS)
  /\ (v_verification <$> response_of s 1) = Some (Some SUCCESS)
  /\ (v_success <$> response_of s 0) = Some true
  /\ (v_success <$> response_of s 1) = Some true
  /\ (Customer.verifiedAt <$> customers (fst s) !! 0%nat) = Some (Some 1002).
Proof.
  cbv zeta. unfold two_scans_in_turn.
  destruct (interleaved_requests_both_verified JSONText.parse world_billed amit_payload
              (qrPayloadObject "SM-1001" 1 "2026-01-24T10:30:00.000Z")
              "SM-1001" 1%Q 0%nat (amit BILLED (Some 500) None)
              1000 1000 1001 1002 1003 1004 1005 1006 1007 1008
              amit_payload_nonempty amit_payload_decodes eq_refl eq_refl
              (Qeq_refl 1) eq_refl) as [H0 H1].
  cbv zeta in H0, H1.
  split; [exact (f_equal (fmap v_verification) H0)|].
  split; [exact (f_equal (fmap v_verification) H1)|].
  split; [exact (f_equal (fmap v_success) H0)|].
  split; [exact (f_equal (fmap v_success) H1)|].
  reflexivity.
Qed.

(** C3: what the code does.  One scan of Amit's QR code, his entry BILLED
    and his slot ACTIVE.  After the entry is saved and before the slot is,
    the database holds a VERIFIED entry with an ACTIVE slot.  At the end the
    entry carries the time read by [markAsVerified] (1000) and the slot the
    time read by [complete] (1005): two clock readings, two writes. *)
Theorem verified_entry_and_slot_written_apart :
  let mid := fst (run JSONText.parse [(0%nat, 1000); (0%nat, 1000); (0%nat, 1000)]
                      (world_billed, [Received (Some amit_payload)])) in
  let (response, final) :=
    verifyQRCode JSONText.parse world_billed (Some amit_payload) 1000 1005 in
  (Customer.status <$> customers mid !! 0%nat) = Some VERIFIED
  /\ (Queue.status <$> queues mid !! 0%nat) = Some ACTIVE
  /\ v_verification response = Some SUCCESS
  /\ (Customer.verifiedAt <$> customers final !! 0%nat) = Some (Some 1000)
  /\ (Queue.status <$> queues final !! 0%nat) = Some COMPLETED
  /\ (Queue.completedAt <$> queues final !! 0%nat) = Some (Some 1005).
Proof.
  pose proof (verify_success_effect JSONText.parse world_billed amit_payload
                (qrPayloadObject "SM-1001" 1 "2026-01-24T10:30:00.000Z")
                "SM-1001" 1%Q 0%nat (amit BILLED (Some 500) None)
                0%nat (slot 1 "SM-1001" ACTIVE None) 1000 1005
                amit_payload_nonempty amit_payload_decodes eq_refl eq_refl
                (Qeq_refl 1) eq_refl eq_refl) as H.
  cbv zeta.
  destruct (verifyQRCode JSONText.parse world_billed (Some amit_payload) 1000 1005)
    as [response final].
  destruct H as (-> & Hc & Hq). rewrite Hc, Hq. repeat split.
Qed.

(** A queue number with a fraction passes [decodeQRData] as long as it is
    not below 1: the check is on the type and the bound only. *)
Example decodeQRData_accepts_fraction :
  decodeQRData JSONText.parse
    (JSONText.stringify (JObj [("customerId", JStr "SM-1001"); ("queueNumber", JNum (3 # 2))]))
  = inl (JObj [("customerId", JStr "SM-1001"); ("queueNumber", JNum (3 # 2))]).
Proof. reflexivity. Qed.

(** C5 at Neha, who waits behind Amit: one customer ahead, position 2. *)
Lemma queue_position_counts_active_ahead_witness :
  p_code (getQueuePosition world_billed "SM-1002") = 200
  /\ p_data (getQueuePosition world_billed "SM-1002")
     = Some (Ranked "SM-1002" "Neha Gupta" 2 2 WAITING 1).
Proof.
  destruct (queue_position_counts_active_ahead world_billed "SM-1002") as (_ & _ & H & _).
  apply (H 1%nat (neha WAITING None None)); [reflexivity | left; reflexivity].
Defined.

(** C7 (amended) at a payload that is not JSON. *)
Lemma decode_failures_share_one_error_witness :
  decodeQRData JSONText.parse "not json" = inr invalid_qr_code_format.
Proof.
  destruct (decode_failures_share_one_error JSONText.parse "not json") as (H & _).
  apply H. reflexivity.
Defined.

(** C8 at Neha, billed at time 700 and again at time 800. *)
Lemma billing_is_idempotent_witness :
  let (r1, w1) := completeBilling world_billed "SM-1002" 700 in
  let (r2, w2) := completeBilling w1 "SM-1002" 800 in
  (Customer.billedAt <$> customers w1 !! 1%nat) = Some (Some 700)
  /\ b_success r2 = true
  /\ w2 = w1.
Proof.
  destruct (billing_is_idempotent world_billed "SM-1002" 700 800) as (_ & _ & _ & H).
  specialize (H 1%nat (neha WAITING None None) eq_refl eq_refl).
  destruct (completeBilling world_billed "SM-1002" 700) as [r1 w1].
  destruct (completeBilling w1 "SM-1002" 800) as [r2 w2].
  destruct H as ((_ & _ & Hc & _) & (_ & Hs & _ & Hw)).
  rewrite Hc. auto.
Defined.

(** C10 at the empty collection, and at a collection whose greatest queue
    number is held by a customer who has already left. *)
Lemma next_queue_number_is_one_past_the_maximum_witness :
  Customer.getNextQueueNumber [] = 1
  /\ Customer.getNextQueueNumber
       [amit VERIFIED (Some 500) (Some 1000); neha WAITING None None]
     = Customer.getNextQueueNumber
         [amit WAITING None None; neha VERIFIED (Some 500) (Some 1000)].
Proof.
  split.
  - destruct (next_queue_number_is_one_past_the_maximum []) as (H & _).
    apply H. reflexivity.
  - destruct (next_queue_number_is_one_past_the_maximum
                [amit WAITING None None; neha VERIFIED (Some 500) (Some 1000)])
      as (_ & _ & H).
    apply H. reflexivity.
Defined.

(** C4 (amended) at two registrations into the sample store, one after the
    other, and at two [registerCustomer] requests that overlap completely:
    both read the identifier SM-1003 and the queue number 3; the one that
    stores its customer first is answered 201 with number 3, the other 409
    with no number. *)
Lemma registrations_get_increasing_numbers_witness :
  issued [OpRegister (mkRegistration "SM-1003" "Rahul Mehta" "9876543212" 560 "qr");
          OpRegister (mkRegistration "SM-1004" "Pooja Singh" "9876543213" 4200 "qr")]
         (customers world_billed)
  = [3; 4]
  /\ StronglySorted Z.lt
       (issued (map OpRegister
                    [mkRegistration "SM-1003" "Rahul Mehta" "9876543212" 560 "qr";
                     mkRegistration "SM-1004" "Pooja Singh" "9876543213" 4200 "qr"])
               (customers world_billed))
  /\ let s := register_run JSONText.stringify sample_toDataURL "SM" 1001
                two_registrations_in_lockstep
                (world_billed, RegisterReceived <$> [rahul_body; pooja_body]) in
     received s 0 = Some 3
     /\ received s 1 = None
     /\ Customer.queueNumber <$> customers (fst s) = [1; 2; 3]
     /\ (forall j k n, j <> k -> received s j = Some n -> received s k <> Some n).
Proof.
  split; [reflexivity|].
  destruct (registrations_get_increasing_numbers JSONText.stringify sample_toDataURL
              "SM" 1001
              [mkRegistration "SM-1003" "Rahul Mehta" "9876543212" 560 "qr";
               mkRegistration "SM-1004" "Pooja Singh" "9876543213" 4200 "qr"]
              (customers world_billed) world_billed [rahul_body; pooja_body]
              two_registrations_in_lockstep) as (_ & _ & _ & H & _ & _ & Hrun).
  split; [exact H|]. cbv zeta in Hrun |- *.
  destruct Hrun as (added & _ & _ & _ & _ & _ & Hdistinct).
  split; [vm_compute; reflexivity|]. split; [vm_compute; reflexivity|].
  split; [vm_compute; reflexivity|]. exact Hdistinct.
Defined.

(** ** Closed instances: the further properties on the sample data *)

(** X1 at three scans of Amit's code, one after the other. *)
Lemma scans_in_sequence_succeed_once_witness :
  fst (scan_repeatedly JSONText.parse world_billed amit_payload
                       [(1000, 1005); (2000, 2005); (3000, 3005)])
  = res_verified (Customer.markAsVerified 1000 (amit BILLED (Some 500) None))
    :: map (fun _ => res_duplicate (Customer.markAsVerified 1000 (amit BILLED (Some 500) None)))
           [(2000, 2005); (3000, 3005)].
Proof.
  apply (scans_in_sequence_succeed_once JSONText.parse world_billed amit_payload
           (qrPayloadObject "SM-1001" 1 "2026-01-24T10:30:00.000Z")
           "SM-1001" 1%Q 0%nat (amit BILLED (Some 500) None) 1000 1005
           [(2000, 2005); (3000, 3005)]);
    [discriminate | reflexivity | reflexivity | reflexivity | reflexivity | reflexivity].
Defined.

(** X2 at three scans of Amit's code that overlap completely. *)
Lemma lockstep_requests_all_verified_witness :
  exists w',
    run JSONText.parse (in_lockstep 3 1000 1001 1002 1003 1004)
        (world_billed, replicate 3 (Received (Some amit_payload)))
    = (w', replicate 3 (Responded (res_verified
                                     (Customer.markAsVerified 1001
                                        (amit BILLED (Some 500) None))))).
Proof.
  apply (lockstep_requests_all_verified JSONText.parse world_billed amit_payload
           (qrPayloadObject "SM-1001" 1 "2026-01-24T10:30:00.000Z")
           "SM-1001" 1%Q 0%nat (amit BILLED (Some 500) None) 3 1000 1001 1002 1003 1004);
    [discriminate | reflexivity | reflexivity | reflexivity | reflexivity | reflexivity].
Defined.

(** X3 at Neha's queue number with Amit ahead. *)
Lemma getPosition_agrees_with_customers_witness :
  Queue.getPosition 2 (queues world_billed)
  = Customer.countDocuments_active_lt 2 (customers world_billed) + 1.
Proof.
  apply (getPosition_agrees_with_customers 2 (customers world_billed) (queues world_billed)).
  repeat constructor; unfold active; simpl; tauto.
Defined.

(** X5 at Neha, who is WAITING. *)
Lemma verification_needs_billing_first_witness :
  verifyQRCode JSONText.parse world_billed (Some neha_payload) 1000 1005
  = (res_not_billed (neha WAITING None None), world_billed)
  /\ v_code (res_not_billed (neha WAITING None None)) = 400
  /\ v_reason (res_not_billed (neha WAITING None None)) = Some NOT_BILLED
  /\ v_currentStatus (res_not_billed (neha WAITING None None)) = Some WAITING
  /\ let w1 := snd (completeBilling world_billed "SM-1002" 700) in
     fst (verifyQRCode JSONText.parse w1 (Some neha_payload) 1000 1005)
     = res_verified (Customer.markAsVerified 1000
                       (Customer.markAsBilled 700 (neha WAITING None None))).
Proof.
  apply (verification_needs_billing_first JSONText.parse world_billed neha_payload
           (qrPayloadObject "SM-1002" 2 "2026-01-24T10:31:00.000Z")
           "SM-1002" 2%Q 1%nat (neha WAITING None None) 700 1000 1005);
    [discriminate | reflexivity | reflexivity | reflexivity | reflexivity | reflexivity].
Defined.

(** X6 at Amit after he has left. *)
Lemma verified_is_final_witness :
  customers (handle_all JSONText.parse requests_about_amit world_verified) !! 0%nat
  = Some (amit VERIFIED (Some 500) (Some 1000)).
Proof.
  apply (verified_is_final JSONText.parse requests_about_amit world_verified 0%nat
           (amit VERIFIED (Some 500) (Some 1000))); reflexivity.
Defined.

(** X7 at Amit, BILLED, whose code one bulk request names twice: the
    first entry takes him to VERIFIED at clock 1000, the second finds him
    VERIFIED and changes nothing. *)
Lemma no_exit_without_billing_witness :
  customers world_billed !! 0%nat = Some (amit BILLED (Some 500) None)
  /\ customers (handle JSONText.parse world_billed
                  (PostVerifyBulk (Some [amit_payload; amit_payload])
                                  (fun k => 1000 + Z.of_nat k))) !! 0%nat
     = Some (amit VERIFIED (Some 500) (Some 1000))
  /\ (amit VERIFIED (Some 500) (Some 1000) = amit BILLED (Some 500) None
      \/ transition (amit BILLED (Some 500) None) (amit VERIFIED (Some 500) (Some 1000)))
  /\ (Customer.status (amit VERIFIED (Some 500) (Some 1000)) = VERIFIED ->
      Customer.status (amit BILLED (Some 500) None) = BILLED
      \/ (Customer.status (amit BILLED (Some 500) None) = VERIFIED
          /\ amit VERIFIED (Some 500) (Some 1000) = amit BILLED (Some 500) None)).
Proof.
  split; [reflexivity|]. split; [vm_compute; reflexivity|].
  apply (no_exit_without_billing JSONText.parse world_billed
           (PostVerifyBulk (Some [amit_payload; amit_payload])
                           (fun k => 1000 + Z.of_nat k)) 0%nat
           (amit BILLED (Some 500) None) (amit VERIFIED (Some 500) (Some 1000)));
    [reflexivity|vm_compute; reflexivity].
Defined.

(** X8 at Amit, through billing, undo, a scan and a bulk scan. *)
Lemma queue_number_and_identity_never_change_witness :
  length (customers (handle_all JSONText.parse requests_about_amit world_billed))
  = length (customers world_billed)
  /\ exists d', customers (handle_all JSONText.parse requests_about_amit world_billed) !! 0%nat
                = Some d'
                /\ Customer.customerId d' = "SM-1001"
                /\ Customer.name d' = "Amit Verma"
                /\ Customer.phone d' = "9876543210"
                /\ Customer.cartTotal d' = 1350%Q
                /\ Customer.queueNumber d' = 1
                /\ Customer.qrCode d' = "data:image/png;base64,AAAA".
Proof.
  apply (queue_number_and_identity_never_change JSONText.parse requests_about_amit
           world_billed 0%nat (amit BILLED (Some 500) None)); reflexivity.
Defined.

(** X9 on the sample database. *)
Lemma timestamps_keep_following_status_witness :
  Forall timestamps_follow_status
         (customers (handle_all JSONText.parse requests_about_amit world_billed)).
Proof.
  apply (timestamps_keep_following_status JSONText.parse requests_about_amit world_billed).
  repeat constructor; discriminate.
Defined.


(** X11 at an array with Amit's code twice, text that is not JSON and a
    code nobody holds. *)
Lemma bulk_summary_counts_witness :
  let (r, w') := bulkVerifyQRCodes JSONText.parse world_billed
                   (Some [amit_payload; amit_payload; "not json"; stranger_payload])
                   (fun _ => 1000) in
  k_code r = 200
  /\ length (k_data r) = length [amit_payload; amit_payload; "not json"; stranger_payload]
  /\ k_total r
     = Z.of_nat (length [amit_payload; amit_payload; "not json"; stranger_payload])
  /\ k_successful r + k_failed r <= k_total r
  /\ k_successful r
     = Customer.countDocuments_status BILLED (customers world_billed)
       - Customer.countDocuments_status BILLED (customers w')
  /\ k_successful r
     = Customer.countDocuments_status VERIFIED (customers w')
       - Customer.countDocuments_status VERIFIED (customers world_billed)
  /\ queues w' = queues world_billed.
Proof.
  apply (bulk_summary_counts JSONText.parse world_billed
           [amit_payload; amit_payload; "not json"; stranger_payload] (fun _ => 1000)).
  discriminate.
Defined.

(** X12 at a code that names Amit with queue number 7. *)
Lemma bulk_verification_skips_number_check_and_slot_witness :
  v_reason (fst (verifyQRCode JSONText.parse world_billed (Some mismatched_payload) 1000 1005))
  = Some DATA_MISMATCH
  /\ snd (verifyQRCode JSONText.parse world_billed (Some mismatched_payload) 1000 1005)
     = world_billed
  /\ let (r, w') := bulkVerifyQRCodes JSONText.parse world_billed (Some [mismatched_payload])
                                      (fun _ => 1000) in
     k_data r = [BulkSuccess "SM-1001"]
     /\ k_successful r = 1
     /\ customers w' !! 0%nat
        = Some (Customer.markAsVerified 1000 (amit BILLED (Some 500) None))
     /\ queues w' = queues world_billed.
Proof.
  apply (bulk_verification_skips_number_check_and_slot JSONText.parse world_billed
           mismatched_payload (qrPayloadObject "SM-1001" 7 "2026-01-24T10:30:00.000Z")
           "SM-1001" 7%Q 0%nat (amit BILLED (Some 500) None) (fun _ => 1000) 1000 1005);
    [discriminate | reflexivity | reflexivity | reflexivity | reflexivity | discriminate].
Defined.

(** X17 at Neha, second in the current queue. *)
Lemma position_is_rank_in_current_queue_witness :
  p_data (getQueuePosition world_billed "SM-1002")
  = Some (Ranked "SM-1002" "Neha Gupta" 2 (Z.of_nat 1 + 1) WAITING (Z.of_nat 1)).
Proof.
  apply (position_is_rank_in_current_queue world_billed 1%nat
           (Customer.select_listed (neha WAITING None None)));
    [apply (bool_decide_unpack _); vm_compute; exact I
    | apply (bool_decide_unpack _); vm_compute; exact I
    | reflexivity].
Defined.

(** X20 at the removal of Amit, who is ahead of Neha. *)
Lemma delete_closes_the_queue_witness :
  (Customer.findOne "SM-1001" (customers world_billed) = None ->
   deleteCustomer world_billed "SM-1001"
   = (mkDeleteResponse 404 false "Customer not found" None, world_billed))
  /\ forall i d,
      Customer.findOne "SM-1001" (customers world_billed) = Some (i, d) ->
      let (r, w') := deleteCustomer world_billed "SM-1001" in
      x_code r = 200
      /\ x_data r = Some ("SM-1001", Customer.name d)
      /\ customers w' = delete i (customers world_billed)
      /\ x_code (fst (deleteCustomer w' "SM-1001")) = 404
      /\ p_code (getQueuePosition w' "SM-1001") = 404
      /\ forall c, c ∈ customers world_billed -> c <> d -> active c ->
           let k := Z.of_nat (length (filter (ahead_of c) (customers world_billed))) in
           let k' := k - (if decide (ahead_of c d) then 1 else 0) in
           p_data (getQueuePosition w' (Customer.customerId c))
           = Some (Ranked (Customer.customerId c) (Customer.name c)
                          (Customer.queueNumber c) (k' + 1) (Customer.status c) k').
Proof.
  apply (delete_closes_the_queue world_billed "SM-1001").
  apply (bool_decide_unpack _); vm_compute; exact I.
Defined.

(** X21 at a batch of three identifiers from 1001 on. *)
Lemma batch_ids_are_valid_and_distinct_witness :
  generateBatchCustomerIds "SM" 3 1001 = Some ["SM-1001"; "SM-1002"; "SM-1003"]
  /\ exists ids,
       generateBatchCustomerIds "SM" 3 1001 = Some ids
       /\ length ids = 3%nat
       /\ Forall (fun id => isValidCustomerId "SM" id = Some true) ids
       /\ NoDup ids
       /\ ("SM" = "SM" ->
           extractCustomerNumber <$> ids = Some <$> seqZ 1001 (Z.of_nat 3)).
Proof.
  split; [reflexivity|].
  apply (batch_ids_are_valid_and_distinct "SM" 3 1001); [reflexivity|lia|].
  unfold MAX_SAFE_INTEGER. simpl. lia.
Defined.

(** X22 on the sample database: the next identifier is [SM-1003]. *)
Lemma generated_id_is_fresh_witness :
  generateCustomerId "SM" 1001 (customers world_billed) = "SM-1003"
  /\ let id := generateCustomerId "SM" 1001 (customers world_billed) in
     (exists next, id = format_customerId "SM" next /\ safe_integer next = true)
     /\ Customer.findOne id (customers world_billed) = None
     /\ customerId_format id = true
     /\ isValidCustomerId "SM" id = Some true
     /\ (forall d, Customer.customerId d = id ->
                   ids_in_creation_order (customers world_billed ++ [d]))
     /\ (forall i, ids_in_creation_order (delete i (customers world_billed)))
     /\ NoDup (Customer.customerId <$> customers world_billed).
Proof.
  split; [reflexivity|].
  apply (generated_id_is_fresh 1001 (customers world_billed)).
  - unfold MAX_SAFE_INTEGER. lia.
  - exists [1001; 1002]. split; [reflexivity|]. split; repeat constructor; lia.
  - repeat constructor; intros n H; vm_compute in H; injection H as <-;
      unfold MAX_SAFE_INTEGER; lia.
Defined.

(** X25 at the name [A]. *)
Lemma short_name_is_a_server_error_witness :
  registerCustomer JSONText.stringify sample_toDataURL "SM" 1001 world_billed
                   (mkRegisterBody (Some "A") (Some "9876543210") (Some 10%Q))
                   "2026-01-24T10:32:00.000Z" 900
  = (mkRegisterResponse 500 false "Failed to register customer" None, world_billed).
Proof.
  apply (short_name_is_a_server_error JSONText.stringify sample_toDataURL "SM" 1001
           world_billed "A" "9876543210" 10%Q "2026-01-24T10:32:00.000Z" 900);
    [discriminate | simpl; lia | reflexivity | reflexivity].
Defined.

(** X26 at Rahul's registration on the sample database, which holds
    SM-1001 and SM-1002 with queue numbers 1 and 2: he is given SM-1003 and
    queue number 3. *)
Lemma sequential_registration_succeeds_witness :
  fst (registerCustomer JSONText.stringify sample_toDataURL "SM" 1001 world_billed
         rahul_body "2026-01-24T10:32:00.000Z" 2000)
  = mkRegisterResponse 201 true "Customer registered successfully"
      (Some (mkRegisteredData "SM-1003" "Rahul Mehta" "9876543212" 560%Q 3
               (String.append "data:image/png;base64,"
                  (qrPayload JSONText.stringify "SM-1003" 3 "2026-01-24T10:32:00.000Z"))
               WAITING 3 "6 minutes"))
  /\ let (r, w') := registerCustomer JSONText.stringify sample_toDataURL "SM" 1001
                      world_billed rahul_body "2026-01-24T10:32:00.000Z" 2000 in
     g_code r = 201 /\ g_success r = true
     /\ length (customers w') = S (length (customers world_billed))
     /\ kept_in_step w'
     /\ exists d,
          customers w' = (customers world_billed ++ [d])%list
          /\ ascii_text (Customer.name d)
          /\ safe_integer (Customer.queueNumber d) = true
          /\ exists next, Customer.customerId d = format_customerId "SM" next
                          /\ safe_integer next = true.
Proof.
  split; [vm_compute; reflexivity|].
  apply (sequential_registration_succeeds JSONText.stringify sample_toDataURL 1001
           world_billed "Rahul Mehta" "9876543212" 560%Q "2026-01-24T10:32:00.000Z" 2000).
  - unfold MAX_SAFE_INTEGER. lia.
  - split; [|split].
    + exists [1001; 1002]. split; [reflexivity|]. split; repeat constructor; lia.
    + repeat constructor; simpl; lia.
    + repeat constructor.
  - repeat constructor; intros n H; vm_compute in H; injection H as <-;
      unfold MAX_SAFE_INTEGER; lia.
  - repeat constructor; unfold MAX_SAFE_INTEGER; simpl; lia.
  - repeat constructor; simpl; lia.
  - simpl. lia.
  - reflexivity.
  - reflexivity.
  - intros payload. eexists. split; [reflexivity|discriminate].
Defined.

(** X27 on the sample database. *)
Lemma requests_keep_the_database_in_step_witness :
  (forall rs, kept_in_step (handle_all JSONText.parse rs world_billed))
  /\ (forall customerId, kept_in_step (snd (deleteCustomer world_billed customerId)))
  /\ (forall now, kept_in_step (snd (resetQueue world_billed now)))
  /\ NoDup (Customer.customerId <$> customers world_billed)
  /\ length (queues world_billed) = length (customers world_billed).
Proof.
  apply (requests_keep_the_database_in_step JSONText.parse world_billed).
  split; [|split].
  - exists [1001; 1002]. split; [reflexivity|]. split; repeat constructor; lia.
  - repeat constructor; simpl; lia.
  - repeat constructor.
Defined.

(** X28 at Amit, from the empty database to the exit. *)
Lemma registered_customer_can_exit_witness :
  let registration :=
    registerCustomer JSONText.stringify sample_toDataURL "SM" 1001 empty_world amit_body
                     "2026-01-24T10:30:00.000Z" 0 in
  let w1 := snd registration in
  let w2 := snd (completeBilling w1 "SM-1001" 500) in
  let (v, w3) := verifyQRCode JSONText.parse w2 (Some amit_payload) 1000 1005 in
  v_reason (fst (verifyQRCode JSONText.parse w1 (Some amit_payload) 1000 1005))
  = Some NOT_BILLED
  /\ snd (verifyQRCode JSONText.parse w1 (Some amit_payload) 1000 1005) = w1
  /\ v_code v = 200
  /\ v_verification v = Some SUCCESS
  /\ (exists d, customers w3 = (customers empty_world ++ [d])%list
                /\ Customer.customerId d = "SM-1001"
                /\ Customer.queueNumber d = 1
                /\ Customer.status d = VERIFIED
                /\ Customer.billedAt d = Some 500
                /\ Customer.verifiedAt d = Some 1000)
  /\ ((forall s, s ∈ queues empty_world -> Queue.customerId s <> "SM-1001") ->
      queues w3 = (queues empty_world ++ [Queue.mk 1 "SM-1001" COMPLETED 0 (Some 1005)])%list)
  /\ p_data (getQueuePosition w3 "SM-1001") = Some (NotRanked "SM-1001" VERIFIED).
Proof.
  apply (registered_customer_can_exit JSONText.parse JSONText.stringify sample_toDataURL
           "SM" 1001 empty_world amit_body "2026-01-24T10:30:00.000Z" 0 500 1000 1005);
    [discriminate | reflexivity | reflexivity].
Defined.
